(** * mcp-git-tools: the diff-driven annotation engine

    A shallow embedding of [src/tools/addComments.ts] and of the helpers of
    [src/utils/branchParser.ts] it calls, with the file system and the
    version-control backend of [src/utils/gitOps.ts] as an explicit world.

    Conventions of the embedding:
    - a JavaScript string is the list of its UTF-16 code units ([jstr]);
    - the line number of a request is an integer of [Z]; the line cursor of
      the diff locator, a Number that holds a non-negative integer or
      [+Infinity], is the integer of [Z] it holds, with [INFINITY] for
      [+Infinity], and its arithmetic rounds as the Numbers of the source
      do ([to_number], [incr]);
    - a JavaScript array is a [list]; the [Map] of [parseDiff] is an
      association list that keeps insertion order;
    - regular expressions are terms of [re], run by a backtracking matcher
      with the priorities of the ECMAScript matcher;
    - a promise that may reject is a computation of the monad [M], which
      threads the world and carries a thrown error. *)

From Stdlib Require Import String Ascii.
From stdpp Require Import gmap list fin_maps sorting pretty.

Local Open Scope Z_scope.
Local Open Scope list_scope.

(** ** JavaScript strings *)

Module JsString.

Abbreviation jstr := (list N).

(** Literal strings of the source, written as Rocq strings. *)
Definition js (s : string) : jstr :=
  List.map N_of_ascii (list_ascii_of_string s).

Definition NL : N := 10%N.

(** [\d] *)
Definition is_digit (c : N) : bool := (48 <=? c)%N && (c <=? 57)%N.

(** [[A-Z]] *)
Definition is_upper (c : N) : bool := (65 <=? c)%N && (c <=? 90)%N.

(** [\s], and the characters [String.prototype.trim] strips: WhiteSpace and
    LineTerminator of ECMAScript. *)
Definition is_space (c : N) : bool :=
  ((9 <=? c)%N && (c <=? 13)%N)
  || (c =? 32)%N || (c =? 160)%N || (c =? 5760)%N
  || ((8192 <=? c)%N && (c <=? 8202)%N)
  || (c =? 8232)%N || (c =? 8233)%N || (c =? 8239)%N
  || (c =? 8287)%N || (c =? 12288)%N || (c =? 65279)%N.

(** [s.startsWith(p)] *)
Fixpoint startsWith (s p : jstr) {struct p} : bool :=
  match p, s with
  | [], _ => true
  | _ :: _, [] => false
  | a :: p', b :: s' => (a =? b)%N && startsWith s' p'
  end.

(** [s.substring(n)] for [0 <= n] *)
Definition substring (s : jstr) (n : nat) : jstr := drop n s.

(** [s.split("\n")] *)
Fixpoint split_nl (s : jstr) : list jstr :=
  match s with
  | [] => [[]]
  | c :: s' =>
      if (c =? NL)%N then [] :: split_nl s'
      else match split_nl s' with
           | l :: ls => (c :: l) :: ls
           | [] => [[c]]
           end
  end.

(** [lines.join("\n")] *)
Fixpoint join_nl (ls : list jstr) : jstr :=
  match ls with
  | [] => []
  | [l] => l
  | l :: ls' => l ++ NL :: join_nl ls'
  end.

Fixpoint trim_start (s : jstr) : jstr :=
  match s with
  | c :: s' => if is_space c then trim_start s' else s
  | [] => []
  end.

(** [s.trim()] *)
Definition trim (s : jstr) : jstr :=
  rev (trim_start (rev (trim_start s))).

(** [Number.MAX_SAFE_INTEGER], [2^53 - 1]: up to it, and at [2^53], a
    non-negative integer is a Number. *)
Definition MAX_SAFE_INTEGER : Z := 9007199254740991.

(** Stands for [+Infinity]: [2^1024], above every finite Number. It only
    compares and increments. *)
Definition INFINITY : Z := 2 ^ 1024.

(** The Number value of a non-negative integer: the nearest double, a tie
    going to the even significand, and [+Infinity] from [2^1024 - 2^970]
    on. Above [2^53] the significand [q] keeps 53 bits and [e] bits are
    rounded away. *)
Definition to_number (z : Z) : Z :=
  if z <=? MAX_SAFE_INTEGER then z
  else
    let e := Z.log2 z - 52 in
    let q := Z.shiftr z e in
    let r := z - Z.shiftl q e in
    let half := Z.shiftl 1 (e - 1) in
    let q' := if (half <? r) || ((r =? half) && Z.odd q) then q + 1 else q in
    let v := Z.shiftl q' e in
    if v <? INFINITY then v else INFINITY.

(** [x++] on a Number that holds a non-negative integer: the new value,
    [x + 1] rounded. *)
Definition incr (x : Z) : Z := to_number (x + 1).

(** The integer a run of decimal digits denotes. *)
Definition digits_value (s : jstr) : Z :=
  fold_left (fun acc c => 10 * acc + (Z.of_N c - 48)) s 0.

(** [parseInt(s, 10)] on a run of decimal digits, the only argument the
    source passes (the capture of [(\d+)]): the Number value of the integer
    the digits denote. *)
Definition parseInt10 (s : jstr) : Z := to_number (digits_value s).

(** Truthiness of a string: the empty string is falsy. *)
Definition truthy (s : jstr) : bool :=
  match s with [] => false | _ :: _ => true end.

Definition has_nl (s : jstr) : bool := existsb (N.eqb NL) s.

(** The longest prefix of a string made of characters of a class. *)
Fixpoint leading (p : N -> bool) (s : jstr) : jstr :=
  match s with
  | x :: s' => if p x then x :: leading p s' else []
  | [] => []
  end.

End JsString.
Import JsString.

(** ** Regular expressions *)

Module Regex.

(** The fragment of the pattern language the source uses. [Grp n r] is the
    [n]-th capturing group. *)
Inductive re : Type :=
| Eps
| Bol                      (* ^ *)
| Chr (p : N -> bool)      (* one code unit of a class *)
| Seq (r1 r2 : re)
| Opt (r : re)             (* r? *)
| Star (r : re)            (* r* *)
| Grp (n : nat) (r : re).

Definition Plus (r : re) : re := Seq r (Star r).      (* r+ *)

Fixpoint Rep (n : nat) (r : re) : re :=               (* r{n} *)
  match n with
  | O => Eps
  | S n' => Seq r (Rep n' r)
  end.

Definition Lit (s : jstr) : re :=
  fold_right (fun c r => Seq (Chr (N.eqb c)) r) Eps s.

(** A matcher state: the index reached in the subject and the text left. *)
Definition pos : Type := nat * jstr.
Definition caps : Type := list (nat * jstr).

Definition progress (st1 st : pos) : bool :=
  (length (snd st1) <? length (snd st))%nat.

(** The iteration of [r*]: [body] matches [r] once; [fuel] bounds the number
    of iterations by the length of the text left, each consuming some. *)
Fixpoint star_loop {R : Type}
    (body : pos -> caps -> (pos -> caps -> option R) -> option R)
    (k : pos -> caps -> option R) (fuel : nat) (st : pos) (c : caps)
    : option R :=
  match fuel with
  | O => k st c
  | S fuel' =>
      match body st c
              (fun st1 c1 =>
                 if progress st1 st then star_loop body k fuel' st1 c1
                 else None) with
      | Some x => Some x
      | None => k st c
      end
  end.

(** Backtracking matcher in continuation-passing style: alternatives are
    tried in the order of the ECMAScript matcher (greedy quantifiers, an
    iteration that consumes nothing is rejected). *)
Fixpoint run {R : Type} (r : re) (st : pos) (c : caps)
    (k : pos -> caps -> option R) : option R :=
  match r with
  | Eps => k st c
  | Bol => if (fst st =? 0)%nat then k st c else None
  | Chr p =>
      match snd st with
      | x :: s' => if p x then k (S (fst st), s') c else None
      | [] => None
      end
  | Seq r1 r2 => run r1 st c (fun st1 c1 => run r2 st1 c1 k)
  | Opt r1 =>
      match run r1 st c
              (fun st1 c1 => if progress st1 st then k st1 c1 else None) with
      | Some x => Some x
      | None => k st c
      end
  | Star r1 => star_loop (run r1) k (length (snd st)) st c
  | Grp n r1 =>
      run r1 st c
        (fun st1 c1 => k st1 ((n, take (fst st1 - fst st) (snd st)) :: c1))
  end.

(** What the matcher can consume, without the priorities: [matches r st st']
    when [r] can take the matcher from [st] to [st']. *)
Inductive matches : re -> pos -> pos -> Prop :=
| m_eps st : matches Eps st st
| m_bol s : matches Bol (O, s) (O, s)
| m_chr p i x s : p x = true -> matches (Chr p) (i, x :: s) (S i, s)
| m_seq r1 r2 st st1 st2 :
    matches r1 st st1 -> matches r2 st1 st2 -> matches (Seq r1 r2) st st2
| m_opt_none r st : matches (Opt r) st st
| m_opt_some r st st1 : matches r st st1 -> matches (Opt r) st st1
| m_star_nil r st : matches (Star r) st st
| m_star_cons r st st1 st2 :
    matches r st st1 -> progress st1 st = true ->
    matches (Star r) st1 st2 -> matches (Star r) st st2
| m_grp n r st st1 : matches r st st1 -> matches (Grp n r) st st1.

(** The result of a successful match: [index], [match[0]] and the groups. *)
Record rmatch : Type := { m_index : nat; m_text : jstr; m_caps : caps }.

Definition group (n : nat) (m : rmatch) : option jstr :=
  snd <$> List.find (fun e => (fst e =? n)%nat) (m_caps m).

(** The search of [RegExp.prototype.exec] for a pattern without flags: the
    first index, from the left, at which the matcher succeeds. *)
Fixpoint search (r : re) (i : nat) (s : jstr) : option rmatch :=
  match run r (i, s) [] (fun st c => Some (st, c)) with
  | Some (st, c) =>
      Some {| m_index := i; m_text := take (fst st - i) s; m_caps := c |}
  | None =>
      match s with
      | [] => None
      | _ :: s' => search r (S i) s'
      end
  end.

(** [s.match(r)] and [r.exec(s)] *)
Definition exec (r : re) (s : jstr) : option rmatch := search r 0 s.

(** [r.test(s)] *)
Definition test (r : re) (s : jstr) : bool :=
  match exec r s with Some _ => true | None => false end.

(** A pattern written as the sequence of its terms. *)
Definition seqs (rs : list re) : re := fold_right Seq Eps rs.

End Regex.
Import Regex.

(** ** [src/utils/branchParser.ts] *)

Module BranchParser.

Record BranchCodeResult : Type := {
  branchCode : option jstr;
  isValid : bool;
  branchName : jstr;
  error : option jstr
}.

(** [/FLY[A-Z]-\d{3}/] *)
Definition BRANCH_CODE_REGEX : re :=
  seqs [Lit (js "FLY"); Chr is_upper; Lit (js "-"); Rep 3 (Chr is_digit)].

Definition extractBranchCode (name : jstr) : BranchCodeResult :=
  if negb (truthy name) || negb (truthy (trim name)) then
    {| branchCode := None; isValid := false; branchName := name;
       error := Some (js "Branch name is empty") |}
  else
    match exec BRANCH_CODE_REGEX name with
    | None =>
        {| branchCode := None; isValid := false; branchName := name;
           error := Some (js "No valid branch code found. Expected format: FLY[A-Z]-[0-9]{3}") |}
    | Some m =>
        {| branchCode := Some (m_text m); isValid := true; branchName := name;
           error := None |}
    end.

Definition formatComment (code comment : jstr) : jstr :=
  js "// " ++ code ++ js ": " ++ comment.

(** The characters that are syntax in a pattern; every other character of
    the text given to [new RegExp] stands for itself. *)
Definition is_syntax_char (c : N) : bool :=
  existsb (N.eqb c) (js "^$\.*+?()[]{}|").

(** [new RegExp(`//\\s*${branchCode}:`)]. The template splices the code into
    the pattern text; a code without syntax characters compiles to the
    literal [Lit code], which is how the embedding takes it. Every code the
    tool passes here is a [match[0]] of [BRANCH_CODE_REGEX]. *)
Definition commentPattern (code : jstr) : re :=
  seqs [Lit (js "//"); Star (Chr is_space); Lit code; Lit (js ":")].

Definition hasExistingComment (line code : jstr) : bool :=
  test (commentPattern code) line.

(** The shape [FLY[A-Z]-[0-9]{3}] as a predicate on a whole string. *)
Definition is_branch_code (t : jstr) : bool :=
  match t with
  | [f; l; y; u; h; d1; d2; d3] =>
      (f =? 70)%N && (l =? 76)%N && (y =? 89)%N && is_upper u
      && (h =? 45)%N && is_digit d1 && is_digit d2 && is_digit d3
  | _ => false
  end.

End BranchParser.
Import BranchParser.

(** ** The diff locator: [parseDiff] of [src/tools/addComments.ts] *)

Module DiffLocator.

(** [Map<string, number[]>]: entries in insertion order, keys unique. *)
Definition FileChanges : Type := list (jstr * list Z).

Fixpoint map_get (m : FileChanges) (k : jstr) : option (list Z) :=
  match m with
  | [] => None
  | (k', v) :: m' => if decide (k' = k) then Some v else map_get m' k
  end.

(** [m.set(k, v)]: an existing key keeps its place, a new key goes last. *)
Fixpoint map_set (m : FileChanges) (k : jstr) (v : list Z) : FileChanges :=
  match m with
  | [] => [(k, v)]
  | (k', v') :: m' =>
      if decide (k' = k) then (k', v) :: m' else (k', v') :: map_set m' k v
  end.

(** [/@@ -\d+,?\d* \+(\d+),?\d* @@/] *)
Definition HUNK_HEADER : re :=
  seqs [Lit (js "@@ -"); Plus (Chr is_digit); Opt (Chr (N.eqb 44));
        Star (Chr is_digit); Lit (js " +"); Grp 1 (Plus (Chr is_digit));
        Opt (Chr (N.eqb 44)); Star (Chr is_digit); Lit (js " @@")].

(** The new-start a hunk header declares: [parseInt(match[1], 10)] when the
    pattern matches. *)
Definition hunk_start (line : jstr) : option Z :=
  match exec HUNK_HEADER line with
  | Some m => Some (parseInt10 (default [] (group 1 m)))
  | None => None
  end.

(** The variables of the scan loop. *)
Record scan : Type := {
  fileChanges : FileChanges;
  currentFile : option jstr;
  currentLineNumber : Z
}.

Definition scan0 : scan :=
  {| fileChanges := []; currentFile := None; currentLineNumber := 0 |}.

(** [currentFile && ...]: [null] and the empty string are falsy. *)
Definition file_set (f : option jstr) : bool :=
  match f with Some p => truthy p | None => false end.

(** One iteration of [for (const line of lines)]. *)
Definition step (st : scan) (line : jstr) : scan :=
  if startsWith line (js "+++ b/") then
    let f := substring line 6 in
    {| fileChanges := map_set (fileChanges st) f [];
       currentFile := Some f;
       currentLineNumber := currentLineNumber st |}
  else if startsWith line (js "@@") then
    match hunk_start line with
    | Some n =>
        {| fileChanges := fileChanges st;
           currentFile := currentFile st;
           currentLineNumber := n |}
    | None => st
    end
  else if file_set (currentFile st) && startsWith line (js "+")
          && negb (startsWith line (js "+++")) then
    (* [currentFile] holds a path here *)
    let f := default [] (currentFile st) in
    let lineNumbers := default [] (map_get (fileChanges st) f) in
    {| fileChanges :=
         map_set (fileChanges st) f (lineNumbers ++ [currentLineNumber st]);
       currentFile := currentFile st;
       currentLineNumber := incr (currentLineNumber st) |}
  else if file_set (currentFile st) && negb (startsWith line (js "-")) then
    {| fileChanges := fileChanges st;
       currentFile := currentFile st;
       currentLineNumber := incr (currentLineNumber st) |}
  else st.

Definition scan_lines (st : scan) (lines : list jstr) : scan :=
  fold_left step lines st.

Definition parseDiff (diff : jstr) : FileChanges :=
  fileChanges (scan_lines scan0 (split_nl diff)).

End DiffLocator.
Import DiffLocator.

(** ** The collaborators of [src/utils/gitOps.ts] as a world *)

Module World.

(** A file of the working tree: its text, and whether a write to it
    succeeds. A path without an entry does not exist. *)
Record file : Type := { f_content : jstr; f_writable : bool }.

(** The calls made to the collaborators, oldest first. *)
Inductive event : Type :=
| EvGetCurrentBranch
| EvGetStagedDiff
| EvGetUnstagedDiff
| EvReadFile (path : jstr)
| EvWriteFile (path content : jstr).

(** What an awaited promise settles to: a value, or a thrown [Error] with
    its message. *)
Inductive outcome (A : Type) : Type :=
| Ok (a : A)
| Throw (msg : jstr).
Arguments Ok {A} a.
Arguments Throw {A} msg.

Record world : Type := {
  w_branch : outcome jstr;
  w_staged : outcome jstr;
  w_unstaged : outcome jstr;
  w_fs : gmap jstr file;
  w_trace : list event
}.

Definition M (A : Type) : Type := world -> outcome A * world.

Definition ret {A} (a : A) : M A := fun w => (Ok a, w).

Definition bind {A B} (m : M A) (f : A -> M B) : M B :=
  fun w =>
    match m w with
    | (Ok a, w') => f a w'
    | (Throw e, w') => (Throw e, w')
    end.

Definition throw {A} (msg : jstr) : M A := fun w => (Throw msg, w).

(** [try { body } catch (error) { handler }] *)
Definition try_catch {A} (body : M A) (handler : jstr -> M A) : M A :=
  fun w =>
    match body w with
    | (Ok a, w') => (Ok a, w')
    | (Throw e, w') => handler e w'
    end.

Definition log (e : event) (w : world) : world :=
  {| w_branch := w_branch w; w_staged := w_staged w;
     w_unstaged := w_unstaged w; w_fs := w_fs w;
     w_trace := w_trace w ++ [e] |}.

Definition set_fs (fs : gmap jstr file) (w : world) : world :=
  {| w_branch := w_branch w; w_staged := w_staged w;
     w_unstaged := w_unstaged w; w_fs := fs;
     w_trace := w_trace w |}.

Definition getCurrentBranch : M jstr :=
  fun w => (w_branch w, log EvGetCurrentBranch w).

Definition getStagedDiff : M jstr :=
  fun w => (w_staged w, log EvGetStagedDiff w).

Definition getUnstagedDiff : M jstr :=
  fun w => (w_unstaged w, log EvGetUnstagedDiff w).

(** [fs.readFile(path, "utf-8")] rejects for a path that does not exist. *)
Definition readFile (path : jstr) : M jstr :=
  fun w =>
    match w_fs w !! path with
    | Some f => (Ok (f_content f), log (EvReadFile path) w)
    | None => (Throw (js "ENOENT"), log (EvReadFile path) w)
    end.

(** [fs.writeFile(path, content, "utf-8")] replaces the text of a writable
    file, creates a missing one and rejects for a file that cannot be
    written. *)
Definition writeFile (path content : jstr) : M unit :=
  fun w =>
    let w' := log (EvWriteFile path content) w in
    match w_fs w !! path with
    | Some f =>
        if f_writable f then
          (Ok tt, set_fs (<[path := {| f_content := content; f_writable := true |}]> (w_fs w)) w')
        else (Throw (js "EACCES"), w')
    | None =>
        (Ok tt, set_fs (<[path := {| f_content := content; f_writable := true |}]> (w_fs w)) w')
    end.

(** The text of a file in a world, when it exists. *)
Definition content_of (w : world) (path : jstr) : option jstr :=
  f_content <$> (w_fs w !! path).

End World.
Import World.

Declare Scope js_scope.
Delimit Scope js_scope with jsm.
Notation "x <- m ;; k" := (bind m (fun x => k))
  (at level 100, m at next level, right associativity) : js_scope.
Notation "m ;;; k" := (bind m (fun _ => k))
  (at level 100, right associativity) : js_scope.

(** ** The annotation engine of [src/tools/addComments.ts] *)

Module Annotate.

Local Open Scope js_scope.

Inductive Source : Type := staged | unstaged | file_source.

Record AddCommentsInput : Type := {
  comment : jstr;
  source : option Source;
  filePath : option jstr;
  lineNumber : option Z
}.

Record AddCommentsResult : Type := {
  success : bool;
  message : jstr;
  r_branchCode : option jstr;
  filesModified : option (list jstr);
  r_error : option jstr
}.

(** The pattern of [targetLine.match]: [^], then group 1 holding [\s] zero
    or more times. *)
Definition INDENT : re := seqs [Bol; Grp 1 (Star (Chr is_space))].

(** [indentMatch ? indentMatch[1] : the empty string] *)
Definition indent_of (targetLine : jstr) : jstr :=
  match exec INDENT targetLine with
  | Some m => default [] (group 1 m)
  | None => []
  end.

(** [lines.splice(i, 0, x)] *)
Definition splice_in (lines : list jstr) (i : nat) (x : jstr) : list jstr :=
  take i lines ++ x :: drop i lines.

Definition addCommentToFile (filePath : jstr) (lineNumber : Z)
    (comment branchCode : jstr) : M bool :=
  try_catch
    (content <- readFile filePath ;;
     let lines := split_nl content in
     if (lineNumber <? 1) || (lineNumber >? Z.of_nat (length lines)) then
       ret false
     else
       let targetIndex := Z.to_nat (lineNumber - 1) in
       match lines !! targetIndex with
       | None => throw (js "TypeError")
       | Some targetLine =>
           if hasExistingComment targetLine branchCode then ret false
           else
             let indent := indent_of targetLine in
             let formattedComment := indent ++ formatComment branchCode comment in
             let lines' := splice_in lines targetIndex formattedComment in
             writeFile filePath (join_nl lines') ;;;
             ret true
       end)
    (fun _ => ret false).

(** The text [addCommentToFile] writes when it inserts above [target], the
    line at index [i] of [lines]. *)
Definition annotated (lines : list jstr) (i : nat) (target comment tag : jstr) : jstr :=
  join_nl (splice_in lines i (indent_of target ++ formatComment tag comment)).

(** The body of [for (const [filePath, lineNumbers] of fileChanges.entries())]
    with [modifiedFiles] as the accumulator. *)
Fixpoint for_entries (entries : FileChanges) (comment branchCode : jstr)
    (modifiedFiles : list jstr) : M (list jstr) :=
  match entries with
  | [] => ret modifiedFiles
  | (filePath, lineNumbers) :: rest =>
      match lineNumbers with
      | first :: _ =>
          ok <- addCommentToFile filePath first comment branchCode ;;
          for_entries rest comment branchCode
            (if ok then modifiedFiles ++ [filePath] else modifiedFiles)
      | [] => for_entries rest comment branchCode modifiedFiles
      end
  end.

Definition addCommentsToDiff (diff comment branchCode : jstr) : M (list jstr) :=
  for_entries (parseDiff diff) comment branchCode [].

End Annotate.
Import Annotate.

Module Tool.

Local Open Scope js_scope.

(** Decimal text of a number spliced into a template string. *)
Definition num (n : Z) : jstr := js (pretty n).

(** [!input.lineNumber]: [undefined] and [0] are falsy. *)
Definition line_given (l : option Z) : option Z :=
  match l with
  | Some n => if (n =? 0) then None else Some n
  | None => None
  end.

(** [input.filePath] as a condition: [undefined] and the empty string are
    falsy. *)
Definition path_given (p : option jstr) : option jstr :=
  match p with
  | Some s => if truthy s then Some s else None
  | None => None
  end.

Definition source_name (s : Source) : jstr :=
  match s with
  | staged => js "staged"
  | unstaged => js "unstaged"
  | file_source => js "file"
  end.

(** The part of [addComments] that follows the extraction of the branch
    code. *)
Definition addCommentsWith (input : AddCommentsInput) (branchCode : jstr)
    : M AddCommentsResult :=
  let source := default staged (source input) in
  match source, path_given (filePath input) with
  | file_source, Some path =>
      match line_given (lineNumber input) with
      | None =>
          ret {| success := false;
                 message := js "Line number required when specifying a file";
                 r_branchCode := None; filesModified := None;
                 r_error := Some (js "Missing lineNumber parameter") |}
      | Some line =>
          ok <- addCommentToFile path line (comment input) branchCode ;;
          ret {| success := ok;
                 message :=
                   if ok
                   then js "Comment added to " ++ path ++ js " at line " ++ num line
                   else js "Failed to add comment (may already exist or invalid line number)";
                 r_branchCode := Some branchCode;
                 filesModified := Some (if ok then [path] else []);
                 r_error := None |}
      end
  | _, _ =>
      diff <- match source with
              | staged => getStagedDiff
              | _ => getUnstagedDiff
              end ;;
      if negb (truthy diff) || negb (truthy (trim diff)) then
        ret {| success := false;
               message := js "No " ++ source_name source ++ js " changes found";
               r_branchCode := Some branchCode; filesModified := None;
               r_error := None |}
      else
        modified <- addCommentsToDiff diff (comment input) branchCode ;;
        let n := Z.of_nat (length modified) in
        ret {| success := (n >? 0);
               message :=
                 if (n >? 0)
                 then js "Comments added to " ++ num n ++ js " file(s)"
                 else js "No comments were added (may already exist or no valid lines found)";
               r_branchCode := Some branchCode;
               filesModified := Some modified;
               r_error := None |}
  end.

(** The result of the branch-code gate when no code is extracted. *)
Definition gate_failure (err : option jstr) : AddCommentsResult :=
  {| success := false; message := js "Failed to extract branch code";
     r_branchCode := None; filesModified := None; r_error := err |}.

(** The handler of the outer [catch] of [addComments]. *)
Definition caught (msg : jstr) : M AddCommentsResult :=
  ret {| success := false; message := js "Error adding comments";
         r_branchCode := None; filesModified := None;
         r_error := Some msg |}.

Definition addComments (input : AddCommentsInput) : M AddCommentsResult :=
  try_catch
    (branchName <- getCurrentBranch ;;
     let branchResult := extractBranchCode branchName in
     match isValid branchResult, branchCode branchResult with
     | true, Some code =>
         if truthy code then addCommentsWith input code
         else ret (gate_failure (error branchResult))
     | _, _ => ret (gate_failure (error branchResult))
     end)
    caught.

(** A write, if the event is one, holds a text annotated with the tag. *)
Definition tagged_write (comment tag : jstr) (e : event) : Prop :=
  match e with
  | EvWriteFile _ text =>
      exists lines i target, text = annotated lines i target comment tag
  | _ => True
  end.

(** A request that names a file and a line. *)
Definition file_request (path comment : jstr) (n : Z) : AddCommentsInput :=
  {| comment := comment; source := Some file_source;
     filePath := Some path; lineNumber := Some n |}.

End Tool.
Import Tool.

(** ** Vocabulary for the shape of a [FileChanges] map *)

Module Shape.

Definition is_header (line : jstr) : bool := startsWith line (js "+++ b/").

(** An added line of a hunk: it starts with ['+'] and not with ["+++"]. *)
Definition is_addition (line : jstr) : bool :=
  startsWith line (js "+") && negb (startsWith line (js "+++")).

(** The paths of the file headers of a diff, in the order of the lines. *)
Definition headers (lines : list jstr) : list jstr :=
  (fun l => substring l 6) <$> filter (fun l => is_header l = true) lines.

(** A list without its repetitions, each element at its first place. *)
Fixpoint first_occurrences (l : list jstr) : list jstr :=
  match l with
  | [] => []
  | x :: l' => x :: filter (fun y => y <> x) (first_occurrences l')
  end.

(** The line numbers recorded so far for the current file. *)
Definition current_lines (st : scan) : list Z :=
  match currentFile st with
  | Some f => default [] (map_get (fileChanges st) f)
  | None => []
  end.

(** Every valid hunk header met from [st] on declares a new-start above
    the line numbers already recorded for the current file. *)
Fixpoint ascending_from (st : scan) (lines : list jstr) : bool :=
  match lines with
  | [] => true
  | line :: rest =>
      (if negb (is_header line) && startsWith line (js "@@") then
         match hunk_start line with
         | Some n => forallb (fun x => x <? n) (current_lines st)
         | None => true
         end
       else true)
      && ascending_from (step st line) rest
  end.

Definition hunks_ascend (diff : jstr) : bool :=
  ascending_from scan0 (split_nl diff).

(** Invariants of the scan. The current file, once set, is a key of the
    map. *)
Definition current_is_key (st : scan) : Prop :=
  forall f, currentFile st = Some f -> f ∈ (fileChanges st).*1.

(** Each sequence is strictly increasing and the current file's line
    numbers are below the cursor. *)
Definition sorted_below (st : scan) : Prop :=
  (forall f ns, map_get (fileChanges st) f = Some ns -> StronglySorted Z.lt ns)
  /\ Forall (fun x => x < currentLineNumber st) (current_lines st).

End Shape.
Import Shape.

(** ** Sample worlds *)

Module Samples.

Definition writable (text : jstr) : file :=
  {| f_content := text; f_writable := true |}.

(** A working tree on a feature branch, with nothing staged. *)
Definition tree (files : gmap jstr file) : world :=
  {| w_branch := Ok (js "feature/FLYF-228-login");
     w_staged := Ok []; w_unstaged := Ok [];
     w_fs := files; w_trace := [] |}.

Definition TAG : jstr := js "FLYF-228".

Definition app_py : jstr := js "def f():
    return 1".

Definition w_py : world := tree {[ js "app.py" := writable app_py ]}.

(** A file whose first line already carries a comment of the branch. *)
Definition w_tagged : world :=
  tree {[ js "a.js" := writable (js "// FLYF-228: done
f();") ]}.

Definition w_js : world := tree {[ js "a.js" := writable (js "f();") ]}.

(** Three files staged: one missing from the tree, one whose first added
    line already carries the comment, one that can be annotated. *)
Definition w_batch : world :=
  {| w_branch := Ok (js "feature/FLYF-228-login");
     w_staged := Ok (js "+++ b/gone.js
@@ -0,0 +1,1 @@
+x
+++ b/a.js
@@ -1,1 +1,2 @@
+// FLYF-228: done
 f();
+++ b/b.js
@@ -1,1 +1,2 @@
 f();
+g();
");
     w_unstaged := Ok [];
     w_fs := {[ js "a.js" := writable (js "// FLYF-228: done
f();");
                js "b.js" := writable (js "f();
g();") ]};
     w_trace := [] |}.

Definition staged_request : AddCommentsInput :=
  {| comment := js "note"; source := None; filePath := None;
     lineNumber := None |}.

(** A comment of two lines. *)
Definition two_lines : jstr := js "first
second".

End Samples.

(** ** More sample worlds *)

Module MoreSamples.

Definition read_only (text : jstr) : file :=
  {| f_content := text; f_writable := false |}.

(** A tree with a file that cannot be written and one that can. *)
Definition w_locked : world :=
  Samples.tree {[ js "locked.js" := read_only (js "f();");
                  js "b.js" := Samples.writable (js "g();") ]}.

(** A world whose backend fails to give the staged diff. *)
Definition w_no_diff : world :=
  {| w_branch := Ok (js "feature/FLYF-228-login");
     w_staged := Throw (js "fatal: not a git repository");
     w_unstaged := Ok [];
     w_fs := {[ js "b.js" := Samples.writable (js "g();") ]};
     w_trace := [] |}.

End MoreSamples.

(** ** Vocabulary for hunks *)

Module Hunk.

(** A line of a hunk body: neither a file header nor a hunk header. *)
Definition hunk_line (line : jstr) : bool :=
  negb (startsWith line (js "+++ b/")) && negb (startsWith line (js "@@")).

(** The count of a hunk range as git prints it: absent, or a comma and the
    number. *)
Definition count_text (count : option Z) : jstr :=
  match count with
  | Some n => js "," ++ num n
  | None => []
  end.

(** A hunk header as git prints it. *)
Definition hunk_header_text (old_start : Z) (old_count : option Z)
    (new_start : Z) (new_count : option Z) (section_text : jstr) : jstr :=
  js "@@ -" ++ num old_start ++ count_text old_count
  ++ js " +" ++ num new_start ++ count_text new_count
  ++ js " @@" ++ section_text.

(** A line that moves the cursor of a state with a current file: it starts
    neither with ['-'] nor with ["@@"]. *)
Definition advances (line : jstr) : bool :=
  negb (startsWith line (js "-")) && negb (startsWith line (js "@@")).

Definition advance_count (lines : list jstr) : nat :=
  length (List.filter advances lines).

(** The cursor after [k] increments. *)
Definition advanced (c : Z) (k : nat) : Z := Nat.iter k incr c.

(** A line that is neither a file header nor a valid hunk header: what
    lies between a header and the next one. *)
Definition between_line (line : jstr) : bool :=
  negb (startsWith line (js "+++ b/"))
  && (negb (startsWith line (js "@@"))
      || match hunk_start line with Some _ => false | None => true end).

(** The lines of a hunk body in the unified format: a context line, a
    removed line, or an added line (one that the locator does not take for a
    file header). *)
Definition body_line (line : jstr) : bool :=
  startsWith line (js " ") || startsWith line (js "-")
  || (startsWith line (js "+") && negb (startsWith line (js "+++ b/"))).

(** Among them, the lines of the file after the change. *)
Definition new_side (line : jstr) : bool :=
  startsWith line (js " ") || startsWith line (js "+").

(** The 1-based post-change line number of the body line at index [i] of a
    hunk whose header declares the new-start [c]. *)
Definition post_change_number (c : Z) (body : list jstr) (i : nat) : Z :=
  c + Z.of_nat (length (List.filter new_side (take i body))).

(** The path of the last file header among the lines. *)
Definition last_header (lines : list jstr) : option jstr :=
  last (headers lines).

(** Every new-start a hunk header of the lines gives, and the number of
    lines added to it, stays within the integers that are exact. *)
Definition in_exact_range (lines : list jstr) : bool :=
  (Z.of_nat (length lines) <=? MAX_SAFE_INTEGER)
  && forallb (fun line =>
                if startsWith line (js "@@") then
                  match hunk_start line with
                  | Some n => n + Z.of_nat (length lines) <=? MAX_SAFE_INTEGER
                  | None => true
                  end
                else true) lines.

(** The text left does not start with a character of the class. *)
Definition stops (p : N -> bool) (t : jstr) : Prop :=
  match t with
  | [] => True
  | d :: _ => p d = false
  end.

End Hunk.
Import Hunk.

(** ** [src/utils/branchParser.ts], the validator *)

Module Validator.

(** [BRANCH_CODE_REGEX.test(code)] *)
Definition isValidBranchCode (code : jstr) : bool :=
  test BRANCH_CODE_REGEX code.

End Validator.
Import Validator.

(** ** [src/tools/generateCommit.ts] *)

Module GenerateCommit.

(** [s.includes(sub)] *)
Fixpoint includes (s sub : jstr) : bool :=
  startsWith s sub
  || match s with
     | [] => false
     | _ :: s' => includes s' sub
     end.

(** [s.endsWith(suffix)] *)
Definition endsWith (s suffix : jstr) : bool :=
  startsWith (rev s) (rev suffix).

(** [items.join(sep)] *)
Fixpoint join (sep : jstr) (items : list jstr) : jstr :=
  match items with
  | [] => []
  | [l] => l
  | l :: ls => l ++ sep ++ join sep ls
  end.

(** [toLowerCase] on the letters [A] to [Z]; the tool's functions take the
    conversion as an argument, this one serves the examples. *)
Definition ascii_lower (s : jstr) : jstr :=
  (fun c => if is_upper c then (c + 32)%N else c) <$> s.

(** An entry of [StagedChanges.summary]; the counts are the integers read
    from [git diff --numstat]. *)
Record GitChange : Type := {
  c_file : jstr;
  additions : Z;
  deletions : Z;
  changes : Z
}.

Record StagedChanges : Type := {
  sc_files : list jstr;
  sc_diff : jstr;
  sc_summary : list GitChange
}.

(** Each flag is [undefined], [true] or [false]. *)
Record GenerateCommitInput : Type := {
  includeIssues : option bool;
  includeLimitations : option bool;
  includeComments : option bool
}.

Record GenerateCommitResult : Type := {
  gc_success : bool;
  commitMessage : option jstr;
  gc_branchCode : option jstr;
  gc_error : option jstr
}.

(** A removed line of a hunk: it starts with ['-'] and not with ["---"]. *)
Definition is_removal (line : jstr) : bool :=
  startsWith line (js "-") && negb (startsWith line (js "---")).

Section Lowercase.

Variable toLowerCase : jstr -> jstr.

Definition generateSummary (diff : jstr) (fileNames : list jstr) : jstr :=
  let lines := split_nl diff in
  let addedLines := List.filter is_addition lines in
  let removedLines := List.filter is_removal lines in
  if existsb (fun f => includes f (js "test")) fileNames then js "added tests"
  else if (length removedLines * 2 <? length addedLines)%nat
  then js "added new features"
  else if (length addedLines * 2 <? length removedLines)%nat
  then js "removed code"
  else
    let addedContent := toLowerCase (join (js " ") addedLines) in
    if includes addedContent (js "function")
       || includes addedContent (js "const")
       || includes addedContent (js "let")
    then js "implemented functionality"
    else if includes addedContent (js "fix") || includes addedContent (js "bug")
    then js "fixed bugs"
    else if includes addedContent (js "refactor") then js "refactored code"
    else if includes addedContent (js "update") then js "updated implementation"
    else if (length fileNames =? 1)%nat then js "updated file"
    else js "updated multiple files".

End Lowercase.

(** The phrases [generateSummary] returns. *)
Definition summary_phrases : list jstr :=
  [js "added tests"; js "added new features"; js "removed code";
   js "implemented functionality"; js "fixed bugs"; js "refactored code";
   js "updated implementation"; js "updated file"; js "updated multiple files"].

(** The lines the loop over the summary pushes for one entry. *)
Definition change_issues (change : GitChange) : list jstr :=
  (if additions change >? 0
   then [js "Added " ++ num (additions change) ++ js " line(s) in " ++ c_file change]
   else [])
  ++ (if deletions change >? 0
      then [js "Removed " ++ num (deletions change) ++ js " line(s) from "
            ++ c_file change]
      else []).

Definition generateIssuesAddressed (diff : jstr) (summary : list GitChange)
    : list jstr :=
  let issues := concat (change_issues <$> summary) in
  let lines := split_nl diff in
  let addedLines := List.filter is_addition lines in
  let issues :=
    if existsb (fun line => includes line (js "TODO") || includes line (js "FIXME"))
         addedLines
    then issues ++ [js "Added TODO/FIXME markers for future work"]
    else issues in
  let issues :=
    if existsb (fun line => includes line (js "test") || includes line (js "spec"))
         addedLines
    then issues ++ [js "Added test coverage"]
    else issues in
  take 3 issues.

Definition generateLimitations (summary : list GitChange) : list jstr :=
  let hasTests :=
    existsb (fun s => includes (c_file s) (js "test") || includes (c_file s) (js "spec"))
      summary in
  let limitations :=
    if negb hasTests then [js "No test coverage included"] else [] in
  let hasDocumentation :=
    existsb (fun s => endsWith (c_file s) (js ".md")
                      || includes (c_file s) (js "README")
                      || includes (c_file s) (js "doc"))
      summary in
  let limitations :=
    if negb hasDocumentation then limitations ++ [js "Documentation not updated"]
    else limitations in
  let limitations :=
    if (length limitations =? 0)%nat
    then limitations ++ [js "May require additional testing"]
    else limitations in
  take 2 limitations.

Definition generateComments (summary : list GitChange) : list jstr :=
  let totalChanges := fold_left (fun sum s => sum + changes s) summary 0 in
  let comments :=
    if totalChanges >? 100
    then [js "Large changeset - consider breaking into smaller commits"]
    else if totalChanges <? 5 then [js "Minor changes made"]
    else [] in
  let comments :=
    if (5 <? length summary)%nat
    then comments ++ [js "Modified " ++ num (Z.of_nat (length summary))
                      ++ js " files - review carefully"]
    else comments in
  let comments :=
    if (length comments =? 0)%nat
    then comments ++ [js "Review changes before merging"]
    else comments in
  take 2 comments.

(** [input.flag !== false] *)
Definition unless_false (flag : option bool) : bool :=
  match flag with
  | Some false => false
  | _ => true
  end.

(** [e || d] on an optional string. *)
Definition or_else (e : option jstr) (d : jstr) : jstr :=
  match e with
  | Some s => if truthy s then s else d
  | None => d
  end.

(** The lines a [forEach] appends for the items of a section. *)
Definition bullets (items : list jstr) : jstr :=
  concat ((fun item => NL :: js "- " ++ item) <$> items).

Definition commit_failure (err : jstr) : GenerateCommitResult :=
  {| gc_success := false; commitMessage := None; gc_branchCode := None;
     gc_error := Some err |}.

(** [generateCommit] as a function of what its two awaited calls settle to:
    [getCurrentBranch()] and [getStagedChanges()]. *)
Definition generateCommit (toLowerCase : jstr -> jstr)
    (input : GenerateCommitInput)
    (branch : outcome jstr) (staged : outcome StagedChanges)
    : GenerateCommitResult :=
  match branch with
  | Throw msg => commit_failure msg
  | Ok branchName =>
      let branchResult := extractBranchCode branchName in
      let invalid :=
        commit_failure (or_else (error branchResult) (js "Invalid branch code")) in
      match isValid branchResult, branchCode branchResult with
      | true, Some code =>
          if truthy code then
            match staged with
            | Throw msg => commit_failure msg
            | Ok stagedChanges =>
                if (length (sc_files stagedChanges) =? 0)%nat then
                  commit_failure
                    (js "No staged changes found. Stage your changes first using git add.")
                else
                  let summary :=
                    generateSummary toLowerCase (sc_diff stagedChanges)
                      (sc_files stagedChanges) in
                  let summary :=
                    if (30 <? length summary)%nat
                    then take 27 summary ++ js "..."
                    else summary in
                  let message := code ++ js ": " ++ summary in
                  let message :=
                    if unless_false (includeIssues input)
                    then message ++ NL :: NL :: js "Issues Addressed:"
                         ++ bullets (generateIssuesAddressed (sc_diff stagedChanges)
                                       (sc_summary stagedChanges))
                    else message in
                  let message :=
                    if unless_false (includeLimitations input)
                    then message ++ NL :: NL :: js "Limitations:"
                         ++ bullets (generateLimitations (sc_summary stagedChanges))
                    else message in
                  let message :=
                    if unless_false (includeComments input)
                    then message ++ NL :: NL :: js "Comments:"
                         ++ bullets (generateComments (sc_summary stagedChanges))
                    else message in
                  {| gc_success := true; commitMessage := Some message;
                     gc_branchCode := Some code; gc_error := None |}
            end
          else invalid
      | _, _ => invalid
      end
  end.

End GenerateCommit.
Import GenerateCommit.

(** ** [src/tools/workLog.ts] *)

Module WorkLog.

Record CommitInfo : Type := {
  ci_message : jstr;
  ci_date : jstr;
  author_name : jstr;
  author_email : jstr
}.

Record Categories : Type := {
  features : list jstr;
  fixes : list jstr;
  refactors : list jstr;
  others : list jstr
}.

(** [commit.message.split("\n")[0]] *)
Definition first_line (message : jstr) : jstr := hd [] (split_nl message).

Section Lowercase.

Variable toLowerCase : jstr -> jstr.

Definition is_feature (commit : CommitInfo) : bool :=
  let message := toLowerCase (ci_message commit) in
  includes message (js "feat") || includes message (js "add")
  || includes message (js "implement").

Definition is_fix (commit : CommitInfo) : bool :=
  let message := toLowerCase (ci_message commit) in
  includes message (js "fix") || includes message (js "bug")
  || includes message (js "resolve").

Definition is_refactor (commit : CommitInfo) : bool :=
  let message := toLowerCase (ci_message commit) in
  includes message (js "refactor") || includes message (js "restructure")
  || includes message (js "improve").

(** The body of the loop over the commits. *)
Definition categorize (categories : Categories) (commit : CommitInfo)
    : Categories :=
  let line := first_line (ci_message commit) in
  if is_feature commit then
    {| features := features categories ++ [line]; fixes := fixes categories;
       refactors := refactors categories; others := others categories |}
  else if is_fix commit then
    {| features := features categories; fixes := fixes categories ++ [line];
       refactors := refactors categories; others := others categories |}
  else if is_refactor commit then
    {| features := features categories; fixes := fixes categories;
       refactors := refactors categories ++ [line]; others := others categories |}
  else
    {| features := features categories; fixes := fixes categories;
       refactors := refactors categories; others := others categories ++ [line] |}.

Definition categorizeCommits (commits : list CommitInfo) : Categories :=
  fold_left categorize commits
    {| features := []; fixes := []; refactors := []; others := [] |}.

(** The first lines of the commits a test selects. *)
Definition lines_of (select : CommitInfo -> bool) (commits : list CommitInfo)
    : list jstr :=
  (fun c => first_line (ci_message c)) <$> List.filter select commits.

(** The categories below the first, as tests on a commit: each excludes
    the ones before it. *)
Definition only_fix (commit : CommitInfo) : bool :=
  negb (is_feature commit) && is_fix commit.

Definition only_refactor (commit : CommitInfo) : bool :=
  negb (is_feature commit) && negb (is_fix commit)
  && is_refactor commit.

Definition other (commit : CommitInfo) : bool :=
  negb (is_feature commit) && negb (is_fix commit)
  && negb (is_refactor commit).

End Lowercase.

(** [generatePendingWork] as a function of what [getStagedFiles()] settles
    to. *)
Definition generatePendingWork (stagedFiles : outcome (list jstr)) : list jstr :=
  match stagedFiles with
  | Ok files =>
      if (length files =? 0)%nat then [js "No pending changes"]
      else [num (Z.of_nat (length files)) ++ js " file(s) staged but not committed";
            js "Review and commit staged changes"]
  | Throw _ => []
  end.

Record WorkLogResult : Type := {
  wl_success : bool;
  workLog : option jstr;
  wl_date : option jstr;
  wl_branchCode : option jstr;
  wl_error : option jstr
}.

(** A titled section of the log, left out when it has no entry. *)
Definition titled (title : jstr) (items : list jstr) : jstr :=
  if (0 <? length items)%nat
  then NL :: title ++ [NL] ++ concat ((fun msg => js "- " ++ msg ++ [NL]) <$> items)
  else [].

(** [generateWorkLog] as a function of the date text [formatDate] gives and
    of what the awaited calls settle to: [getCurrentBranch()],
    [getCommitsByDate(date)] and [getStagedFiles()]. *)
Definition generateWorkLog (toLowerCase : jstr -> jstr) (dateStr : jstr)
    (branch : outcome jstr) (commitsOf : outcome (list CommitInfo))
    (stagedFiles : outcome (list jstr)) : WorkLogResult :=
  let caught msg :=
    {| wl_success := false; workLog := None; wl_date := None;
       wl_branchCode := None; wl_error := Some msg |} in
  match branch with
  | Throw msg => caught msg
  | Ok branchName =>
      let branchResult := extractBranchCode branchName in
      let code :=
        match isValid branchResult, branchCode branchResult with
        | true, Some c => if truthy c then c else js "N/A"
        | _, _ => js "N/A"
        end in
      match commitsOf with
      | Throw msg => caught msg
      | Ok commits =>
          if (length commits =? 0)%nat then
            {| wl_success := true;
               workLog :=
                 Some (js "Date: " ++ dateStr ++ [NL] ++ js "Branch: " ++ code
                       ++ [NL; NL] ++ js "Work Log:" ++ [NL]
                       ++ js "- No commits found for this date" ++ [NL; NL]
                       ++ js "Pending:" ++ [NL]
                       ++ js "- Check for uncommitted changes");
               wl_date := Some dateStr; wl_branchCode := Some code;
               wl_error := None |}
          else
            let categories := categorizeCommits toLowerCase commits in
            let count := num (Z.of_nat (length commits)) in
            let text :=
              js "Date: " ++ dateStr ++ [NL]
              ++ js "Branch: " ++ code ++ [NL]
              ++ js "Commits: " ++ count ++ [NL]
              ++ NL :: js "Work Log:" ++ [NL]
              ++ titled (js "Features:") (features categories)
              ++ titled (js "Bug Fixes:") (fixes categories)
              ++ titled (js "Refactoring:") (refactors categories)
              ++ titled (js "Other Changes:") (others categories)
              ++ NL :: js "Pending:" ++ [NL]
              ++ concat ((fun item => js "- " ++ item ++ [NL])
                           <$> generatePendingWork stagedFiles)
              ++ NL :: js "Summary:" ++ [NL]
              ++ js "- Total commits: " ++ count ++ [NL]
              ++ js "- Files modified: Check git log for details" ++ [NL]
              ++ js "- Branch: " ++ branchName ++ [NL] in
            {| wl_success := true; workLog := Some text;
               wl_date := Some dateStr; wl_branchCode := Some code;
               wl_error := None |}
      end
  end.

End WorkLog.
Import WorkLog.

(** ** Sample inputs of the generators *)

Module CommitSamples.

Definition all_sections : GenerateCommitInput :=
  {| includeIssues := None; includeLimitations := None; includeComments := None |}.

Definition staged_app : StagedChanges :=
  {| sc_files := [js "src/app.js"];
     sc_diff := js "+++ b/src/app.js
@@ -1,1 +1,3 @@
 f();
+// TODO: g
+g();";
     sc_summary :=
       [{| c_file := js "src/app.js"; additions := 2; deletions := 0;
           changes := 2 |}] |}.

(** Two files, the first with additions and removals. *)
Definition two_changes : list GitChange :=
  [{| c_file := js "a.js"; additions := 4; deletions := 1; changes := 5 |};
   {| c_file := js "b.js"; additions := 2; deletions := 0; changes := 2 |}].

Definition commit (message : jstr) : CommitInfo :=
  {| ci_message := message; ci_date := js "2024-05-01";
     author_name := js "dev"; author_email := js "dev@example.com" |}.

Definition day : list CommitInfo :=
  [commit (js "Fix login bug"); commit (js "Add feature flag, fix typo");
   commit (js "docs"); commit (js "Improve parser
and more")].

End CommitSamples.

(** * Properties *)

(** ** The matcher *)

Section RegexTheory.

Implicit Types (r : re) (st : pos) (c : caps).

Lemma matches_wf r st st' :
  matches r st st' ->
  exists m, snd st = m ++ snd st' /\ fst st' = (fst st + length m)%nat.
Proof.
  induction 1 as [st|s|p i x s Hp|r1 r2 st st1 st2 _ [m1 [E1 F1]] _ [m2 [E2 F2]]
                 |r st|r st st1 _ IH|r st
                 |r st st1 st2 _ [m1 [E1 F1]] _ _ [m2 [E2 F2]]|n r st st1 _ IH];
    simpl in *.
  - exists []. split; [done | simpl; lia].
  - exists []. split; [done | simpl; lia].
  - exists [x]. split; [done | simpl; lia].
  - exists (m1 ++ m2). rewrite E1, E2, F2, F1, length_app, <- app_assoc.
    split; [done | lia].
  - exists []. split; [done | simpl; lia].
  - exact IH.
  - exists []. split; [done | simpl; lia].
  - exists (m1 ++ m2). rewrite E1, E2, F2, F1, length_app, <- app_assoc.
    split; [done | lia].
  - exact IH.
Qed.

Lemma matches_no_progress r st st' :
  matches r st st' -> progress st' st = false -> st' = st.
Proof.
  intros H Hp. destruct (matches_wf _ _ _ H) as [m [E F]].
  unfold progress in Hp. apply Nat.ltb_ge in Hp.
  rewrite E, length_app in Hp.
  destruct m as [|x m]; [|simpl in Hp; lia].
  destruct st, st'; simpl in *. f_equal; [lia | done].
Qed.

(** Every success of the matcher is a success of its continuation at a state
    the pattern reaches. *)
Lemma star_loop_sound {R} (body : pos -> caps -> (pos -> caps -> option R) -> option R)
    r (k : pos -> caps -> option R) :
  (forall st c k' x, body st c k' = Some x ->
     exists st' c', matches r st st' /\ k' st' c' = Some x) ->
  forall fuel st c x, star_loop body k fuel st c = Some x ->
    exists st' c', matches (Star r) st st' /\ k st' c' = Some x.
Proof.
  intros Hb. induction fuel as [|fuel IH]; intros st c x; simpl.
  - intros Hk. exists st, c. split; [constructor | done].
  - destruct (body st c _) as [y|] eqn:Eb.
    + intros [= ->]. apply Hb in Eb as (st1 & c1 & Hm & Hk).
      destruct (progress st1 st) eqn:Hp; [|done].
      apply IH in Hk as (st2 & c2 & Hm2 & Hk2).
      exists st2, c2. split; [|done]. by eapply m_star_cons.
    + intros Hk. exists st, c. split; [constructor | done].
Qed.

Lemma run_sound {R} r : forall st c (k : pos -> caps -> option R) x,
  run r st c k = Some x ->
  exists st' c', matches r st st' /\ k st' c' = Some x.
Proof.
  induction r as [| |p|r1 IH1 r2 IH2|r IH|r IH|n r IH]; intros st c k x; simpl.
  - intros Hk. exists st, c. split; [constructor | done].
  - destruct st as [i s]; simpl. destruct i; [|done].
    intros Hk. exists (O, s), c. split; [constructor | done].
  - destruct st as [i s]; simpl. destruct s as [|y s]; [done|].
    destruct (p y) eqn:Hp; [|done].
    intros Hk. exists (S i, s), c. split; [by constructor | done].
  - intros H. apply IH1 in H as (st1 & c1 & Hm1 & H).
    apply IH2 in H as (st2 & c2 & Hm2 & H).
    exists st2, c2. split; [by econstructor | done].
  - destruct (run r st c _) as [y|] eqn:Er.
    + intros [= ->]. apply IH in Er as (st1 & c1 & Hm & Hk).
      destruct (progress st1 st); [|done].
      exists st1, c1. split; [by apply m_opt_some | done].
    + intros Hk. exists st, c. split; [constructor | done].
  - apply star_loop_sound. intros st0 c0 k' y. apply IH.
  - intros H. apply IH in H as (st1 & c1 & Hm & Hk).
    eexists _, _. split; [by apply m_grp | done].
Qed.

(** The matcher finds a success whenever the pattern reaches a state at
    which the continuation succeeds. *)
Lemma star_loop_complete {R} r :
  (forall st st', matches r st st' ->
     forall c (k : pos -> caps -> option R),
       (forall c', is_Some (k st' c')) -> is_Some (run r st c k)) ->
  forall st st', matches (Star r) st st' ->
  forall fuel c (k : pos -> caps -> option R),
    (length (snd st) <= fuel)%nat ->
    (forall c', is_Some (k st' c')) ->
    is_Some (star_loop (run r) k fuel st c).
Proof.
  intros Hr st st' Hm. remember (Star r) as sr eqn:Esr.
  induction Hm as [| | | | | | r0 st
                  |r0 st st1 st2 Hm1 _ Hp Hm2 IH2|]; try discriminate.
  - intros fuel c k _ Hk. destruct fuel; simpl; [done|].
    destruct (run r st c _); [done | apply Hk].
  - injection Esr as ->. intros fuel c k Hf Hk.
    specialize (IH2 eq_refl).
    assert (Hlt : (length (snd st1) < length (snd st))%nat)
      by (by apply Nat.ltb_lt).
    destruct fuel as [|fuel]; [lia|]. simpl.
    destruct (run r st c _) as [y|] eqn:Er; [done|].
    exfalso.
    assert (Hs : is_Some (run r st c
              (fun st1' c1 => if progress st1' st
                              then star_loop (run r) k fuel st1' c1 else None))).
    { apply (Hr _ _ Hm1). intros c'. rewrite Hp. apply IH2; [lia | done]. }
    rewrite Er in Hs. by destruct Hs.
Qed.

Lemma run_complete {R} r : forall st st', matches r st st' ->
  forall c (k : pos -> caps -> option R),
    (forall c', is_Some (k st' c')) -> is_Some (run r st c k).
Proof.
  induction r as [| |p|r1 IH1 r2 IH2|r IH|r IH|n r IH];
    intros st st' Hm c k Hk.
  - inversion Hm; subst. apply Hk.
  - inversion Hm; subst. apply Hk.
  - inversion Hm; subst. simpl. rewrite H0. apply Hk.
  - inversion Hm; subst. simpl.
    eapply IH1; [eassumption|]. intros c'. by eapply IH2.
  - simpl. destruct (run r st c _) as [y|] eqn:Er; [done|].
    inversion Hm; subst; [apply Hk|].
    destruct (progress st' st) eqn:Hp.
    + exfalso.
      assert (Hs : is_Some (run r st c
                (fun st1 c1 => if progress st1 st then k st1 c1 else None))).
      { eapply IH; [eassumption|]. intros c'. rewrite Hp. apply Hk. }
      rewrite Er in Hs. by destruct Hs.
    + rewrite <- (matches_no_progress _ _ _ H0 Hp). apply Hk.
  - simpl. eapply star_loop_complete; eauto.
  - inversion Hm; subst. simpl. eapply IH; [eassumption|].
    intros c'. apply Hk.
Qed.

End RegexTheory.

Ltac case_run st c E :=
  match goal with
  | |- context [run ?r ?p ?cs ?k] =>
      destruct (run r p cs k) as [[st c]|] eqn:E
  end.

Section SearchTheory.

Implicit Types (r : re) (s : jstr).

Lemma run_found r i s st c :
  run r (i, s) [] (fun st c => Some (st, c)) = Some (st, c) ->
  exists rest,
    s = take (fst st - i) s ++ rest
    /\ matches r (i, take (fst st - i) s ++ rest)
                 ((i + length (take (fst st - i) s))%nat, rest).
Proof.
  intros Er. apply run_sound in Er as (st' & c' & Hm & [= -> ->]).
  destruct (matches_wf _ _ _ Hm) as (mm & E & F); simpl in *.
  exists (snd st). rewrite F.
  replace (i + length mm - i)%nat with (length mm) by lia.
  rewrite E, take_app_length. split; [done|].
  destruct st as [j t]; simpl in *; subst. done.
Qed.

(** A match found by the search is a piece of the subject the pattern
    consumes. *)
Lemma search_sound r : forall s i m,
  search r i s = Some m ->
  exists before rest,
    s = before ++ m_text m ++ rest
    /\ m_index m = (i + length before)%nat
    /\ matches r (m_index m, m_text m ++ rest)
                 ((m_index m + length (m_text m))%nat, rest).
Proof.
  induction s as [|x s IH]; intros i m; simpl.
  - case_run st c Er; [|done].
    intros [= <-]; simpl.
    apply run_found in Er as (rest & E & Hm).
    exists [], rest. simpl. repeat split; [done | lia | done].
  - case_run st c Er.
    + intros [= <-]; simpl.
      apply run_found in Er as (rest & E & Hm).
      exists [], rest. simpl. repeat split; [done | lia | done].
    + intros Hs. apply IH in Hs as (before & rest & E & F & Hm).
      exists (x :: before), rest. simpl. rewrite E.
      repeat split; [lia | done].
Qed.

(** The search succeeds on any subject that holds a piece the pattern
    consumes. *)
Lemma search_complete r : forall before i t st',
  matches r ((i + length before)%nat, t) st' ->
  is_Some (search r i (before ++ t)).
Proof.
  induction before as [|x before IH]; intros i t st' Hm; simpl in *.
  - rewrite Nat.add_0_r in Hm.
    assert (Hs : is_Some (run r (i, t) [] (fun st c => Some (st, c))))
      by (eapply run_complete; [eassumption | by eexists]).
    destruct Hs as [[st c] Hs].
    destruct t; simpl; rewrite Hs; by eexists.
  - case_run st c Er; [by eexists|].
    apply (IH (S i) t st').
    by replace (S i + length before)%nat with (i + S (length before))%nat by lia.
Qed.

Lemma test_complete r before t st' :
  matches r (length before, t) st' -> test r (before ++ t) = true.
Proof.
  intros Hm. unfold test, exec.
  destruct (search_complete r before O t st' Hm) as [m ->]. done.
Qed.

Lemma matches_Lit l : forall i t,
  matches (Lit l) (i, l ++ t) ((i + length l)%nat, t).
Proof.
  induction l as [|x l IH]; intros i t; simpl.
  - rewrite Nat.add_0_r. constructor.
  - eapply m_seq; [apply m_chr, N.eqb_refl|].
    replace (i + S (length l))%nat with (S i + length l)%nat by lia. apply IH.
Qed.

Lemma matches_Lit_inv l : forall i t st',
  matches (Lit l) (i, t) st' ->
  t = l ++ snd st' /\ fst st' = (i + length l)%nat.
Proof.
  induction l as [|x l IH]; intros i t st' Hm; simpl in *.
  - inversion Hm; subst. simpl. split; [done | lia].
  - inversion Hm as [| | |r1 r2 st st1 st2 H1 H2| | | | |]; subst.
    inversion H1; subst. apply IH in H2 as [-> ->].
    match goal with H : (_ =? _)%N = true |- _ => apply N.eqb_eq in H as -> end.
    split; [done | lia].
Qed.

Lemma leading_app p s : s = leading p s ++ drop (length (leading p s)) s.
Proof.
  induction s as [|x s IH]; simpl; [done|].
  destruct (p x); simpl; [by rewrite <- IH | done].
Qed.

(** [r*] over a class is greedy: it takes the whole leading run when the
    continuation accepts that. *)
Lemma star_chr_greedy {R} p (k : pos -> caps -> option R) :
  forall fuel s i c,
    (length s <= fuel)%nat ->
    let n := length (leading p s) in
    is_Some (k ((i + n)%nat, drop n s) c) ->
    star_loop (run (Chr p)) k fuel (i, s) c = k ((i + n)%nat, drop n s) c.
Proof.
  induction fuel as [|fuel IH]; intros s i c Hf; simpl.
  - destruct s; [|simpl in Hf; lia]. simpl. by rewrite Nat.add_0_r.
  - destruct s as [|x s]; simpl; [by rewrite Nat.add_0_r|].
    destruct (p x) eqn:Hp; simpl; [|by rewrite Nat.add_0_r].
    unfold progress; simpl. rewrite (proj2 (Nat.ltb_lt _ _)) by lia.
    replace (i + S (length (leading p s)))%nat
      with (S i + length (leading p s))%nat by lia.
    intros Hk. rewrite IH by (simpl in Hf; first [lia | done]).
    by destruct Hk as [y ->].
Qed.

End SearchTheory.

(** ** Lines of a text *)

Section Lines.

Implicit Types (s a b : jstr) (ls : list jstr).

Lemma split_nl_nonempty s : split_nl s <> [].
Proof.
  destruct s as [|c s]; simpl; [done|].
  destruct (c =? NL)%N; [done|]. by destruct (split_nl s).
Qed.

Lemma split_nl_length s : (1 <= length (split_nl s))%nat.
Proof.
  pose proof (split_nl_nonempty s). destruct (split_nl s); simpl; [done | lia].
Qed.

Lemma join_split s : join_nl (split_nl s) = s.
Proof.
  induction s as [|c s IH]; simpl; [done|].
  destruct (c =? NL)%N eqn:Ec.
  - apply N.eqb_eq in Ec as ->.
    pose proof (split_nl_nonempty s).
    destruct (split_nl s) as [|l ls] eqn:E; [done|]. simpl in *. by rewrite IH.
  - pose proof (split_nl_nonempty s).
    destruct (split_nl s) as [|l ls] eqn:E; [done|].
    destruct ls; simpl in *; by rewrite <- IH.
Qed.

Lemma split_nl_prefix a b :
  has_nl a = false ->
  split_nl (a ++ b) = (a ++ hd [] (split_nl b)) :: tl (split_nl b).
Proof.
  induction a as [|c a IH]; intros Ha.
  - simpl. pose proof (split_nl_nonempty b). by destruct (split_nl b).
  - change (has_nl (c :: a)) with ((NL =? c)%N || has_nl a) in Ha.
    apply orb_false_iff in Ha as [Hc Ha]. rewrite N.eqb_sym in Hc.
    cbn [app split_nl]. rewrite Hc, IH by done. done.
Qed.

Lemma split_nl_plain a : has_nl a = false -> split_nl a = [a].
Proof.
  intros Ha. rewrite <- (app_nil_r a) at 1.
  rewrite split_nl_prefix by done. simpl. by rewrite app_nil_r.
Qed.

Lemma split_nl_app_nl a b :
  split_nl (a ++ NL :: b) = split_nl a ++ split_nl b.
Proof.
  induction a as [|c a IH]; simpl; [done|].
  destruct (c =? NL)%N; [by rewrite IH|].
  rewrite IH. pose proof (split_nl_nonempty a). by destruct (split_nl a).
Qed.

Lemma split_join ls :
  ls <> [] -> split_nl (join_nl ls) = concat (List.map split_nl ls).
Proof.
  induction ls as [|l ls IH]; [done|]. intros _.
  destruct ls as [|l' ls]; simpl.
  - by rewrite app_nil_r.
  - rewrite split_nl_app_nl. f_equal. by apply IH.
Qed.

Lemma split_nl_lines s : Forall (fun l => has_nl l = false) (split_nl s).
Proof.
  induction s as [|c s IH]; cbn [split_nl].
  - by constructor.
  - destruct (c =? NL)%N eqn:Ec; [by constructor|].
    assert (Hc : has_nl [c] = false).
    { change (has_nl [c]) with ((NL =? c)%N || false).
      by rewrite N.eqb_sym, Ec. }
    destruct (split_nl s) as [|l ls]; [by repeat constructor|].
    inversion IH as [|? ? Hl Hls]; subst. constructor; [|done].
    change (has_nl (c :: l)) with ((NL =? c)%N || has_nl l).
    by rewrite N.eqb_sym, Ec, Hl.
Qed.

Lemma concat_split_plain ls :
  Forall (fun l => has_nl l = false) ls ->
  concat (List.map split_nl ls) = ls.
Proof.
  induction 1 as [|l ls Hl _ IH]; simpl; [done|].
  by rewrite split_nl_plain, IH.
Qed.

(** The lines of a file after [x] was spliced in at index [i] and the
    lines were joined: the old lines, with the lines of [x] at [i]. *)
Lemma split_join_splice s i x :
  split_nl (join_nl (splice_in (split_nl s) i x))
  = take i (split_nl s) ++ split_nl x ++ drop i (split_nl s).
Proof.
  unfold splice_in. rewrite split_join by (by destruct (take i (split_nl s))).
  rewrite map_app, concat_app. simpl.
  rewrite !concat_split_plain; [done | |].
  - apply Forall_drop, split_nl_lines.
  - apply Forall_take, split_nl_lines.
Qed.

Lemma has_nl_app a b : has_nl (a ++ b) = has_nl a || has_nl b.
Proof. apply existsb_app. Qed.

Lemma has_nl_leading p s : has_nl s = false -> has_nl (leading p s) = false.
Proof.
  induction s as [|c s IH]; [done|].
  change (has_nl (c :: s)) with ((NL =? c)%N || has_nl s).
  intros H. apply orb_false_iff in H as [Hc Hs]. cbn [leading].
  destruct (p c); [|done].
  change (has_nl (c :: leading p s)) with ((NL =? c)%N || has_nl (leading p s)).
  by rewrite Hc, IH.
Qed.

End Lines.

(** ** The patterns of the source *)

Ltac inv_matches :=
  repeat match goal with
         | H : matches (Seq _ _) _ _ |- _ => inversion H; subst; clear H
         | H : matches (Chr _) _ _ |- _ => inversion H; subst; clear H
         | H : matches Eps _ _ |- _ => inversion H; subst; clear H
         end.

Section Patterns.

Lemma search_unfold r i s :
  search r i s =
  match run r (i, s) [] (fun st c => Some (st, c)) with
  | Some (st, c) =>
      Some {| m_index := i; m_text := take (fst st - i) s; m_caps := c |}
  | None => match s with [] => None | _ :: s' => search r (S i) s' end
  end.
Proof. by destruct s. Qed.

(** The indentation is the leading whitespace run of the target line. *)
Lemma indent_of_leading line : indent_of line = leading is_space line.
Proof.
  unfold indent_of, exec. rewrite search_unfold.
  unfold INDENT, seqs. cbn [fold_right].
  change (run (Seq Bol (Seq (Grp 1 (Star (Chr is_space))) Eps)) (O, line) []
            (fun st c => Some (st, c)))
    with (star_loop (run (Chr is_space))
            (fun st1 c1 => Some (st1, (1%nat, take (fst st1 - 0) line) :: c1))
            (length line) (O, line) []).
  rewrite star_chr_greedy; [| lia | done].
  unfold group; simpl.
  rewrite Nat.sub_0_r. rewrite (leading_app is_space line) at 2.
  by rewrite take_app_length.
Qed.

Lemma is_branch_code_no_nl t : is_branch_code t = true -> has_nl t = false.
Proof.
  unfold is_branch_code.
  destruct t as [|f [|l [|y [|u [|h [|d1 [|d2 [|d3 [|? ?]]]]]]]]]; try done.
  unfold is_upper, is_digit. intros H.
  repeat match goal with
         | H : _ && _ = true |- _ => apply andb_prop in H as [? ?]
         | H : (_ =? _)%N = true |- _ => apply N.eqb_eq in H
         | H : (_ <=? _)%N = true |- _ => apply N.leb_le in H
         end.
  unfold has_nl, NL. cbn [existsb].
  repeat (apply orb_false_iff; split); try done; apply N.eqb_neq; lia.
Qed.

(** A line that starts with indentation and a comment formatted for a code
    carries a comment for that code. *)
Lemma hasExistingComment_formatted ws code rest :
  hasExistingComment (ws ++ formatComment code rest) code = true.
Proof.
  unfold hasExistingComment, formatComment.
  eapply (test_complete _ ws).
  unfold commentPattern, seqs; cbn [fold_right].
  change (js "// ") with (js "//" ++ js " ").
  rewrite <- app_assoc.
  eapply m_seq; [apply (matches_Lit (js "//"))|].
  eapply m_seq.
  { eapply m_star_cons; [by apply m_chr | | apply m_star_nil].
    unfold progress; simpl. apply Nat.ltb_lt. lia. }
  eapply m_seq; [apply matches_Lit|].
  eapply m_seq; [|apply m_eps].
  exact (matches_Lit (js ":") _ (js " " ++ rest)).
Qed.

(** What [extractBranchCode] extracts has the shape of a branch code. *)
Lemma BRANCH_CODE_REGEX_shape i t st' :
  matches BRANCH_CODE_REGEX (i, t) st' ->
  exists code, t = code ++ snd st' /\ fst st' = (i + length code)%nat
               /\ is_branch_code code = true.
Proof.
  intros Hm.
  cbv [BRANCH_CODE_REGEX seqs fold_right Rep Lit js list_ascii_of_string
       List.map] in Hm.
  inv_matches.
  repeat match goal with
         | H : (_ =? ?x)%N = true |- _ =>
             apply N.eqb_eq in H; cbv in H; subst x
         end.
  match goal with
  | |- context [?f :: ?l :: ?y :: ?u :: ?h :: ?d1 :: ?d2 :: ?d3 :: ?rest] =>
      exists [f; l; y; u; h; d1; d2; d3]
  end.
  cbn [snd fst app length is_branch_code].
  repeat split; [lia|].
  repeat match goal with H : _ = true |- _ => rewrite H; clear H end.
  done.
Qed.

End Patterns.

(** ** Single-file annotation *)

Section AddCommentToFile.

Implicit Types (w : world) (path comment tag : jstr) (n : Z).

(** The outcomes of [addCommentToFile], path by path. *)
Lemma addCommentToFile_run path n comment tag w :
  addCommentToFile path n comment tag w =
  let w1 := log (EvReadFile path) w in
  match w_fs w !! path with
  | None => (Ok false, w1)
  | Some f =>
      let lines := split_nl (f_content f) in
      if (n <? 1) || (n >? Z.of_nat (length lines)) then (Ok false, w1)
      else
        match lines !! Z.to_nat (n - 1) with
        | None => (Ok false, w1)
        | Some target =>
            if hasExistingComment target tag then (Ok false, w1)
            else
              let text := annotated lines (Z.to_nat (n - 1)) target comment tag in
              let w2 := log (EvWriteFile path text) w1 in
              if f_writable f
              then (Ok true, set_fs (<[path := {| f_content := text; f_writable := true |}]> (w_fs w)) w2)
              else (Ok false, w2)
        end
  end.
Proof.
  unfold addCommentToFile, try_catch, bind, readFile, writeFile, ret, throw, annotated.
  destruct (w_fs w !! path) as [f|] eqn:Ef; [|done]. simpl.
  destruct ((n <? 1) || (n >? Z.of_nat (length (split_nl (f_content f))))); [done|].
  destruct (split_nl (f_content f) !! Z.to_nat (n - 1)) as [target|]; [|done].
  destruct (hasExistingComment target tag); [done|].
  simpl. rewrite Ef. by destruct (f_writable f).
Qed.

(** A line number within the file names a line. *)
Lemma target_line (lines : list jstr) n :
  1 <= n <= Z.of_nat (length lines) ->
  (n <? 1) || (n >? Z.of_nat (length lines)) = false
  /\ exists target, lines !! Z.to_nat (n - 1) = Some target.
Proof.
  intros Hn. split.
  - apply orb_false_iff. rewrite Z.gtb_ltb. split; apply Z.ltb_ge; lia.
  - apply lookup_lt_is_Some_2. lia.
Qed.

(** Whenever [addCommentToFile] reports an insertion, the file existed, was
    writable, the line number named a line without a comment of the code,
    and the file now holds the annotated text. *)
Lemma addCommentToFile_applied path n comment tag w w' :
  addCommentToFile path n comment tag w = (Ok true, w') ->
  exists f target,
    w_fs w !! path = Some f
    /\ f_writable f = true
    /\ 1 <= n <= Z.of_nat (length (split_nl (f_content f)))
    /\ split_nl (f_content f) !! Z.to_nat (n - 1) = Some target
    /\ hasExistingComment target tag = false
    /\ content_of w' path =
         Some (annotated (split_nl (f_content f)) (Z.to_nat (n - 1)) target comment tag).
Proof.
  rewrite addCommentToFile_run. cbv zeta.
  destruct (w_fs w !! path) as [f|] eqn:Ef; [|done].
  destruct ((n <? 1) || (n >? _)) eqn:Hb; [done|].
  destruct (split_nl (f_content f) !! Z.to_nat (n - 1)) as [target|] eqn:Et; [|done].
  destruct (hasExistingComment target tag) eqn:Hd; [done|].
  destruct (f_writable f) eqn:Hw; [|done].
  intros [= <-]. exists f, target.
  apply orb_false_iff in Hb as [H1 H2].
  apply Z.ltb_ge in H1. rewrite Z.gtb_ltb in H2. apply Z.ltb_ge in H2.
  repeat split; try done.
  unfold content_of; simpl. by rewrite lookup_insert_eq.
Qed.

(** The line at the insertion point, once the annotated text is split into
    lines again, starts with the indentation and the formatted code. *)
Lemma annotated_target_line s i target comment tag :
  split_nl s !! i = Some target ->
  is_branch_code tag = true ->
  exists rest,
    split_nl (annotated (split_nl s) i target comment tag) !! i
    = Some (indent_of target ++ formatComment tag rest).
Proof.
  intros Ht Htag. unfold annotated. rewrite split_join_splice.
  assert (Hi : (i < length (split_nl s))%nat) by (by eapply lookup_lt_Some).
  assert (Hnl : has_nl (indent_of target ++ js "// " ++ tag ++ js ": ") = false).
  { rewrite !has_nl_app, indent_of_leading, has_nl_leading,
      (is_branch_code_no_nl tag); [done | done |].
    pose proof (split_nl_lines s) as Hall.
    rewrite Forall_lookup in Hall. by eapply Hall. }
  exists (hd [] (split_nl comment)).
  rewrite lookup_app_r by (rewrite length_take; lia).
  rewrite length_take. replace (i - i `min` length (split_nl s))%nat with O by lia.
  unfold formatComment.
  replace (indent_of target ++ js "// " ++ tag ++ js ": " ++ comment)
    with ((indent_of target ++ js "// " ++ tag ++ js ": ") ++ comment)
    by (by rewrite <- !app_assoc).
  rewrite split_nl_prefix by done. by rewrite <- !app_assoc.
Qed.

End AddCommentToFile.

(** ** Worked examples of the specification *)

(** Additions only: the added line lands at line 2 of the new file. *)
Example locate_additions_only :
  parseDiff (js "+++ b/a.js
@@ -1,2 +1,3 @@
 unchanged
+added line
 trailing")
  = [(js "a.js", [2])].
Proof. vm_compute. reflexivity. Qed.

(** Two files in a diff give two keys in that order, each with its own
    sequence. *)
Example locate_two_files :
  parseDiff (js "+++ b/a.js
@@ -1,1 +1,2 @@
 one
+two
+++ b/b.js
@@ -4,0 +5,2 @@
+five
+six
")
  = [(js "a.js", [2]); (js "b.js", [5; 6])].
Proof. vm_compute. reflexivity. Qed.

(** Empty and blank texts give the empty map. *)
Example locate_nothing :
  parseDiff [] = [] /\ parseDiff (js "

") = [].
Proof. split; vm_compute; reflexivity. Qed.

(** The forms of hunk header the pattern accepts and rejects. *)
Example hunk_header_forms :
  hunk_start (js "@@ -10,5 +12,6 @@ function f() {") = Some 12
  /\ hunk_start (js "@@ -0,0 +1 @@") = Some 1
  /\ hunk_start (js "@@ -3 +4,2 @@") = Some 4
  /\ hunk_start (js "@@ broken @@") = None
  /\ hunk_start (js "@@@ -1,2 -3,4 +5,6 @@@") = None.
Proof. repeat split; vm_compute; reflexivity. Qed.

(** The comment inserted above an indented line starts with the same four
    spaces. *)
Example indentation_preserved :
  indent_of (js "    return x;") = js "    "
  /\ annotated [js "f() {"; js "    return x;"; js "}"] 1 (js "    return x;")
       (js "why") (js "FLYF-228")
     = js "f() {
    // FLYF-228: why
    return x;
}".
Proof. split; vm_compute; reflexivity. Qed.

(** The duplicate test looks for the token, optional blanks, the code and
    a colon anywhere in the line. *)
Example duplicate_detection :
  hasExistingComment (js "  //FLYF-228: x") (js "FLYF-228") = true
  /\ hasExistingComment (js "f(); //   FLYF-228: x") (js "FLYF-228") = true
  /\ hasExistingComment (js "// FLYF-229: x") (js "FLYF-228") = false
  /\ hasExistingComment (js "// FLYF-228 x") (js "FLYF-228") = false.
Proof. repeat split; vm_compute; reflexivity. Qed.

(** [extractBranchCode] takes the first code of the name. *)
Example extract_first_code :
  branchCode (extractBranchCode (js "feature/FLYF-228-then-FLYZ-101"))
  = Some (js "FLYF-228")
  /\ isValid (extractBranchCode (js "main")) = false
  /\ error (extractBranchCode (js "   ")) = Some (js "Branch name is empty").
Proof. repeat split; vm_compute; reflexivity. Qed.

(** ** Idempotence, bounds and the inserted line *)

(** C1, as stated, fails: on a valid line that already carries a comment of
    the branch code the first call inserts nothing and reports no
    modification. *)
Lemma first_call_skips_tagged_line :
  content_of Samples.w_tagged (js "a.js") = Some (js "// FLYF-228: done
f();")
  /\ addCommentToFile (js "a.js") 1 (js "done") Samples.TAG Samples.w_tagged
     = (Ok false, log (EvReadFile (js "a.js")) Samples.w_tagged).
Proof. split; vm_compute; reflexivity. Qed.

(** C1 (amended): for a writable file, a line number within the file whose
    line carries no comment of the branch code, and any comment text, the
    first call to [addCommentToFile] inserts the comment and reports the file
    modified; a second call with the same arguments on the resulting world
    finds the duplicate at the target line, returns [false], performs no write
    and leaves the file system as the first call left it. Through
    [addCommentsWith] the file is listed in [filesModified] by the first
    call and not by the second. *)
Theorem addCommentToFile_idempotent path n comment tag w f target :
  w_fs w !! path = Some f ->
  f_writable f = true ->
  is_branch_code tag = true ->
  1 <= n <= Z.of_nat (length (split_nl (f_content f))) ->
  split_nl (f_content f) !! Z.to_nat (n - 1) = Some target ->
  hasExistingComment target tag = false ->
  exists w1 w2,
    addCommentToFile path n comment tag w = (Ok true, w1)
    /\ addCommentToFile path n comment tag w1 = (Ok false, w2)
    /\ content_of w1 path
       = Some (annotated (split_nl (f_content f)) (Z.to_nat (n - 1)) target comment tag)
    /\ w_fs w2 = w_fs w1
    /\ content_of w2 path = content_of w1 path
    /\ w_trace w2 = w_trace w1 ++ [EvReadFile path]
    /\ (truthy path = true ->
        exists r1 r2 w1' w2',
          addCommentsWith (file_request path comment n) tag w = (Ok r1, w1')
          /\ filesModified r1 = Some [path]
          /\ addCommentsWith (file_request path comment n) tag w1 = (Ok r2, w2')
          /\ filesModified r2 = Some []).
Proof.
  intros Hf Hw Htag Hn Ht Hd.
  destruct (target_line _ n Hn) as [Hb _].
  set (text := annotated (split_nl (f_content f)) (Z.to_nat (n - 1)) target comment tag).
  set (w1 := set_fs (<[path := {| f_content := text; f_writable := true |}]> (w_fs w))
               (log (EvWriteFile path text) (log (EvReadFile path) w))).
  assert (E1 : addCommentToFile path n comment tag w = (Ok true, w1)).
  { rewrite addCommentToFile_run. cbv zeta. by rewrite Hf, Hb, Ht, Hd, Hw. }
  assert (E2 : addCommentToFile path n comment tag w1
               = (Ok false, log (EvReadFile path) w1)).
  { rewrite addCommentToFile_run. cbv zeta.
    assert (Hf1 : w_fs w1 !! path = Some {| f_content := text; f_writable := true |})
      by (subst w1; simpl; apply lookup_insert_eq).
    rewrite Hf1. cbn [f_content f_writable].
    destruct (annotated_target_line (f_content f) (Z.to_nat (n - 1)) target
                comment tag Ht Htag) as [rest Hl].
    fold text in Hl.
    assert (Hlen : n <= Z.of_nat (length (split_nl text))).
    { apply lookup_lt_Some in Hl. lia. }
    destruct (target_line (split_nl text) n ltac:(lia)) as [Hb2 _].
    by rewrite Hb2, Hl, hasExistingComment_formatted. }
  exists w1, (log (EvReadFile path) w1).
  repeat split; try done.
  - subst w1. unfold content_of; simpl. by rewrite lookup_insert_eq.
  - intros Hp. unfold addCommentsWith, file_request, path_given, line_given.
    cbn [source filePath lineNumber Annotate.comment default from_option id].
    rewrite Hp. destruct (n =? 0) eqn:E; [apply Z.eqb_eq in E; lia|].
    unfold bind, ret. rewrite E1, E2. by eexists _, _, _, _.
Qed.

Lemma addCommentToFile_idempotent_witness :
  let w := Samples.w_js in
  let f := Samples.writable (js "f();") in
  (w_fs w !! js "a.js" = Some f
   /\ f_writable f = true
   /\ is_branch_code Samples.TAG = true
   /\ 1 <= 1 <= Z.of_nat (length (split_nl (f_content f)))
   /\ split_nl (f_content f) !! Z.to_nat (1 - 1) = Some (js "f();")
   /\ hasExistingComment (js "f();") Samples.TAG = false)
  /\ exists w1 w2,
       addCommentToFile (js "a.js") 1 (js "note") Samples.TAG w = (Ok true, w1)
       /\ addCommentToFile (js "a.js") 1 (js "note") Samples.TAG w1 = (Ok false, w2)
       /\ content_of w2 (js "a.js") = content_of w1 (js "a.js").
Proof.
  intros w f.
  assert (H1 : w_fs w !! js "a.js" = Some f) by (vm_compute; reflexivity).
  assert (H2 : f_writable f = true) by reflexivity.
  assert (H3 : is_branch_code Samples.TAG = true) by reflexivity.
  assert (H4 : 1 <= 1 <= Z.of_nat (length (split_nl (f_content f))))
    by (vm_compute; split; discriminate).
  assert (H5 : split_nl (f_content f) !! Z.to_nat (1 - 1) = Some (js "f();"))
    by reflexivity.
  assert (H6 : hasExistingComment (js "f();") Samples.TAG = false)
    by (vm_compute; reflexivity).
  split; [done|].
  destruct (addCommentToFile_idempotent (js "a.js") 1 (js "note") Samples.TAG
              w f (js "f();") H1 H2 H3 H4 H5 H6)
    as (w1 & w2 & E1 & E2 & _ & _ & E3 & _).
  by exists w1, w2.
Defined.




(** C6, as stated, fails: a comment text with a line break is inserted as it
    is, so the insertion is not one line; the file gains two lines. *)
Lemma newline_comment_spans_lines :
  exists w',
    addCommentToFile (js "a.js") 1 Samples.two_lines Samples.TAG Samples.w_js
    = (Ok true, w')
    /\ split_nl <$> content_of w' (js "a.js")
       = Some [js "// FLYF-228: first"; js "second"; js "f();"].
Proof. eexists. split; vm_compute; reflexivity. Qed.

(** C6 (amended): whenever [addCommentToFile] applies an insertion, the text
    inserted is exactly the leading whitespace run of the target line, then
    ["//"], a single space, the tag, [": "] and the comment text; it is
    spliced in at 0-based index [lineNumber - 1], immediately before the
    target line, and the lines of the file before and after it are the old
    lines, unchanged and in their order. The inserted text is one line, with
    no line break, when the comment text has none. *)
Theorem inserted_line_exact path n comment tag w w' :
  addCommentToFile path n comment tag w = (Ok true, w') ->
  exists f target text,
    let lines := split_nl (f_content f) in
    let i := Z.to_nat (n - 1) in
    let inserted := leading is_space target ++ js "// " ++ tag ++ js ": " ++ comment in
    w_fs w !! path = Some f
    /\ 1 <= n <= Z.of_nat (length lines)
    /\ lines !! i = Some target
    /\ content_of w' path = Some text
    /\ text = join_nl (take i lines ++ inserted :: drop i lines)
    /\ split_nl text = take i lines ++ split_nl inserted ++ drop i lines
    /\ (is_branch_code tag = true -> has_nl comment = false ->
        has_nl inserted = false
        /\ split_nl text = take i lines ++ inserted :: drop i lines
        /\ split_nl text !! i = Some inserted
        /\ split_nl text !! S i = Some target).
Proof.
  intros H. apply addCommentToFile_applied in H
    as (f & target & Hf & Hw & Hn & Ht & Hd & Hc).
  unfold annotated, formatComment, splice_in in Hc. rewrite indent_of_leading in Hc.
  exists f, target,
    (join_nl (take (Z.to_nat (n - 1)) (split_nl (f_content f))
              ++ (leading is_space target ++ js "// " ++ tag ++ js ": " ++ comment)
                 :: drop (Z.to_nat (n - 1)) (split_nl (f_content f)))).
  cbv zeta.
  set (lines := split_nl (f_content f)) in *.
  set (i := Z.to_nat (n - 1)) in *.
  set (inserted := leading is_space target ++ js "// " ++ tag ++ js ": " ++ comment) in *.
  assert (Hsplit : split_nl (join_nl (take i lines ++ inserted :: drop i lines))
                   = take i lines ++ split_nl inserted ++ drop i lines)
    by apply split_join_splice.
  assert (Hi : (i < length lines)%nat) by (by eapply lookup_lt_Some).
  split; [done|]. split; [done|]. split; [done|]. split; [exact Hc|].
  split; [done|]. split; [done|].
  intros Htag Hcomment.
  assert (Hnl : has_nl inserted = false).
  { subst inserted.
    rewrite !has_nl_app, has_nl_leading, (is_branch_code_no_nl tag), Hcomment;
      try done.
    pose proof (split_nl_lines (f_content f)) as Hall.
    rewrite Forall_lookup in Hall. by eapply Hall. }
  rewrite Hsplit, (split_nl_plain inserted Hnl).
  split; [done|]. split; [done|]. split.
  - rewrite lookup_app_r by (rewrite length_take; lia).
    rewrite length_take. by replace (i - i `min` length lines)%nat with O by lia.
  - rewrite lookup_app_r by (rewrite length_take; lia).
    rewrite length_take.
    replace (S i - i `min` length lines)%nat with 1%nat by lia.
    simpl. by rewrite lookup_drop, Nat.add_0_r.
Qed.

Lemma inserted_line_exact_witness :
  let w := Samples.w_py in
  let w' := snd (addCommentToFile (js "app.py") 2 (js "note") Samples.TAG w) in
  addCommentToFile (js "app.py") 2 (js "note") Samples.TAG w = (Ok true, w')
  /\ exists text,
       content_of w' (js "app.py") = Some text
       /\ split_nl text = [js "def f():"; js "    // FLYF-228: note"; js "    return 1"].
Proof.
  intros w w'.
  assert (H : addCommentToFile (js "app.py") 2 (js "note") Samples.TAG w = (Ok true, w'))
    by (vm_compute; reflexivity).
  split; [exact H|].
  destruct (inserted_line_exact _ _ _ _ _ _ H)
    as (f & target & text & Hf & _ & Ht & Hc & _ & _ & Hone).
  exists text. split; [exact Hc|].
  destruct (Hone eq_refl eq_refl) as (_ & Hs & _).
  vm_compute in Hf. injection Hf as <-.
  vm_compute in Ht. injection Ht as <-.
  rewrite Hs. vm_compute. reflexivity.
Defined.

(** C9: the comment token is the literal ["//"] whatever the path of the
    file: every insertion [addCommentToFile] performs, on a file of any name,
    writes the old lines with the line [indentation ++ "// " ++ tag ++ ": "
    ++ comment] spliced in at the target index. *)
Theorem comment_token_fixed path n comment tag w w' :
  addCommentToFile path n comment tag w = (Ok true, w') ->
  startsWith (formatComment tag comment) (js "// ") = true
  /\ exists f target,
       w_fs w !! path = Some f
       /\ split_nl (f_content f) !! Z.to_nat (n - 1) = Some target
       /\ content_of w' path
          = Some (join_nl (splice_in (split_nl (f_content f)) (Z.to_nat (n - 1))
                    (leading is_space target ++ js "// " ++ tag ++ js ": " ++ comment))).
Proof.
  intros H. split; [by vm_compute|].
  apply addCommentToFile_applied in H
    as (f & target & Hf & _ & _ & Ht & _ & Hc).
  exists f, target. repeat split; [done | done |].
  rewrite Hc. unfold annotated, formatComment. by rewrite indent_of_leading.
Qed.

(** The same call on a Python file: the line inserted above the indented
    [return] starts with four spaces and ["//"]. *)
Lemma comment_token_fixed_witness :
  let w := Samples.w_py in
  let w' := snd (addCommentToFile (js "app.py") 2 (js "note") Samples.TAG w) in
  addCommentToFile (js "app.py") 2 (js "note") Samples.TAG w = (Ok true, w')
  /\ content_of w' (js "app.py") = Some (js "def f():
    // FLYF-228: note
    return 1").
Proof.
  intros w w'.
  assert (H : addCommentToFile (js "app.py") 2 (js "note") Samples.TAG w = (Ok true, w'))
    by (vm_compute; reflexivity).
  split; [exact H|].
  destruct (comment_token_fixed _ _ _ _ _ _ H) as (_ & f & target & Hf & Ht & Hc).
  vm_compute in Hf. injection Hf as <-.
  vm_compute in Ht. injection Ht as <-.
  rewrite Hc. vm_compute. reflexivity.
Defined.

(** ** The diff locator *)

Section Step.

Implicit Types (st : scan) (line : jstr) (m : FileChanges).

Lemma map_get_set m k v : map_get (map_set m k v) k = Some v.
Proof.
  induction m as [|[k' v'] m IH]; simpl;
    repeat (case_decide; simpl); try done; congruence.
Qed.

Lemma map_get_set_ne m k k' v : k <> k' -> map_get (map_set m k v) k' = map_get m k'.
Proof.
  intros Hne. induction m as [|[k0 v0] m IH]; simpl;
    repeat (case_decide; simpl); try done; congruence.
Qed.

(** The first character of a line decides among the markers. *)
Lemma first_char line (c : N) (p : jstr) :
  startsWith line [c] = true -> hd c p <> c -> p <> [] ->
  startsWith line p = false.
Proof.
  destruct line as [|x line], p as [|y p]; try done.
  cbn [startsWith hd]. intros Hx Hy _.
  apply andb_prop in Hx as [Hx _]. apply N.eqb_eq in Hx as <-.
  apply andb_false_iff. left. by apply N.eqb_neq.
Qed.

Lemma startsWith_first line (c : N) (p : jstr) :
  startsWith line (c :: p) = true -> startsWith line [c] = true.
Proof.
  destruct line as [|x line]; cbn [startsWith]; [done|].
  intros H. by apply andb_prop in H as [-> _].
Qed.

Lemma minus_not_header line :
  startsWith line (js "-") = true ->
  startsWith line (js "+++ b/") = false /\ startsWith line (js "@@") = false
  /\ startsWith line (js "+") = false.
Proof.
  intros H. repeat split; by apply (first_char line 45%N).
Qed.

Lemma plus_not_hunk line :
  startsWith line (js "+") = true ->
  startsWith line (js "@@") = false /\ startsWith line (js "-") = false.
Proof.
  intros H. repeat split; by apply (first_char line 43%N).
Qed.

Lemma hunk_not_header line :
  startsWith line (js "@@") = true -> startsWith line (js "+++ b/") = false.
Proof.
  intros H. apply (first_char line 64%N); [|done..].
  by apply (startsWith_first line 64%N [64%N]).
Qed.

Lemma startsWith_app (p q : jstr) : forall line,
  startsWith line (p ++ q) = true -> startsWith line p = true.
Proof.
  induction p as [|a p IH]; intros [|b line]; cbn [startsWith app]; try done.
  intros H. apply andb_prop in H as [-> H]. simpl. by apply IH.
Qed.

Lemma not_triple_not_header line :
  startsWith line (js "+++") = false -> startsWith line (js "+++ b/") = false.
Proof.
  intros H. destruct (startsWith line (js "+++ b/")) eqn:E; [|done].
  apply (startsWith_app (js "+++") (js " b/")) in E. congruence.
Qed.

(** The three kinds of line of a hunk, for a state with a current file. *)
Lemma step_removal st f line :
  currentFile st = Some f -> startsWith line (js "-") = true ->
  step st line = st.
Proof.
  intros Hf H. destruct (minus_not_header line H) as (H1 & H2 & H3).
  unfold step. by rewrite H1, H2, H3, H, !andb_false_r.
Qed.

Lemma step_addition st f line :
  currentFile st = Some f -> truthy f = true ->
  startsWith line (js "+") = true -> startsWith line (js "+++") = false ->
  step st line =
  {| fileChanges :=
       map_set (fileChanges st) f
         (default [] (map_get (fileChanges st) f) ++ [currentLineNumber st]);
     currentFile := Some f;
     currentLineNumber := incr (currentLineNumber st) |}.
Proof.
  intros Hf Ht H1 H3. destruct (plus_not_hunk line H1) as (H2 & _).
  unfold step, file_set.
  by rewrite (not_triple_not_header line H3), H2, Hf, Ht, H1, H3.
Qed.

Lemma step_context st f line :
  currentFile st = Some f -> truthy f = true ->
  startsWith line (js "+++ b/") = false -> startsWith line (js "@@") = false ->
  startsWith line (js "-") = false ->
  startsWith line (js "+") = false \/ startsWith line (js "+++") = true ->
  step st line =
  {| fileChanges := fileChanges st;
     currentFile := Some f;
     currentLineNumber := incr (currentLineNumber st) |}.
Proof.
  intros Hf Ht H1 H2 H3 H4. unfold step, file_set.
  rewrite H1, H2, Hf, Ht, H3.
  destruct H4 as [-> | ->]; simpl; [done|].
  by rewrite andb_false_r.
Qed.

Lemma step_hunk st line n :
  startsWith line (js "@@") = true -> hunk_start line = Some n ->
  step st line =
  {| fileChanges := fileChanges st; currentFile := currentFile st;
     currentLineNumber := n |}.
Proof.
  intros H1 H2. unfold step. by rewrite (hunk_not_header line H1), H1, H2.
Qed.

Lemma step_bad_hunk st line :
  startsWith line (js "@@") = true -> hunk_start line = None ->
  step st line = st.
Proof.
  intros H1 H2. unfold step. by rewrite (hunk_not_header line H1), H1, H2.
Qed.

(** Without a current file (none yet, or an empty path) a line that is
    neither a file header nor a hunk header changes nothing. *)
Lemma step_without_file st line :
  file_set (currentFile st) = false ->
  startsWith line (js "+++ b/") = false -> startsWith line (js "@@") = false ->
  step st line = st.
Proof. intros Hf H1 H2. unfold step. by rewrite H1, H2, Hf. Qed.

Lemma step_header st line :
  startsWith line (js "+++ b/") = true ->
  step st line =
  {| fileChanges := map_set (fileChanges st) (substring line 6) [];
     currentFile := Some (substring line 6);
     currentLineNumber := currentLineNumber st |}.
Proof. intros H. unfold step. by rewrite H. Qed.

End Step.

(** C2, as stated, fails: the cursor is a number that a file header does not
    touch. The addition that follows the header of [b.js], with no hunk
    header in between, is recorded at 6, the value the hunk of [a.js] left. *)
Lemma stale_cursor_after_file_header :
  parseDiff (js "+++ b/a.js
@@ -1,1 +5,1 @@
+x
+++ b/b.js
+y")
  = [(js "a.js", [5]); (js "b.js", [6])].
Proof. vm_compute. reflexivity. Qed.

(** ** The shape of the map [parseDiff] returns *)

Section MapShape.

Implicit Types (st : scan) (line : jstr) (m : FileChanges) (lines : list jstr).

Lemma keys_map_set m k v :
  (map_set m k v).*1 = if decide (k ∈ m.*1) then m.*1 else m.*1 ++ [k].
Proof.
  induction m as [|[k' v'] m IH]; cbn [map_set fmap list_fmap fst].
  - destruct (decide (k ∈ [])) as [H|H]; [by apply elem_of_nil in H | done].
  - destruct (decide (k' = k)) as [->|Hne]; cbn [fmap list_fmap fst].
    + destruct (decide (k ∈ k :: m.*1)) as [H|H]; [done|].
      exfalso. apply H, elem_of_cons. by left.
    + rewrite IH.
      destruct (decide (k ∈ m.*1)) as [H|H],
               (decide (k ∈ k' :: m.*1)) as [H'|H']; try done.
      * exfalso. apply H', elem_of_cons. by right.
      * exfalso. apply elem_of_cons in H' as [->|?]; done.
Qed.

Lemma map_get_Some_key m k v : map_get m k = Some v -> k ∈ m.*1.
Proof.
  induction m as [|[k' v'] m IH]; simpl; [done|].
  case_decide; subst; intros Hget.
  - apply elem_of_cons; by left.
  - apply elem_of_cons; right; by apply IH.
Qed.

Lemma map_get_key m k : k ∈ m.*1 -> is_Some (map_get m k).
Proof.
  induction m as [|[k' v'] m IH]; simpl.
  - by intros ?%elem_of_nil.
  - intros [->|Hin]%elem_of_cons; case_decide; try done; by apply IH.
Qed.

Lemma map_get_entry m k v : NoDup m.*1 -> (k, v) ∈ m -> map_get m k = Some v.
Proof.
  induction m as [|[k' v'] m IH]; simpl; intros Hnd Hin.
  - by apply elem_of_nil in Hin.
  - apply NoDup_cons in Hnd as [Hk Hnd].
    apply elem_of_cons in Hin as [[= -> ->]|Hin].
    + by rewrite decide_True.
    + case_decide; subst.
      * exfalso. apply Hk. apply list_elem_of_fmap. by exists (k, v).
      * by apply IH.
Qed.

Lemma step_keys st line :
  current_is_key st ->
  (fileChanges (step st line)).*1
  = (if is_header line
     then if decide (substring line 6 ∈ (fileChanges st).*1)
          then (fileChanges st).*1
          else (fileChanges st).*1 ++ [substring line 6]
     else (fileChanges st).*1)
  /\ current_is_key (step st line).
Proof.
  intros Hc. unfold step, is_header, current_is_key.
  destruct (startsWith line (js "+++ b/")) eqn:Hh.
  - cbn [fileChanges currentFile]. rewrite keys_map_set. split; [done|].
    intros f [= <-]. case_decide; [done|].
    apply elem_of_app. right. apply list_elem_of_singleton. done.
  - destruct (startsWith line (js "@@")).
    { destruct (hunk_start line); (split; [done | exact Hc]). }
    destruct (file_set (currentFile st) && _ && _) eqn:Ha.
    + cbn [fileChanges currentFile].
      destruct (currentFile st) as [f|] eqn:Hf; [|done].
      cbn [default from_option id]. rewrite keys_map_set.
      destruct (decide (f ∈ (fileChanges st).*1)) as [Hin|Hnin];
        [|exfalso; by apply Hnin, Hc].
      split; [done|]. by intros ? [= <-].
    + destruct (file_set (currentFile st) && negb (startsWith line (js "-")));
        (split; [done | exact Hc]).
Qed.

Lemma headers_cons line lines :
  headers (line :: lines)
  = if is_header line then substring line 6 :: headers lines else headers lines.
Proof.
  unfold headers. rewrite filter_cons.
  destruct (is_header line); [rewrite decide_True by done | rewrite decide_False by done];
    done.
Qed.

Lemma scan_keys lines : forall st,
  current_is_key st -> NoDup (fileChanges st).*1 ->
  (fileChanges (scan_lines st lines)).*1
  = (fileChanges st).*1
    ++ filter (fun p => p ∉ (fileChanges st).*1) (first_occurrences (headers lines))
  /\ NoDup (fileChanges (scan_lines st lines)).*1.
Proof.
  induction lines as [|line lines IH]; intros st Hc Hnd.
  - simpl. by rewrite app_nil_r.
  - destruct (step_keys st line Hc) as [Hk Hc'].
    unfold scan_lines in *. cbn [fold_left].
    assert (Hnd' : NoDup (fileChanges (step st line)).*1).
    { rewrite Hk. destruct (is_header line); [|done].
      case_decide; [done|]. apply NoDup_app. repeat split; [done | |].
      - intros x Hx ->%list_elem_of_singleton. done.
      - apply NoDup_singleton. }
    destruct (IH (step st line) Hc' Hnd') as [IH1 IH2]. split; [|done].
    rewrite IH1, Hk, headers_cons.
    destruct (is_header line) eqn:Hh; [|done].
    cbn [first_occurrences]. set (p := substring line 6).
    destruct (decide (p ∈ (fileChanges st).*1)) as [Hin|Hnin].
    + rewrite filter_cons_False by (intros ?; done).
      f_equal. rewrite list_filter_filter. apply list_filter_iff.
      intros x. split; [|tauto]. intros Hx. split; [done|]. by intros ->.
    + rewrite filter_cons_True by done.
      rewrite <- app_assoc. f_equal. cbn [app]. f_equal.
      rewrite list_filter_filter. apply list_filter_iff.
      intros x. rewrite not_elem_of_app, list_elem_of_singleton. tauto.
Qed.

End MapShape.

Section Recorded.

Implicit Types (st : scan) (line : jstr) (m : FileChanges) (lines : list jstr).

(** A line number in the map after a step was there before, or the line
    is an addition recorded at the cursor for the current file. *)
Lemma step_records st line f ns n :
  map_get (fileChanges (step st line)) f = Some ns -> n ∈ ns ->
  (exists ns0, map_get (fileChanges st) f = Some ns0 /\ n ∈ ns0)
  \/ (is_addition line = true /\ currentFile st = Some f
      /\ currentLineNumber st = n).
Proof.
  unfold step, is_addition.
  destruct (startsWith line (js "+++ b/")) eqn:Hh.
  { cbn [fileChanges]. destruct (decide (substring line 6 = f)) as [<-|Hne].
    - rewrite map_get_set. intros [= <-] Hn. by apply elem_of_nil in Hn.
    - rewrite map_get_set_ne by done. intros Hg Hn. left. by exists ns. }
  destruct (startsWith line (js "@@")).
  { destruct (hunk_start line); intros Hg Hn; left; by exists ns. }
  destruct (currentFile st) as [g|] eqn:Hg; cbn [file_set andb].
  2:{ intros Hm Hn. left. by exists ns. }
  destruct (truthy g); cbn [andb].
  2:{ intros Hm Hn. left. by exists ns. }
  destruct (startsWith line (js "+") && negb (startsWith line (js "+++"))) eqn:Ha.
  - cbn [fileChanges default from_option id].
    destruct (decide (g = f)) as [->|Hne].
    + rewrite map_get_set. intros [= <-] Hn.
      apply elem_of_app in Hn as [Hn|Hn%list_elem_of_singleton].
      * left. destruct (map_get (fileChanges st) f) as [ns0|]; [by exists ns0|].
        by apply elem_of_nil in Hn.
      * right. by subst.
    + rewrite map_get_set_ne by done. intros Hm Hn. left. by exists ns.
  - destruct (negb (startsWith line (js "-"))); intros Hm Hn; left; by exists ns.
Qed.

Lemma filter_not_in_nil (l : list jstr) : filter (fun p => p ∉ []) l = l.
Proof.
  induction l as [|x l IH]; [done|].
  rewrite filter_cons_True by apply not_elem_of_nil. by rewrite IH.
Qed.

Lemma scan_lines_cons st line lines :
  scan_lines st (line :: lines) = scan_lines (step st line) lines.
Proof. done. Qed.

Lemma scan_records lines : forall st f ns n,
  map_get (fileChanges (scan_lines st lines)) f = Some ns -> n ∈ ns ->
  (exists ns0, map_get (fileChanges st) f = Some ns0 /\ n ∈ ns0)
  \/ (exists i line,
        lines !! i = Some line /\ is_addition line = true
        /\ currentFile (scan_lines st (take i lines)) = Some f
        /\ currentLineNumber (scan_lines st (take i lines)) = n).
Proof.
  induction lines as [|line lines IH]; intros st f ns n Hg Hn.
  - left. by exists ns.
  - rewrite scan_lines_cons in Hg.
    destruct (IH _ _ _ _ Hg Hn) as [(ns0 & Hg0 & Hn0)|(i & l & Hl & Ha & Hf & Hc)].
    + destruct (step_records _ _ _ _ _ Hg0 Hn0) as [?|(Ha & Hf & Hc)]; [by left|].
      right. exists O, line. by repeat split.
    + right. exists (S i), l. by repeat split.
Qed.

Lemma current_lines_set m f v c :
  current_lines {| fileChanges := map_set m f v; currentFile := Some f;
                   currentLineNumber := c |} = v.
Proof. unfold current_lines; simpl. by rewrite map_get_set. Qed.

End Recorded.

(** ** The batch over the entries of a map *)

Section Batch.

Implicit Types (w : world) (comment tag : jstr) (entries : FileChanges).

(** [addCommentToFile] always returns: every failure inside is caught. *)
Lemma addCommentToFile_total path n comment tag w :
  exists b w', addCommentToFile path n comment tag w = (Ok b, w').
Proof.
  rewrite addCommentToFile_run. cbv zeta.
  destruct (w_fs w !! path) as [f|]; [|by eexists _, _].
  destruct (_ || _); [by eexists _, _|].
  destruct (_ !! _) as [target|]; [|by eexists _, _].
  destruct (hasExistingComment target tag); [by eexists _, _|].
  destruct (f_writable f); by eexists _, _.
Qed.

(** The files already collected do not influence the rest of the batch. *)
Lemma for_entries_acc entries comment tag : forall acc w,
  exists m w',
    for_entries entries comment tag acc w = (Ok (acc ++ m), w')
    /\ for_entries entries comment tag [] w = (Ok m, w').
Proof.
  induction entries as [|[p ns] entries IH]; intros acc w.
  - exists [], w. by rewrite app_nil_r.
  - cbn [for_entries]. destruct ns as [|first rest]; [apply IH|].
    unfold bind.
    destruct (addCommentToFile_total p first comment tag w) as (b & w1 & ->).
    destruct b; cbn [app].
    + destruct (IH (acc ++ [p]) w1) as (m & w' & E1 & E2).
      destruct (IH [p] w1) as (m' & w'' & E3 & E4).
      rewrite E2 in E4. injection E4 as <- <-.
      exists (p :: m), w'. rewrite E1, E3. by rewrite <- app_assoc.
    + apply IH.
Qed.

Lemma for_entries_world entries comment tag acc w :
  snd (for_entries entries comment tag acc w)
  = snd (for_entries entries comment tag [] w).
Proof.
  destruct (for_entries_acc entries comment tag acc w) as (m & w' & -> & ->).
  done.
Qed.

(** What the batch collects: the keys, in map order, whose first line
    number led to an insertion in the world reached at their turn. *)
Lemma for_entries_spec entries comment tag : forall w,
  exists modified w',
    for_entries entries comment tag [] w = (Ok modified, w')
    /\ modified `sublist_of` entries.*1
    /\ (forall p,
          p ∈ modified <->
          exists i first rest,
            entries !! i = Some (p, first :: rest)
            /\ fst (addCommentToFile p first comment tag
                      (snd (for_entries (take i entries) comment tag [] w)))
               = Ok true).
Proof.
  induction entries as [|[p0 ns] entries IH]; intros w.
  - exists [], w. repeat split; [done | by intros ?%elem_of_nil |].
    by intros (i & ? & ? & ? & _).
  - cbn [for_entries]. destruct ns as [|first rest].
    + destruct (IH w) as (m & w' & E & Hsub & Hiff).
      exists m, w'. split; [done|]. split; [by apply sublist_cons|].
      intros p. rewrite Hiff. split.
      * intros (i & f & r & Hl & Ha). by exists (S i), f, r.
      * intros ([|i] & f & r & Hl & Ha); [done|]. by exists i, f, r.
    + unfold bind.
      destruct (addCommentToFile_total p0 first comment tag w) as (b & w1 & Eb).
      rewrite Eb.
      destruct (IH w1) as (m & w' & E & Hsub & Hiff).
      assert (Hw : forall i,
                snd (for_entries (take (S i) ((p0, first :: rest) :: entries))
                       comment tag [] w)
                = snd (for_entries (take i entries) comment tag [] w1)).
      { intros i. cbn [take for_entries]. unfold bind. rewrite Eb.
        apply for_entries_world. }
      destruct b.
      * destruct (for_entries_acc entries comment tag [p0] w1)
          as (m' & w'' & E1 & E2).
        rewrite E in E2. injection E2 as <- <-.
        exists (p0 :: m), w'. split; [done|].
        split; [by apply sublist_skip|].
        intros p. rewrite elem_of_cons, Hiff. split.
        -- intros [->|(i & f & r & Hl & Ha)].
           ++ exists O, first, rest. split; [done|]. simpl. by rewrite Eb.
           ++ exists (S i), f, r. split; [done|]. by rewrite Hw.
        -- intros ([|i] & f & r & Hl & Ha).
           ++ injection Hl as -> -> ->. by left.
           ++ right. exists i, f, r. split; [done|]. by rewrite <- Hw.
      * exists m, w'. split; [done|]. split; [by apply sublist_cons|].
        intros p. rewrite Hiff. split.
        -- intros (i & f & r & Hl & Ha). exists (S i), f, r.
           split; [done|]. by rewrite Hw.
        -- intros ([|i] & f & r & Hl & Ha).
           ++ injection Hl as -> -> ->. simpl in Ha. by rewrite Eb in Ha.
           ++ exists i, f, r. split; [done|]. by rewrite <- Hw.
Qed.

End Batch.



(** ** The branch-code gate *)

Section Gate.

Implicit Types (b code : jstr).

Lemma trim_start_keeps (x : N) (s : jstr) :
  x ∈ s -> is_space x = false -> x ∈ trim_start s.
Proof.
  induction s as [|c s IH]; [done|]. intros Hin Hx. cbn [trim_start].
  destruct (is_space c) eqn:Hc; [|done].
  apply elem_of_cons in Hin as [->|Hin]; [congruence | by apply IH].
Qed.

Lemma trim_nonblank (x : N) b :
  x ∈ b -> is_space x = false -> truthy (trim b) = true.
Proof.
  intros Hin Hx. unfold trim.
  assert (H : x ∈ rev (trim_start (rev (trim_start b)))).
  { rewrite list_elem_of_In, <- in_rev, <- list_elem_of_In.
    apply trim_start_keeps; [|done].
    rewrite list_elem_of_In, <- in_rev, <- list_elem_of_In.
    by apply trim_start_keeps. }
  destruct (rev _); [by apply elem_of_nil in H | done].
Qed.

Lemma is_branch_code_matches code i t :
  is_branch_code code = true ->
  exists j, matches BRANCH_CODE_REGEX (i, code ++ t) (j, t).
Proof.
  unfold is_branch_code.
  destruct code as [|f [|l [|y [|u [|h [|d1 [|d2 [|d3 [|? ?]]]]]]]]]; try done.
  intros H.
  repeat match goal with
         | H : _ && _ = true |- _ => apply andb_prop in H as [? ?]
         | H : (_ =? _)%N = true |- _ => apply N.eqb_eq in H; subst
         end.
  unfold BRANCH_CODE_REGEX, seqs. cbn [fold_right Rep].
  eexists.
  eapply m_seq; [apply (matches_Lit (js "FLY") i)|].
  eapply m_seq; [by apply m_chr|].
  eapply m_seq; [apply (matches_Lit (js "-"))|].
  eapply m_seq; [|apply m_eps].
  eapply m_seq; [by apply m_chr|].
  eapply m_seq; [by apply m_chr|].
  eapply m_seq; [by apply m_chr|].
  apply m_eps.
Qed.

Lemma is_branch_code_literal code :
  is_branch_code code = true -> Forall (fun c => is_syntax_char c = false) code.
Proof.
  unfold is_branch_code.
  destruct code as [|f [|l [|y [|u [|h [|d1 [|d2 [|d3 [|? ?]]]]]]]]]; try done.
  unfold is_upper, is_digit. intros H.
  repeat match goal with
         | H : _ && _ = true |- _ => apply andb_prop in H as [? ?]
         | H : (_ =? _)%N = true |- _ => apply N.eqb_eq in H
         | H : (_ <=? _)%N = true |- _ => apply N.leb_le in H
         end.
  assert (Hlit : forall c,
            (c = 45 \/ 48 <= c <= 57 \/ 65 <= c <= 90)%N ->
            is_syntax_char c = false).
  { intros c Hc. unfold is_syntax_char.
    change (js "^$\.*+?()[]{}|")
      with [94; 36; 92; 46; 42; 43; 63; 40; 41; 91; 93; 123; 125; 124]%N.
    cbn [existsb].
    repeat (apply orb_false_iff; split); try done; apply N.eqb_neq; lia. }
  repeat constructor; apply Hlit; lia.
Qed.

End Gate.

Section GateTheorem.

Implicit Types (b code : jstr).

(** A name without a branch code makes [extractBranchCode] invalid. *)
Lemma extract_none b :
  (forall before code rest,
     b = before ++ code ++ rest -> is_branch_code code = false) ->
  isValid (extractBranchCode b) = false.
Proof.
  intros Hno. unfold extractBranchCode.
  destruct (negb (truthy b) || negb (truthy (trim b))); [done|].
  destruct (exec BRANCH_CODE_REGEX b) as [m|] eqn:E; [|done].
  exfalso. apply search_sound in E as (before & rest & Eb & _ & Hm).
  apply BRANCH_CODE_REGEX_shape in Hm as (code & Ec & _ & Hcode).
  cbn [snd] in Ec. apply app_inv_tail in Ec as <-.
  specialize (Hno before (m_text m) rest Eb). congruence.
Qed.

(** A name with a branch code yields a code of that shape. *)
Lemma extract_some b before code0 rest :
  b = before ++ code0 ++ rest -> is_branch_code code0 = true ->
  exists code,
    extractBranchCode b
    = {| branchCode := Some code; isValid := true; branchName := b;
         error := None |}
    /\ is_branch_code code = true.
Proof.
  intros Eb Hcode. unfold extractBranchCode.
  assert (HF : 70%N ∈ b).
  { rewrite Eb. apply elem_of_app. right. apply elem_of_app. left.
    unfold is_branch_code in Hcode.
    destruct code0 as [|f ?]; [done|].
    destruct code0 as [|? [|? [|? [|? [|? [|? [|? [|? ?]]]]]]]]; try done.
    apply andb_prop in Hcode as [Hcode _].
    repeat (apply andb_prop in Hcode as [Hcode _]).
    apply N.eqb_eq in Hcode as ->. apply elem_of_cons. by left. }
  assert (Ht : truthy b = true).
  { destruct b; [by apply elem_of_nil in HF | done]. }
  rewrite Ht, (trim_nonblank 70%N b HF eq_refl). cbn [negb orb].
  destruct (is_branch_code_matches code0 (length before) rest Hcode) as [j Hm].
  destruct (search_complete BRANCH_CODE_REGEX before O (code0 ++ rest) (j, rest) Hm)
    as [m E].
  unfold exec. rewrite <- Eb in E. rewrite E.
  exists (m_text m). split; [done|].
  apply search_sound in E as (before' & rest' & _ & _ & Hm').
  apply BRANCH_CODE_REGEX_shape in Hm' as (code & Ec & _ & Hc).
  cbn [snd] in Ec. by apply app_inv_tail in Ec as <-.
Qed.

End GateTheorem.

Section Writes.

Implicit Types (w : world) (comment tag : jstr).

(** The events a call of [addCommentToFile] adds: a read, and for an
    insertion a write of a text annotated with the tag. *)
Lemma addCommentToFile_trace path n comment tag w :
  exists new,
    w_trace (snd (addCommentToFile path n comment tag w)) = w_trace w ++ new
    /\ Forall (tagged_write comment tag) new.
Proof.
  rewrite addCommentToFile_run. cbv zeta.
  assert (Hread : Forall (tagged_write comment tag) [EvReadFile path])
    by (by repeat constructor).
  destruct (w_fs w !! path) as [f|]; [|by exists [EvReadFile path]].
  destruct (_ || _); [by exists [EvReadFile path]|].
  destruct (_ !! _) as [target|]; [|by exists [EvReadFile path]].
  destruct (hasExistingComment target tag); [by exists [EvReadFile path]|].
  eexists [EvReadFile path; EvWriteFile path _]. split.
  - destruct (f_writable f); simpl; by rewrite <- app_assoc.
  - repeat constructor. simpl. by eexists _, _, _.
Qed.

Lemma for_entries_trace entries comment tag : forall acc w,
  exists new,
    w_trace (snd (for_entries entries comment tag acc w)) = w_trace w ++ new
    /\ Forall (tagged_write comment tag) new.
Proof.
  induction entries as [|[p ns] entries IH]; intros acc w.
  - exists []. by rewrite app_nil_r.
  - cbn [for_entries]. destruct ns as [|first rest]; [apply IH|].
    unfold bind.
    destruct (addCommentToFile_trace p first comment tag w) as (new1 & E1 & H1).
    destruct (addCommentToFile_total p first comment tag w) as (ok & w1 & Eb).
    rewrite Eb in *. cbn [snd] in E1.
    destruct (IH (if ok then acc ++ [p] else acc) w1) as (new2 & E2 & H2).
    exists (new1 ++ new2). rewrite E2, E1, app_assoc. split; [done|].
    by apply Forall_app.
Qed.

Lemma addCommentsWith_trace input tag w :
  exists new,
    w_trace (snd (addCommentsWith input tag w)) = w_trace w ++ new
    /\ Forall (tagged_write (comment input) tag) new.
Proof.
  assert (Hdiff : forall (fetch : M jstr) (e : event),
            (forall w0, snd (fetch w0) = log e w0) ->
            tagged_write (comment input) tag e ->
            exists new,
              w_trace (snd (bind fetch (fun diff =>
                 if negb (truthy diff) || negb (truthy (trim diff))
                 then ret {| success := false;
                             message := js "No " ++ source_name (default staged (source input))
                                        ++ js " changes found";
                             r_branchCode := Some tag; filesModified := None;
                             r_error := None |}
                 else
                   bind (addCommentsToDiff diff (comment input) tag)
                     (fun modified =>
                        let n := Z.of_nat (length modified) in
                        ret {| success := (n >? 0);
                               message :=
                                 if (n >? 0)
                                 then js "Comments added to " ++ num n ++ js " file(s)"
                                 else js "No comments were added (may already exist or no valid lines found)";
                               r_branchCode := Some tag;
                               filesModified := Some modified;
                               r_error := None |})) w))
              = w_trace w ++ new
              /\ Forall (tagged_write (comment input) tag) new).
  { intros fetch e Hfetch He. unfold bind at 1.
    specialize (Hfetch w). destruct (fetch w) as [[diff|msg] w0]; cbn [snd] in Hfetch;
      subst w0.
    - destruct (_ || _).
      + exists [e]. split; [done | by repeat constructor].
      + unfold bind, addCommentsToDiff.
        destruct (for_entries_trace (parseDiff diff) (comment input) tag []
                    (log e w)) as (new & E & H).
        exists (e :: new). split; [|by constructor].
        destruct (for_entries _ _ _ _ _) as [[m|msg] w']; unfold ret;
          cbn [snd] in *; rewrite E; cbn [log w_trace];
          by rewrite <- app_assoc.
    - exists [e]. split; [done | by repeat constructor]. }
  unfold addCommentsWith.
  destruct (default staged (source input)) eqn:Es.
  - by apply (Hdiff getStagedDiff EvGetStagedDiff).
  - by apply (Hdiff getUnstagedDiff EvGetUnstagedDiff).
  - destruct (path_given (filePath input)) as [path|].
    + destruct (line_given (lineNumber input)) as [line|].
      * unfold bind.
        destruct (addCommentToFile_trace path line (comment input) tag w)
          as (new & E & H).
        destruct (addCommentToFile_total path line (comment input) tag w)
          as (ok & w1 & Eb).
        rewrite Eb in *. by exists new.
      * exists []. by rewrite app_nil_r.
    + by apply (Hdiff getUnstagedDiff EvGetUnstagedDiff).
Qed.

End Writes.

(** When the collaborator fails to name the branch, the failure is caught
    and nothing else is called. *)
Lemma addComments_branch_unavailable input w msg :
  w_branch w = Throw msg ->
  addComments input w = caught msg (log EvGetCurrentBranch w).
Proof.
  intros Hb. unfold addComments, try_catch, bind, getCurrentBranch. by rewrite Hb.
Qed.

(** C10: [addComments] first asks for the branch name. When the name holds
    no substring of the shape FLY[A-Z]-[0-9]{3} (the empty name included) the
    call returns [success = false] with the message "Failed to extract branch
    code", and the only call made to a collaborator is the one for the branch
    name: no diff is fetched, no file is read or written. Otherwise the tool
    continues with a code of that shape, which holds no pattern syntax
    character; it is the tag handed on to duplicate detection and insertion.
    In every case, each text the call writes to a file is a text annotated
    with a tag of that shape. *)
Theorem branch_code_gate input w b :
  w_branch w = Ok b ->
  ((forall before code rest,
      b = before ++ code ++ rest -> is_branch_code code = false) ->
   addComments input w
   = (Ok (gate_failure (error (extractBranchCode b))), log EvGetCurrentBranch w)
   /\ success (gate_failure (error (extractBranchCode b))) = false
   /\ message (gate_failure (error (extractBranchCode b)))
      = js "Failed to extract branch code"
   /\ w_fs (log EvGetCurrentBranch w) = w_fs w
   /\ w_trace (log EvGetCurrentBranch w) = w_trace w ++ [EvGetCurrentBranch])
  /\ ((exists before code rest,
         b = before ++ code ++ rest /\ is_branch_code code = true) ->
      exists code,
        branchCode (extractBranchCode b) = Some code
        /\ is_branch_code code = true
        /\ Forall (fun c => is_syntax_char c = false) code
        /\ addComments input w
           = try_catch (addCommentsWith input code) caught
               (log EvGetCurrentBranch w))
  /\ (exists new,
        w_trace (snd (addComments input w)) = w_trace w ++ new
        /\ forall path text,
             EvWriteFile path text ∈ new ->
             exists code lines i target,
               is_branch_code code = true
               /\ text = annotated lines i target (comment input) code).
Proof.
  intros Hb.
  assert (Hfail : isValid (extractBranchCode b) = false ->
            addComments input w
            = (Ok (gate_failure (error (extractBranchCode b))),
               log EvGetCurrentBranch w)).
  { intros Hv. unfold addComments, try_catch, bind, getCurrentBranch.
    by rewrite Hb, Hv. }
  assert (Hpass : forall code,
            extractBranchCode b
            = {| branchCode := Some code; isValid := true; branchName := b;
                 error := None |} ->
            is_branch_code code = true ->
            addComments input w
            = try_catch (addCommentsWith input code) caught
                (log EvGetCurrentBranch w)).
  { intros code E Hc. unfold addComments, try_catch, bind, getCurrentBranch.
    rewrite Hb, E. cbn [isValid branchCode].
    assert (Ht : truthy code = true).
    { unfold is_branch_code in Hc. by destruct code. }
    by rewrite Ht. }
  split; [|split].
  - intros Hno. split; [by apply Hfail, extract_none|]. by repeat split.
  - intros (before & code0 & rest & Eb & Hcode).
    destruct (extract_some b before code0 rest Eb Hcode) as (code & E & Hc).
    exists code. rewrite E. cbn [branchCode].
    split; [done|]. split; [done|]. split; [by apply is_branch_code_literal|].
    by apply Hpass.
  - destruct (isValid (extractBranchCode b)) eqn:Hv.
    + assert (Hsub : exists before code rest,
                b = before ++ code ++ rest /\ is_branch_code code = true).
      { unfold extractBranchCode in Hv.
        destruct (negb (truthy b) || negb (truthy (trim b))); [done|].
        destruct (exec BRANCH_CODE_REGEX b) as [m|] eqn:E; [|done].
        apply search_sound in E as (before & rest & Eb & _ & Hm).
        apply BRANCH_CODE_REGEX_shape in Hm as (code & Ec & _ & Hcode).
        cbn [snd] in Ec. apply app_inv_tail in Ec as <-.
        by exists before, (m_text m), rest. }
      destruct Hsub as (before & code0 & rest & Eb & Hcode).
      destruct (extract_some b before code0 rest Eb Hcode) as (code & E & Hc).
      rewrite (Hpass code E Hc).
      destruct (addCommentsWith_trace input code (log EvGetCurrentBranch w))
        as (new & En & Hn).
      exists (EvGetCurrentBranch :: new). split.
      * unfold try_catch, caught, ret.
        destruct (addCommentsWith input code _) as [[r|msg] w']; cbn [snd] in *;
          rewrite En; cbn [log w_trace]; by rewrite <- app_assoc.
      * intros path text [Hin|Hin]%elem_of_cons; [done|].
        rewrite Forall_forall in Hn. specialize (Hn _ Hin).
        destruct Hn as (lines & i & target & ->).
        by exists code, lines, i, target.
    + rewrite (Hfail eq_refl). exists [EvGetCurrentBranch]. split; [done|].
      intros path text Hin. by apply list_elem_of_singleton in Hin.
Qed.

Lemma branch_code_gate_witness :
  let w := Samples.w_js in
  let input := Samples.staged_request in
  w_branch w = Ok (js "feature/FLYF-228-login")
  /\ (exists before code rest,
        js "feature/FLYF-228-login" = before ++ code ++ rest
        /\ is_branch_code code = true)
  /\ exists code,
       branchCode (extractBranchCode (js "feature/FLYF-228-login")) = Some code
       /\ is_branch_code code = true
       /\ addComments input w
          = try_catch (addCommentsWith input code) caught (log EvGetCurrentBranch w).
Proof.
  intros w input.
  assert (Hb : w_branch w = Ok (js "feature/FLYF-228-login")) by reflexivity.
  assert (Hsub : exists before code rest,
             js "feature/FLYF-228-login" = before ++ code ++ rest
             /\ is_branch_code code = true).
  { exists (js "feature/"), (js "FLYF-228"), (js "-login"). by split. }
  split; [exact Hb|]. split; [exact Hsub|].
  destruct (branch_code_gate input w (js "feature/FLYF-228-login") Hb)
    as (_ & Hpass & _).
  destruct (Hpass Hsub) as (code & H1 & H2 & _ & H3).
  by exists code.
Defined.

(** ** Requests that name a file *)

(** With [source = "file"] and a path but no line number (or line 0) the
    call fails before any diff is fetched and any file is touched. *)
Lemma file_request_needs_line input tag w path :
  source input = Some file_source ->
  path_given (filePath input) = Some path ->
  line_given (lineNumber input) = None ->
  addCommentsWith input tag w
  = (Ok {| success := false;
           message := js "Line number required when specifying a file";
           r_branchCode := None; filesModified := None;
           r_error := Some (js "Missing lineNumber parameter") |}, w).
Proof.
  intros Hs Hp Hl. unfold addCommentsWith. by rewrite Hs, Hp, Hl.
Qed.

(** C3 fails on the code for a missing path: a request with
    [source = "file"], a line number and no [filePath] is not rejected. It
    falls through to the diff branch, fetches the unstaged diff and annotates
    the file that diff names. *)
Lemma file_request_without_path_annotates_unstaged :
  let input := {| comment := js "note"; source := Some file_source;
                  filePath := None; lineNumber := Some 1 |} in
  let w := {| w_branch := Ok (js "feature/FLYF-228-login");
              w_staged := Ok [];
              w_unstaged := Ok (js "+++ b/a.js
@@ -0,0 +1,1 @@
+f();
");
              w_fs := {[ js "a.js" := Samples.writable (js "f();") ]};
              w_trace := [] |} in
  exists r w',
    addComments input w = (Ok r, w')
    /\ success r = true
    /\ filesModified r = Some [js "a.js"]
    /\ w_trace w'
       = [EvGetCurrentBranch; EvGetUnstagedDiff; EvReadFile (js "a.js");
          EvWriteFile (js "a.js") (js "// FLYF-228: note
f();")]
    /\ content_of w' (js "a.js") = Some (js "// FLYF-228: note
f();").
Proof. eexists _, _. repeat split; vm_compute; reflexivity. Qed.

(** * Further properties of the annotation engine *)

(** ** What a call leaves alone *)

Section Frame.

Implicit Types (w : world) (path comment tag : jstr) (n : Z).

(** A call touches no other file, and a call that reports no insertion
    touches none. *)
Lemma addCommentToFile_files path n comment tag w :
  let r := addCommentToFile path n comment tag w in
  (forall q, q <> path -> w_fs (snd r) !! q = w_fs w !! q)
  /\ (fst r = Ok false -> w_fs (snd r) = w_fs w)
  /\ w_branch (snd r) = w_branch w
  /\ w_staged (snd r) = w_staged w
  /\ w_unstaged (snd r) = w_unstaged w.
Proof.
  cbv zeta. rewrite addCommentToFile_run. cbv zeta.
  destruct (w_fs w !! path) as [f|]; [|by repeat split].
  destruct (_ || _); [by repeat split|].
  destruct (_ !! _) as [target|]; [|by repeat split].
  destruct (hasExistingComment target tag); [by repeat split|].
  destruct (f_writable f); [|by repeat split].
  cbn [fst snd set_fs log w_fs w_branch w_staged w_unstaged].
  repeat split; try done.
  intros q Hq. by rewrite lookup_insert_ne.
Qed.

(** The outcome for a path depends on the world only through that path's
    file. *)
Lemma addCommentToFile_local path n comment tag w1 w2 :
  w_fs w1 !! path = w_fs w2 !! path ->
  fst (addCommentToFile path n comment tag w1)
  = fst (addCommentToFile path n comment tag w2)
  /\ w_fs (snd (addCommentToFile path n comment tag w1)) !! path
     = w_fs (snd (addCommentToFile path n comment tag w2)) !! path.
Proof.
  intros E. rewrite !addCommentToFile_run. cbv zeta. rewrite <- E.
  assert (Hsame : forall e1 e2 : event,
            w_fs (log e1 w1) !! path = w_fs (log e2 w2) !! path) by (by intros).
  destruct (w_fs w1 !! path) as [f|]; [|split; [done | exact (Hsame _ _)]].
  destruct ((n <? 1) || (n >? Z.of_nat (length (split_nl (f_content f)))));
    [split; [done | exact (Hsame _ _)]|].
  destruct (split_nl (f_content f) !! Z.to_nat (n - 1)) as [target|];
    [|split; [done | exact (Hsame _ _)]].
  destruct (hasExistingComment target tag); [split; [done | exact (Hsame _ _)]|].
  destruct (f_writable f); [|split; [done | exact (Hsame _ _)]].
  cbn [fst snd set_fs w_fs]. by rewrite !lookup_insert_eq.
Qed.

(** The length of a joined text: the lines and one separator between two. *)
Lemma join_nl_length (ls : list jstr) :
  ls <> [] ->
  S (length (join_nl ls)) = list_sum ((fun l => S (length l)) <$> ls).
Proof.
  induction ls as [|l ls IH]; [done|]. intros _.
  destruct ls as [|l' ls]; [clear IH; cbn; lia|].
  change (join_nl (l :: l' :: ls)) with (l ++ NL :: join_nl (l' :: ls)).
  rewrite length_app. specialize (IH ltac:(done)).
  remember (join_nl (l' :: ls)) as rest eqn:Erest. clear Erest.
  remember ((fun l0 : jstr => S (length l0)) <$> ls) as tail eqn:Etail.
  clear Etail. cbn in *. lia.
Qed.

End Frame.

(** X1: a call of [addCommentToFile] that returns [false] (missing file, line
    out of range, duplicate, or a write that fails) leaves every file as it
    was; a call that returns [true] changes the file it names and no other. *)
Theorem addCommentToFile_changes_only_its_file path n comment tag w ok w' :
  addCommentToFile path n comment tag w = (Ok ok, w') ->
  (ok = false -> w_fs w' = w_fs w)
  /\ (forall q, q <> path -> w_fs w' !! q = w_fs w !! q)
  /\ (ok = true -> content_of w' path <> content_of w path).
Proof.
  intros E.
  destruct (addCommentToFile_files path n comment tag w) as (Hq & Hf & _).
  rewrite E in Hq, Hf. cbn [fst snd] in Hq, Hf.
  split; [by intros ->; apply Hf|]. split; [exact Hq|].
  intros ->. apply addCommentToFile_applied in E
    as (f & target & Hfile & _ & _ & _ & _ & Hc).
  rewrite Hc. unfold content_of. rewrite Hfile. cbn [fmap option_fmap option_map].
  intros [= Heq].
  assert (Hlen : S (length (annotated (split_nl (f_content f)) (Z.to_nat (n - 1))
                              target comment tag))
                 = S (length (join_nl (split_nl (f_content f)))))
    by (by rewrite Heq, join_split).
  unfold annotated, splice_in in Hlen.
  rewrite !join_nl_length in Hlen;
    [| apply split_nl_nonempty | by destruct (take _ _)].
  rewrite <- (take_drop (Z.to_nat (n - 1)) (split_nl (f_content f))) in Hlen at 3.
  rewrite !fmap_app, !list_sum_app in Hlen.
  cbn [fmap list_fmap] in Hlen.
  change (list_sum (?x :: ?l)) with (x + list_sum l)%nat in Hlen. lia.
Qed.

Lemma addCommentToFile_changes_only_its_file_witness :
  let w := MoreSamples.w_locked in
  let w' := snd (addCommentToFile (js "locked.js") 1 (js "note") Samples.TAG w) in
  addCommentToFile (js "locked.js") 1 (js "note") Samples.TAG w = (Ok false, w')
  /\ w_fs w' = w_fs w
  /\ w_trace w' = [EvReadFile (js "locked.js");
                   EvWriteFile (js "locked.js") (js "// FLYF-228: note
f();")].
Proof.
  intros w w'.
  assert (E : addCommentToFile (js "locked.js") 1 (js "note") Samples.TAG w
              = (Ok false, w')) by (vm_compute; reflexivity).
  split; [exact E|].
  destruct (addCommentToFile_changes_only_its_file _ _ _ _ _ _ _ E) as (H & _ & _).
  split; [by apply H|]. vm_compute. reflexivity.
Defined.

Section BatchFrame.

Implicit Types (w : world) (comment tag : jstr) (entries : FileChanges).

(** The batch changes no file outside the list it returns. *)
Lemma for_entries_files entries comment tag : forall w,
  exists m w',
    for_entries entries comment tag [] w = (Ok m, w')
    /\ (forall q, q ∉ m -> w_fs w' !! q = w_fs w !! q)
    /\ (m = [] -> w_fs w' = w_fs w).
Proof.
  induction entries as [|[p ns] entries IH]; intros w.
  - by exists [], w.
  - cbn [for_entries]. destruct ns as [|first rest]; [apply IH|].
    unfold bind.
    destruct (addCommentToFile_total p first comment tag w) as (ok & w1 & Eb).
    rewrite Eb.
    destruct (addCommentToFile_files p first comment tag w) as (Hq & Hf & _).
    rewrite Eb in Hq, Hf. cbn [fst snd] in Hq, Hf.
    destruct (IH w1) as (m & w' & E & Hm & Hnil).
    destruct ok; cbn [app].
    + destruct (for_entries_acc entries comment tag [p] w1) as (m' & w'' & E1 & E2).
      rewrite E in E2. injection E2 as <- <-.
      exists (p :: m), w'. split; [done|]. split; [|done].
      intros q Hnot. apply not_elem_of_cons in Hnot as [Hne Hnot].
      rewrite Hm by done. by apply Hq.
    + exists m, w'. split; [done|]. split.
      * intros q Hnot. rewrite Hm by done. by rewrite Hf.
      * intros ->. rewrite Hnil by done. by apply Hf.
Qed.

(** After the branch-code gate: files outside [filesModified] keep their
    content, and a result without success leaves every file as it was. *)
Lemma addCommentsWith_files input tag w res w' :
  addCommentsWith input tag w = (res, w') ->
  match res with
  | Ok r =>
      (forall q, q ∉ default [] (filesModified r) -> w_fs w' !! q = w_fs w !! q)
      /\ (success r = false -> w_fs w' = w_fs w)
  | Throw _ => w_fs w' = w_fs w
  end.
Proof.
  assert (Hdiff : forall (fetch : M jstr) (e : event) (name : jstr),
            (forall w0, fetch w0 = (w_staged w0, log e w0)
                        \/ fetch w0 = (w_unstaged w0, log e w0)) ->
            bind fetch (fun diff =>
              if negb (truthy diff) || negb (truthy (trim diff))
              then ret {| success := false;
                          message := js "No " ++ name ++ js " changes found";
                          r_branchCode := Some tag; filesModified := None;
                          r_error := None |}
              else
                bind (addCommentsToDiff diff (comment input) tag)
                  (fun modified =>
                     let n := Z.of_nat (length modified) in
                     ret {| success := (n >? 0);
                            message :=
                              if (n >? 0)
                              then js "Comments added to " ++ num n ++ js " file(s)"
                              else js "No comments were added (may already exist or no valid lines found)";
                            r_branchCode := Some tag;
                            filesModified := Some modified;
                            r_error := None |})) w = (res, w') ->
            match res with
            | Ok r =>
                (forall q, q ∉ default [] (filesModified r) ->
                   w_fs w' !! q = w_fs w !! q)
                /\ (success r = false -> w_fs w' = w_fs w)
            | Throw _ => w_fs w' = w_fs w
            end).
  { intros fetch e name Hfetch. unfold bind at 1.
    assert (Hf : exists o, fetch w = (o, log e w))
      by (destruct (Hfetch w) as [-> | ->]; by eexists).
    destruct Hf as [[diff|msg] ->]; [|by intros [= <- <-]].
    destruct (_ || _); [by intros [= <- <-]|].
    unfold bind, addCommentsToDiff.
    destruct (for_entries_files (parseDiff diff) (comment input) tag (log e w))
      as (m & w1 & E & Hm & Hnil).
    rewrite E. intros [= <- <-]. cbn [filesModified success default from_option id].
    split; [exact Hm|]. intros Hs. apply Hnil.
    destruct m; [done|]. rewrite Z.gtb_ltb in Hs. apply Z.ltb_ge in Hs.
    cbn [length] in Hs. lia. }
  unfold addCommentsWith.
  destruct (default staged (source input)) eqn:Es.
  - apply (Hdiff getStagedDiff EvGetStagedDiff). by left.
  - apply (Hdiff getUnstagedDiff EvGetUnstagedDiff). by right.
  - destruct (path_given (filePath input)) as [path|].
    + destruct (line_given (lineNumber input)) as [line|].
      * unfold bind.
        destruct (addCommentToFile_total path line (comment input) tag w)
          as (ok & w1 & Eb).
        destruct (addCommentToFile_files path line (comment input) tag w)
          as (Hq & Hf & _).
        rewrite Eb in *. cbn [fst snd] in Hq, Hf.
        intros [= <- <-]. cbn [filesModified success default from_option id].
        split; [|by intros ->; apply Hf].
        destruct ok; [|by intros q _; rewrite Hf].
        intros q Hnot. apply Hq. intros ->. apply Hnot, elem_of_cons. by left.
      * by intros [= <- <-].
    + apply (Hdiff getUnstagedDiff EvGetUnstagedDiff). by right.
Qed.

End BatchFrame.

(** X2: whatever [addComments] returns, every file that is not listed in
    [filesModified] has the content it had before the call, and a result with
    [success = false] leaves the whole file system as it was. *)
Theorem addComments_changes_only_listed_files input w r w' :
  addComments input w = (Ok r, w') ->
  (forall q, q ∉ default [] (filesModified r) -> w_fs w' !! q = w_fs w !! q)
  /\ (success r = false -> w_fs w' = w_fs w).
Proof.
  unfold addComments, try_catch, bind, getCurrentBranch.
  destruct (w_branch w) as [b|msg]; [|by intros [= <- <-]].
  set (w0 := log EvGetCurrentBranch w).
  assert (Hgate : forall e,
            (Ok (gate_failure e), w0) = (Ok r, w') ->
            (forall q, q ∉ default [] (filesModified r) ->
               w_fs w' !! q = w_fs w !! q)
            /\ (success r = false -> w_fs w' = w_fs w))
    by (by intros e [= <- <-]).
  destruct (isValid (extractBranchCode b)); [|apply Hgate].
  destruct (branchCode (extractBranchCode b)) as [code|]; [|apply Hgate].
  destruct (truthy code); [|apply Hgate].
  destruct (addCommentsWith input code w0) as [res w1] eqn:E.
  pose proof (addCommentsWith_files input code w0 res w1 E) as H.
  destruct res as [r1|msg]; intros [= <- <-]; [exact H|].
  split; [by intros q _; rewrite H | by intros _; rewrite H].
Qed.

Lemma addComments_changes_only_listed_files_witness :
  let w := Samples.w_batch in
  let r := fst (addComments Samples.staged_request w) in
  let w' := snd (addComments Samples.staged_request w) in
  exists res,
    addComments Samples.staged_request w = (Ok res, w')
    /\ filesModified res = Some [js "b.js"]
    /\ w_fs w' !! js "a.js" = w_fs w !! js "a.js".
Proof.
  intros w r w'.
  assert (E : exists res, addComments Samples.staged_request w = (Ok res, w')
                          /\ filesModified res = Some [js "b.js"]).
  { eexists. split; vm_compute; reflexivity. }
  destruct E as (res & E & Hm). exists res. split; [exact E|]. split; [exact Hm|].
  destruct (addComments_changes_only_listed_files _ _ _ _ E) as [H _].
  apply H. rewrite Hm. vm_compute. intros Hin.
  apply elem_of_cons in Hin as [Hin|Hin]; [discriminate | by apply elem_of_nil in Hin].
Defined.

(** X3: no exception escapes [addComments]: whatever the collaborators do,
    the call returns a result; when the backend fails to name the branch the
    result has [success = false], the message "Error adding comments" and the
    message of the failure as [error], and no other collaborator is called. *)
Theorem addComments_never_throws input w :
  (exists r w', addComments input w = (Ok r, w'))
  /\ (forall msg,
        w_branch w = Throw msg ->
        addComments input w
        = (Ok {| success := false; message := js "Error adding comments";
                 r_branchCode := None; filesModified := None;
                 r_error := Some msg |}, log EvGetCurrentBranch w)).
Proof.
  split.
  - unfold addComments, try_catch.
    destruct (bind getCurrentBranch _ w) as [[r|msg] w']; by eexists _, _.
  - intros msg Hb. unfold addComments, try_catch, bind, getCurrentBranch. by rewrite Hb.
Qed.

(** X4: when the backend fails to give the diff, [addComments] reports the
    failure as a result ([success = false], "Error adding comments", the
    message of the failure) and touches no file. *)
Theorem addComments_reports_diff_failure input w b code msg :
  w_branch w = Ok b ->
  branchCode (extractBranchCode b) = Some code ->
  default staged (source input) = staged ->
  w_staged w = Throw msg ->
  addComments input w
  = (Ok {| success := false; message := js "Error adding comments";
           r_branchCode := None; filesModified := None;
           r_error := Some msg |},
     log EvGetStagedDiff (log EvGetCurrentBranch w)).
Proof.
  intros Hb Hc Hs Hd.
  unfold addComments, try_catch, bind at 1, getCurrentBranch. rewrite Hb.
  assert (Hv : isValid (extractBranchCode b) = true /\ truthy code = true).
  { unfold extractBranchCode in *.
    destruct (negb (truthy b) || negb (truthy (trim b))); [done|].
    destruct (exec BRANCH_CODE_REGEX b) as [m|] eqn:E; [|done].
    injection Hc as <-. split; [done|].
    apply search_sound in E as (before & rest & _ & _ & Hm).
    apply BRANCH_CODE_REGEX_shape in Hm as (c & Ec & _ & Hcode).
    cbn [snd] in Ec. apply app_inv_tail in Ec as <-.
    unfold is_branch_code in Hcode. by destruct (m_text m). }
  destruct Hv as [-> Ht]. rewrite Hc, Ht.
  unfold addCommentsWith. rewrite Hs. unfold bind, getStagedDiff.
  cbn [w_staged log]. by rewrite Hd.
Qed.

Lemma addComments_reports_diff_failure_witness :
  let w := MoreSamples.w_no_diff in
  exists r w',
    addComments Samples.staged_request w = (Ok r, w')
    /\ success r = false
    /\ r_error r = Some (js "fatal: not a git repository")
    /\ w_fs w' = w_fs w
    /\ w_trace w' = [EvGetCurrentBranch; EvGetStagedDiff].
Proof.
  intros w. eexists _, _. split.
  - apply (addComments_reports_diff_failure Samples.staged_request w
             (js "feature/FLYF-228-login") (js "FLYF-228")
             (js "fatal: not a git repository")); vm_compute; reflexivity.
  - by repeat split.
Defined.

Section Insertions.

Implicit Types (w : world) (path comment tag : jstr) (n : Z).

(** The file an insertion leaves behind. *)
Lemma addCommentToFile_applied_file path n comment tag w w' :
  addCommentToFile path n comment tag w = (Ok true, w') ->
  exists f target,
    w_fs w !! path = Some f
    /\ 1 <= n <= Z.of_nat (length (split_nl (f_content f)))
    /\ split_nl (f_content f) !! Z.to_nat (n - 1) = Some target
    /\ hasExistingComment target tag = false
    /\ w_fs w' !! path
       = Some {| f_content := annotated (split_nl (f_content f)) (Z.to_nat (n - 1))
                                target comment tag;
                 f_writable := true |}.
Proof.
  rewrite addCommentToFile_run. cbv zeta.
  destruct (w_fs w !! path) as [f|] eqn:Ef; [|done].
  destruct ((n <? 1) || (n >? Z.of_nat (length (split_nl (f_content f))))) eqn:Hb;
    [done|].
  destruct (split_nl (f_content f) !! Z.to_nat (n - 1)) as [target|] eqn:Et; [|done].
  destruct (hasExistingComment target tag) eqn:Hd; [done|].
  destruct (f_writable f) eqn:Hw; [|done].
  intros [= <-]. exists f, target.
  apply orb_false_iff in Hb as [H1 H2].
  apply Z.ltb_ge in H1. rewrite Z.gtb_ltb in H2. apply Z.ltb_ge in H2.
  repeat split; try done. apply lookup_insert_eq.
Qed.

(** The text inserted for a branch code starts on the target's line: it has
    as many lines as the comment text. *)
Lemma inserted_lines s i target comment tag :
  split_nl s !! i = Some target ->
  is_branch_code tag = true ->
  split_nl (indent_of target ++ formatComment tag comment)
  = (indent_of target ++ js "// " ++ tag ++ js ": " ++ hd [] (split_nl comment))
    :: tl (split_nl comment).
Proof.
  intros Ht Htag.
  assert (Hnl : has_nl (indent_of target ++ js "// " ++ tag ++ js ": ") = false).
  { rewrite !has_nl_app, indent_of_leading, has_nl_leading,
      (is_branch_code_no_nl tag); [done | done |].
    pose proof (split_nl_lines s) as Hall.
    rewrite Forall_lookup in Hall. by eapply Hall. }
  unfold formatComment.
  replace (indent_of target ++ js "// " ++ tag ++ js ": " ++ comment)
    with ((indent_of target ++ js "// " ++ tag ++ js ": ") ++ comment)
    by (by rewrite <- !app_assoc).
  rewrite split_nl_prefix by done. by rewrite <- !app_assoc.
Qed.

(** Calling again with the same arguments right after a call never
    inserts. *)
Lemma second_call_false path n comment tag w :
  is_branch_code tag = true ->
  fst (addCommentToFile path n comment tag
         (snd (addCommentToFile path n comment tag w))) = Ok false.
Proof.
  intros Htag.
  destruct (addCommentToFile_total path n comment tag w) as (ok & w1 & E).
  rewrite E. cbn [snd]. destruct ok.
  - apply addCommentToFile_applied_file in E
      as (f & target & Hf & Hn & Ht & Hd & Hf1).
    rewrite addCommentToFile_run. cbv zeta. rewrite Hf1. cbn [f_content f_writable].
    destruct (annotated_target_line (f_content f) (Z.to_nat (n - 1)) target
                comment tag Ht Htag) as [rest Hl].
    assert (Hlen : n <= Z.of_nat (length (split_nl
              (annotated (split_nl (f_content f)) (Z.to_nat (n - 1)) target
                 comment tag)))).
    { apply lookup_lt_Some in Hl. lia. }
    destruct (target_line _ n (conj (proj1 Hn) Hlen)) as [Hb2 _].
    by rewrite Hb2, Hl, hasExistingComment_formatted.
  - destruct (addCommentToFile_files path n comment tag w) as (_ & Hkeep & _).
    rewrite E in Hkeep. cbn [fst snd] in Hkeep.
    destruct (addCommentToFile_local path n comment tag w1 w) as [Hsame _].
    { by rewrite Hkeep. }
    by rewrite Hsame, E.
Qed.

End Insertions.

(** X5: an insertion adds exactly as many lines to the file as the comment
    text has: one for a comment without line break. *)
Theorem insertion_adds_comment_lines path n comment tag w w' :
  addCommentToFile path n comment tag w = (Ok true, w') ->
  is_branch_code tag = true ->
  exists old new,
    content_of w path = Some old
    /\ content_of w' path = Some new
    /\ length (split_nl new)
       = (length (split_nl old) + length (split_nl comment))%nat
    /\ (has_nl comment = false ->
        length (split_nl new) = S (length (split_nl old))).
Proof.
  intros E Htag.
  apply addCommentToFile_applied in E as (f & target & Hf & _ & _ & Ht & _ & Hc).
  exists (f_content f),
    (annotated (split_nl (f_content f)) (Z.to_nat (n - 1)) target comment tag).
  split; [by unfold content_of; rewrite Hf|].
  split; [exact Hc|].
  assert (Hlen : length (split_nl (annotated (split_nl (f_content f))
                   (Z.to_nat (n - 1)) target comment tag))
                 = (length (split_nl (f_content f)) + length (split_nl comment))%nat).
  { unfold annotated. rewrite split_join_splice.
    rewrite (inserted_lines (f_content f) (Z.to_nat (n - 1))) by done.
    rewrite !length_app. cbn [length].
    rewrite length_take, length_drop.
    apply lookup_lt_Some in Ht.
    pose proof (split_nl_length comment) as Hc1.
    destruct (split_nl comment); cbn [length tl] in *; lia. }
  split; [exact Hlen|].
  intros Hnl. rewrite Hlen, (split_nl_plain comment Hnl). cbn [length]. lia.
Qed.

Lemma insertion_adds_comment_lines_witness :
  let w := Samples.w_js in
  let w' := snd (addCommentToFile (js "a.js") 1 Samples.two_lines Samples.TAG w) in
  addCommentToFile (js "a.js") 1 Samples.two_lines Samples.TAG w = (Ok true, w')
  /\ exists old new,
       content_of w (js "a.js") = Some old
       /\ content_of w' (js "a.js") = Some new
       /\ length (split_nl old) = 1%nat /\ length (split_nl new) = 3%nat.
Proof.
  intros w w'.
  assert (E : addCommentToFile (js "a.js") 1 Samples.two_lines Samples.TAG w
              = (Ok true, w')) by (vm_compute; reflexivity).
  split; [exact E|].
  destruct (insertion_adds_comment_lines _ _ _ _ _ _ E eq_refl)
    as (old & new & Ho & Hn & Hlen & _).
  exists old, new. split; [exact Ho|]. split; [exact Hn|].
  vm_compute in Ho. injection Ho as <-.
  split; [reflexivity|]. rewrite Hlen. reflexivity.
Defined.

(** X6: the duplicate test looks at the target line only. After an
    insertion above line [n] the annotated line has moved down by the number
    of lines of the comment, to line [n + 1] for a comment without line
    break; a call for that line with the same tag and comment inserts the
    comment a second time, so the file then holds its lines twice in a
    row. *)
Theorem shifted_line_is_annotated_again path n comment tag w w1 :
  addCommentToFile path n comment tag w = (Ok true, w1) ->
  is_branch_code tag = true ->
  exists w2 old target,
    addCommentToFile path (n + Z.of_nat (length (split_nl comment))) comment tag w1
    = (Ok true, w2)
    /\ content_of w path = Some old
    /\ split_nl old !! Z.to_nat (n - 1) = Some target
    /\ let inserted :=
         split_nl (leading is_space target ++ formatComment tag comment) in
       length inserted = length (split_nl comment)
       /\ split_nl <$> content_of w2 path
          = Some (take (Z.to_nat (n - 1)) (split_nl old)
                  ++ inserted ++ inserted
                  ++ drop (Z.to_nat (n - 1)) (split_nl old)).
Proof.
  intros E Htag.
  apply addCommentToFile_applied_file in E
    as (f & target & Hf & Hn & Ht & Hd & Hf1).
  set (lines := split_nl (f_content f)) in *.
  set (i := Z.to_nat (n - 1)) in *.
  set (inserted := indent_of target ++ formatComment tag comment).
  set (k := length (split_nl comment)).
  assert (Hi : (i < length lines)%nat) by (by eapply lookup_lt_Some).
  assert (Hk : length (split_nl inserted) = k).
  { subst inserted k. rewrite (inserted_lines (f_content f) i) by done.
    pose proof (split_nl_nonempty comment). by destruct (split_nl comment). }
  assert (Hl1 : split_nl (annotated lines i target comment tag)
                = take i lines ++ split_nl inserted ++ drop i lines).
  { unfold annotated. subst lines. by rewrite split_join_splice. }
  set (lines1 := take i lines ++ split_nl inserted ++ drop i lines) in *.
  assert (Hlen1 : length lines1 = (length lines + k)%nat).
  { unfold lines1. rewrite !length_app, length_take, length_drop. lia. }
  assert (Htake : take (i + k) lines1 = take i lines ++ split_nl inserted).
  { unfold lines1. rewrite app_assoc. apply take_app_length'.
    rewrite length_app, length_take. lia. }
  assert (Hdrop : drop (i + k) lines1 = drop i lines).
  { unfold lines1. rewrite app_assoc. apply drop_app_length'.
    rewrite length_app, length_take. lia. }
  assert (Ht1 : lines1 !! (i + k)%nat = Some target).
  { rewrite <- (Nat.add_0_r (i + k)), <- lookup_drop, Hdrop, lookup_drop.
    by rewrite Nat.add_0_r. }
  assert (Hidx : Z.to_nat (n + Z.of_nat k - 1) = (i + k)%nat) by (subst i; lia).
  assert (Hrun : exists w2,
            addCommentToFile path (n + Z.of_nat k) comment tag w1 = (Ok true, w2)
            /\ content_of w2 path
               = Some (annotated lines1 (i + k) target comment tag)).
  { eexists. rewrite addCommentToFile_run. cbv zeta. rewrite Hf1.
    cbn [f_content f_writable]. rewrite Hl1, Hidx, Ht1, Hd.
    assert (Hb : (n + Z.of_nat k <? 1)
                 || (n + Z.of_nat k >? Z.of_nat (length lines1)) = false).
    { apply orb_false_iff. rewrite Z.gtb_ltb. split; apply Z.ltb_ge; lia. }
    rewrite Hb. split; [reflexivity|].
    unfold content_of. cbn [set_fs w_fs]. by rewrite lookup_insert_eq. }
  destruct Hrun as (w2 & E2 & Hc2).
  exists w2, (f_content f), target.
  split; [exact E2|]. split; [by unfold content_of; rewrite Hf|].
  split; [exact Ht|]. cbv zeta.
  rewrite <- indent_of_leading. fold inserted. fold lines. fold i.
  split; [exact Hk|].
  rewrite Hc2. cbn [fmap option_fmap option_map]. f_equal.
  unfold annotated. fold inserted.
  rewrite <- Hl1. rewrite split_join_splice. rewrite Hl1.
  rewrite Htake, Hdrop. by rewrite <- !app_assoc.
Qed.

Lemma shifted_line_is_annotated_again_witness :
  let w := Samples.w_js in
  let comment := Samples.two_lines in
  let w1 := snd (addCommentToFile (js "a.js") 1 comment Samples.TAG w) in
  addCommentToFile (js "a.js") 1 comment Samples.TAG w = (Ok true, w1)
  /\ exists w2,
       addCommentToFile (js "a.js") 3 comment Samples.TAG w1 = (Ok true, w2)
       /\ content_of w2 (js "a.js") = Some (js "// FLYF-228: first
second
// FLYF-228: first
second
f();").
Proof.
  intros w comment w1.
  assert (E : addCommentToFile (js "a.js") 1 comment Samples.TAG w = (Ok true, w1))
    by (vm_compute; reflexivity).
  split; [exact E|].
  destruct (shifted_line_is_annotated_again _ _ _ _ _ _ E eq_refl)
    as (w2 & old & target & E2 & _).
  exists w2. split; [exact E2|].
  vm_compute in E2. injection E2 as <-. vm_compute. reflexivity.
Defined.

Section BatchTwice.

Implicit Types (w : world) (comment tag : jstr) (entries : FileChanges).

Lemma for_entries_keys_only entries comment tag w q :
  q ∉ entries.*1 ->
  w_fs (snd (for_entries entries comment tag [] w)) !! q = w_fs w !! q.
Proof.
  intros Hq.
  destruct (for_entries_spec entries comment tag w) as (m & w' & E & Hsub & _).
  destruct (for_entries_files entries comment tag w) as (m2 & w2 & E2 & Hm & _).
  rewrite E in E2. injection E2 as <- <-. rewrite E. cbn [snd].
  apply Hm. intros Hin. apply Hq. by eapply elem_of_sublist.
Qed.

(** Run again in a world whose files agree, on the keys, with the world a
    first run left, the batch inserts nothing. *)
Lemma for_entries_twice comment tag :
  is_branch_code tag = true ->
  forall entries, NoDup entries.*1 ->
  forall w v,
    (forall p, p ∈ entries.*1 ->
       w_fs v !! p = w_fs (snd (for_entries entries comment tag [] w)) !! p) ->
    exists v', for_entries entries comment tag [] v = (Ok [], v')
               /\ w_fs v' = w_fs v.
Proof.
  intros Htag. induction entries as [|[p ns] entries IH]; intros Hnd w v Hagree.
  - by exists v.
  - cbn [fmap list_fmap fst] in Hnd. apply NoDup_cons in Hnd as [Hp Hnd].
    cbn [for_entries] in *. destruct ns as [|first rest].
    + apply (IH Hnd w v). intros q Hq. apply Hagree. apply elem_of_cons. by right.
    + unfold bind in *.
      destruct (addCommentToFile_total p first comment tag w) as (ok & wa & Ea).
      rewrite Ea in Hagree.
      assert (Hrest : forall q,
                w_fs (snd (for_entries entries comment tag
                             (if ok then [] ++ [p] else []) wa)) !! q
                = w_fs (snd (for_entries entries comment tag [] wa)) !! q)
        by (intros q; by rewrite for_entries_world).
      assert (Hvp : w_fs v !! p = w_fs wa !! p).
      { rewrite (Hagree p) by (apply elem_of_cons; by left).
        rewrite Hrest. by apply for_entries_keys_only. }
      destruct (addCommentToFile_local p first comment tag v wa Hvp) as [Hfst _].
      pose proof (second_call_false p first comment tag w Htag) as Hsecond.
      rewrite Ea in Hsecond. cbn [snd] in Hsecond. rewrite Hsecond in Hfst.
      destruct (addCommentToFile_total p first comment tag v) as (ok' & v1 & Ev).
      rewrite Ev in Hfst. cbn [fst] in Hfst. injection Hfst as ->.
      destruct (addCommentToFile_files p first comment tag v) as (_ & Hkeep & _).
      rewrite Ev in Hkeep. cbn [fst snd] in Hkeep. specialize (Hkeep eq_refl).
      rewrite Ev.
      destruct (IH Hnd wa v1) as (v' & E' & Hv').
      { intros q Hq. rewrite Hkeep, <- Hrest. apply Hagree.
        apply elem_of_cons. by right. }
      exists v'. split; [exact E' | by rewrite Hv'].
Qed.

End BatchTwice.

(** X7: the batch is idempotent. Run a second time on the same diff, in the
    world the first run left, [addCommentsToDiff] modifies no file: it
    returns the empty list and the file system stays as it is. *)
Theorem addCommentsToDiff_twice diff comment tag w :
  is_branch_code tag = true ->
  exists m1 w1 w2,
    addCommentsToDiff diff comment tag w = (Ok m1, w1)
    /\ addCommentsToDiff diff comment tag w1 = (Ok [], w2)
    /\ w_fs w2 = w_fs w1.
Proof.
  intros Htag. unfold addCommentsToDiff.
  destruct (for_entries_spec (parseDiff diff) comment tag w) as (m1 & w1 & E1 & _).
  assert (Hnd : NoDup (parseDiff diff).*1).
  { unfold parseDiff. apply (scan_keys (split_nl diff) scan0); [by intros f | constructor]. }
  destruct (for_entries_twice comment tag Htag (parseDiff diff) Hnd w w1)
    as (w2 & E2 & Hfs).
  { intros p _. by rewrite E1. }
  by exists m1, w1, w2.
Qed.

Lemma addCommentsToDiff_twice_witness :
  let diff := js "+++ b/a.js
@@ -0,0 +1,1 @@
+f();
" in
  is_branch_code Samples.TAG = true
  /\ exists w1 w2,
       addCommentsToDiff diff (js "note") Samples.TAG Samples.w_js
       = (Ok [js "a.js"], w1)
       /\ addCommentsToDiff diff (js "note") Samples.TAG w1 = (Ok [], w2)
       /\ w_fs w2 = w_fs w1.
Proof.
  intros diff. split; [reflexivity|].
  destruct (addCommentsToDiff_twice diff (js "note") Samples.TAG Samples.w_js eq_refl)
    as (m1 & w1 & w2 & E1 & E2 & Hfs).
  exists w1, w2. split; [|by split].
  rewrite E1. vm_compute in E1. by injection E1 as <- _.
Defined.

(** * Further properties of the diff locator *)

Section NoHeader.

Implicit Types (st : scan) (line : jstr) (lines : list jstr).

(** Without a file header nothing is ever recorded: only the cursor moves,
    at hunk headers. *)
Lemma scan_without_header lines : forall st,
  fileChanges st = [] -> currentFile st = None ->
  Forall (fun l => startsWith l (js "+++ b/") = false) lines ->
  fileChanges (scan_lines st lines) = []
  /\ currentFile (scan_lines st lines) = None.
Proof.
  induction lines as [|line lines IH]; intros st Hm Hf Hall; [done|].
  apply Forall_cons in Hall as [Hl Hall]. rewrite scan_lines_cons.
  apply IH; [| |done]; unfold step; rewrite Hl, Hf;
    destruct (startsWith line (js "@@")); try done;
    by destruct (hunk_start line).
Qed.

End NoHeader.

(** X8: a text without any ["+++ b/"] line (the empty text, blank text,
    another diff format) gives the empty map, whatever hunk headers and
    ['+'] lines it holds. *)
Theorem parseDiff_without_file_header diff :
  Forall (fun l => startsWith l (js "+++ b/") = false) (split_nl diff) ->
  parseDiff diff = [].
Proof.
  intros Hall. unfold parseDiff.
  by destruct (scan_without_header (split_nl diff) scan0 eq_refl eq_refl Hall).
Qed.

Lemma parseDiff_without_file_header_witness :
  let diff := js "--- a.js
+++ a.js
@@ -1,1 +1,2 @@
 f();
+g();" in
  Forall (fun l => startsWith l (js "+++ b/") = false) (split_nl diff)
  /\ parseDiff diff = [].
Proof.
  intros diff.
  assert (H : Forall (fun l => startsWith l (js "+++ b/") = false) (split_nl diff)).
  { apply Forall_forall. intros l Hl. vm_compute in Hl.
    repeat (apply elem_of_cons in Hl as [->|Hl]; [vm_compute; reflexivity|]).
    by apply elem_of_nil in Hl. }
  split; [exact H | exact (parseDiff_without_file_header diff H)].
Defined.

Section Numbers.

(** Up to [2^53] the Number of an integer is the integer. *)
Lemma to_number_exact z : z <= MAX_SAFE_INTEGER + 1 -> to_number z = z.
Proof.
  intros Hz. unfold to_number.
  destruct (z <=? MAX_SAFE_INTEGER) eqn:E; [done|].
  apply Z.leb_gt in E. unfold MAX_SAFE_INTEGER in *.
  assert (z = 9007199254740992) as -> by lia. vm_compute; reflexivity.
Qed.

Lemma incr_exact x : x <= MAX_SAFE_INTEGER -> incr x = x + 1.
Proof. intros Hx. unfold incr. apply to_number_exact. lia. Qed.

Lemma advanced_exact c k :
  c + Z.of_nat k <= MAX_SAFE_INTEGER + 1 -> advanced c k = c + Z.of_nat k.
Proof.
  unfold advanced. induction k as [|k IH]; intros Hk;
    cbn [Nat.iter nat_rect]; [lia|].
  change (nat_rect _ c (fun _ => incr) k) with (Nat.iter k incr c).
  rewrite IH by lia. rewrite incr_exact by lia. lia.
Qed.

Lemma advanced_incr c k : advanced (incr c) k = advanced c (S k).
Proof. unfold advanced. by rewrite Nat.iter_succ_r. Qed.

End Numbers.

Section Between.

Implicit Types (st : scan) (line : jstr) (body : list jstr) (f : jstr).

Lemma addition_advances line : is_addition line = true -> advances line = true.
Proof.
  unfold is_addition, advances. intros [Hp _]%andb_prop.
  destruct (plus_not_hunk line Hp) as [-> ->]. done.
Qed.

Lemma in_default (x : Z) (o : option (list Z)) :
  x ∈ default [] o -> exists ns, o = Some ns /\ x ∈ ns.
Proof. destruct o as [ns|]; [by exists ns | by intros ?%elem_of_nil]. Qed.

(** One line between two headers, for a state with a current file. *)
Lemma step_between st f line :
  currentFile st = Some f -> truthy f = true -> between_line line = true ->
  currentFile (step st line) = Some f
  /\ currentLineNumber (step st line)
     = (if advances line then incr (currentLineNumber st)
        else currentLineNumber st)
  /\ default [] (map_get (fileChanges (step st line)) f)
     = default [] (map_get (fileChanges st) f)
       ++ (if is_addition line then [currentLineNumber st] else []).
Proof.
  intros Hf Ht Hl. unfold between_line in Hl.
  apply andb_prop in Hl as [H1 H2]. apply negb_true_iff in H1.
  unfold advances, is_addition.
  destruct (startsWith line (js "@@")) eqn:Hh.
  { cbn [negb orb] in H2. destruct (hunk_start line) eqn:Hs; [done|].
    rewrite (step_bad_hunk st line Hh Hs), andb_false_r.
    assert (Hp : startsWith line (js "+") = false)
      by (by apply (first_char line 64%N); [apply (startsWith_first line 64%N [64%N])|..]).
    rewrite Hp. cbn [andb]. by rewrite app_nil_r. }
  destruct (startsWith line (js "-")) eqn:Hm.
  { rewrite (step_removal st f line Hf Hm).
    destruct (minus_not_header line Hm) as (_ & _ & ->).
    cbn [negb andb]. by rewrite app_nil_r. }
  cbn [negb andb].
  destruct (startsWith line (js "+") && negb (startsWith line (js "+++"))) eqn:Ha.
  - apply andb_prop in Ha as [Hp Hn]. apply negb_true_iff in Hn.
    rewrite (step_addition st f line Hf Ht Hp Hn).
    cbn [currentFile currentLineNumber fileChanges]. by rewrite map_get_set.
  - rewrite (step_context st f line Hf Ht H1 Hh Hm).
    + cbn [currentFile currentLineNumber fileChanges]. by rewrite app_nil_r.
    + apply andb_false_iff in Ha as [Ha|Ha]; [by left|].
      right. by apply negb_false_iff in Ha.
Qed.

(** The lines between two headers move the cursor once for each line that
    advances it, and only add to the sequence of the current file. *)
Lemma scan_between body : forall st f,
  currentFile st = Some f -> truthy f = true ->
  Forall (fun l => between_line l = true) body ->
  currentFile (scan_lines st body) = Some f
  /\ currentLineNumber (scan_lines st body)
     = advanced (currentLineNumber st) (advance_count body)
  /\ exists more,
       default [] (map_get (fileChanges (scan_lines st body)) f)
       = default [] (map_get (fileChanges st) f) ++ more.
Proof.
  induction body as [|line body IH]; intros st f Hf Ht Hall.
  - split; [done|]. split; [done|]. exists []. by rewrite app_nil_r.
  - apply Forall_cons in Hall as [Hl Hall]. rewrite scan_lines_cons.
    destruct (step_between st f line Hf Ht Hl) as (Hf' & Hc' & Hm').
    destruct (IH (step st line) f Hf' Ht Hall) as (Hf2 & Hc2 & more & Hm2).
    split; [done|]. split.
    + rewrite Hc2, Hc'. unfold advance_count. cbn [List.filter].
      destruct (advances line); [|done]. cbn [length]. apply advanced_incr.
    + eexists. rewrite Hm2, Hm', <- app_assoc. done.
Qed.

(** An addition between two headers is recorded at the cursor the lines
    before it have advanced, and the number stays for the rest of them. *)
Lemma recorded_between st f body i added :
  currentFile st = Some f -> truthy f = true ->
  Forall (fun l => between_line l = true) body ->
  body !! i = Some added -> is_addition added = true ->
  let v := advanced (currentLineNumber st) (advance_count (take i body)) in
  default [] (map_get (fileChanges (scan_lines st (take i body ++ [added]))) f)
  = default [] (map_get (fileChanges (scan_lines st (take i body))) f) ++ [v]
  /\ v ∈ default [] (map_get (fileChanges (scan_lines st body)) f).
Proof.
  intros Hf Ht Hall Hi Ha v.
  assert (Hl : between_line added = true).
  { rewrite Forall_lookup in Hall. by apply (Hall i). }
  destruct (scan_between (take i body) st f Hf Ht (Forall_take _ _ _ Hall))
    as (Hf1 & Hc1 & _).
  destruct (step_between _ f added Hf1 Ht Hl) as (Hf2 & _ & Hm2).
  rewrite Ha, Hc1 in Hm2. fold v in Hm2.
  assert (E1 : scan_lines st (take i body ++ [added])
               = step (scan_lines st (take i body)) added).
  { unfold scan_lines. by rewrite fold_left_app. }
  split; [by rewrite E1|].
  assert (E2 : scan_lines st body
               = scan_lines (step (scan_lines st (take i body)) added)
                   (drop (S i) body)).
  { rewrite <- (take_drop_middle body i added Hi) at 1.
    unfold scan_lines. by rewrite fold_left_app. }
  destruct (scan_between (drop (S i) body) _ f Hf2 Ht (Forall_drop _ _ _ Hall))
    as (_ & _ & more & Hm3).
  rewrite E2, Hm3, Hm2. apply elem_of_app. left. apply elem_of_app. right.
  by apply list_elem_of_singleton.
Qed.

Lemma hunk_line_between line : hunk_line line = true -> between_line line = true.
Proof.
  unfold hunk_line, between_line. intros [-> ->]%andb_prop. done.
Qed.

Lemma hunk_line_advances line :
  hunk_line line = true -> advances line = negb (startsWith line (js "-")).
Proof.
  unfold hunk_line, advances. intros [_ ->]%andb_prop. by rewrite andb_true_r.
Qed.

End Between.

(** X9: inside a hunk of a file, the number recorded for an added line is
    the cursor at the start of the hunk body advanced once for each line
    before it that is not a removal: the cursor plus their number while that
    is at most [MAX_SAFE_INTEGER]. Removals do not count, and the number is
    still in the file's sequence at the end of the body. *)
Theorem added_line_number st f body i line :
  currentFile st = Some f ->
  truthy f = true ->
  Forall (fun l => hunk_line l = true) body ->
  body !! i = Some line ->
  is_addition line = true ->
  let k := length (List.filter (fun l => negb (startsWith l (js "-")))
                     (take i body)) in
  (exists ns,
     map_get (fileChanges (scan_lines st body)) f = Some ns
     /\ advanced (currentLineNumber st) k ∈ ns)
  /\ (currentLineNumber st + Z.of_nat k <= MAX_SAFE_INTEGER ->
      advanced (currentLineNumber st) k = currentLineNumber st + Z.of_nat k).
Proof.
  intros Hf Ht Hall Hi Ha k.
  assert (Hb : Forall (fun l => between_line l = true) body).
  { eapply Forall_impl; [exact Hall|]. apply hunk_line_between. }
  assert (Hk : advance_count (take i body) = k).
  { unfold advance_count, k. clear -Hall. f_equal.
    apply Forall_take with (n := i) in Hall.
    induction Hall as [|l ls Hl _ IH]; [done|]. cbn [List.filter].
    by rewrite (hunk_line_advances l Hl), IH. }
  destruct (recorded_between st f body i line Hf Ht Hb Hi Ha) as [_ Hin].
  rewrite Hk in Hin. split; [by apply in_default|].
  intros Hle. apply advanced_exact. lia.
Qed.

Lemma added_line_number_witness :
  let st := scan_lines scan0 [js "+++ b/a.js"; js "@@ -4,3 +7,4 @@"] in
  let body := [js " keep"; js "-old"; js "-older"; js "+new"; js " keep"] in
  (currentFile st = Some (js "a.js") /\ currentLineNumber st = 7
   /\ body !! 3%nat = Some (js "+new"))
  /\ (exists ns,
        map_get (fileChanges (scan_lines st body)) (js "a.js") = Some ns
        /\ advanced 7 1 ∈ ns)
  /\ advanced 7 1 = 8.
Proof.
  intros st body. split; [by repeat split|].
  destruct (added_line_number st (js "a.js") body 3 (js "+new")) as [H1 H2];
    [reflexivity | reflexivity | | reflexivity | reflexivity |].
  - apply Forall_forall. intros l Hl. vm_compute in Hl.
    repeat (apply elem_of_cons in Hl as [->|Hl]; [vm_compute; reflexivity|]).
    by apply elem_of_nil in Hl.
  - split; [exact H1|]. apply H2. vm_compute. discriminate.
Defined.

(** X10: when a path has a ["+++ b/"] header in a diff, every number in its
    sequence was recorded at an added line that comes after that header:
    what was recorded for the path before the header is discarded. *)
Theorem file_header_discards_earlier_lines before header after ns n :
  startsWith header (js "+++ b/") = true ->
  map_get (fileChanges (scan_lines scan0 (before ++ header :: after)))
    (substring header 6) = Some ns ->
  n ∈ ns ->
  exists i line,
    after !! i = Some line /\ is_addition line = true
    /\ currentLineNumber (scan_lines scan0 (before ++ header :: take i after)) = n.
Proof.
  intros Hh Hg Hn.
  assert (E : forall l, scan_lines scan0 (before ++ header :: l)
                        = scan_lines (step (scan_lines scan0 before) header) l).
  { intros l. unfold scan_lines. by rewrite fold_left_app. }
  rewrite E in Hg.
  destruct (scan_records after _ _ ns n Hg Hn)
    as [(ns0 & Hg0 & Hn0)|(i & line & Hl & Ha & _ & Hc)].
  - rewrite (step_header _ header Hh) in Hg0. cbn [fileChanges] in Hg0.
    rewrite map_get_set in Hg0. injection Hg0 as <-. by apply elem_of_nil in Hn0.
  - exists i, line. by rewrite E.
Qed.

Lemma file_header_discards_earlier_lines_witness :
  let before := [js "+++ b/a.js"; js "@@ -1,0 +3,1 @@"; js "+early"] in
  let after := [js "@@ -8,0 +9,1 @@"; js "+late"] in
  map_get (fileChanges (scan_lines scan0 before)) (js "a.js") = Some [3]
  /\ map_get (fileChanges (scan_lines scan0 (before ++ js "+++ b/a.js" :: after)))
       (js "a.js") = Some [9]
  /\ exists i line,
       after !! i = Some line /\ is_addition line = true
       /\ currentLineNumber
            (scan_lines scan0 (before ++ js "+++ b/a.js" :: take i after)) = 9.
Proof.
  intros before after. split; [reflexivity|].
  assert (Hg : map_get (fileChanges (scan_lines scan0
                 (before ++ js "+++ b/a.js" :: after))) (js "a.js") = Some [9])
    by (vm_compute; reflexivity).
  split; [exact Hg|].
  apply (file_header_discards_earlier_lines before (js "+++ b/a.js") after [9] 9);
    [reflexivity | exact Hg | apply elem_of_cons; by left].
Defined.

(** ** Hunk headers as git prints them *)

Section Decimal.

Lemma pretty_N_char_code (y : N) :
  (y < 10)%N -> N_of_ascii (pretty_N_char y) = (48 + y)%N.
Proof.
  intros Hy.
  assert (H : (y = 0 \/ y = 1 \/ y = 2 \/ y = 3 \/ y = 4 \/ y = 5 \/ y = 6
               \/ y = 7 \/ y = 8 \/ y = 9)%N) by lia.
  destruct H as [->|[->|[->|[->|[->|[->|[->|[->|[->| ->]]]]]]]]]; reflexivity.
Qed.

Lemma digits_value_snoc (ds : jstr) (d : N) :
  digits_value (ds ++ [d]) = 10 * digits_value ds + (Z.of_N d - 48).
Proof. unfold digits_value. by rewrite fold_left_app. Qed.

(** The digits [pretty_N_go] puts in front of a text. *)
Lemma pretty_N_go_digits (x : N) : forall s,
  exists ds,
    js (pretty_N_go x s) = ds ++ js s
    /\ Forall (fun d => is_digit d = true) ds
    /\ digits_value ds = Z.of_N x
    /\ ((0 < x)%N -> ds <> []).
Proof.
  induction (N.lt_wf_0 x) as [x _ IH]; intros s.
  destruct (decide (x = 0%N)) as [->|Hx].
  - exists []. rewrite pretty_N_go_0. repeat split; [constructor | lia].
  - rewrite pretty_N_go_step by lia.
    destruct (IH (x `div` 10)%N ltac:(apply N.div_lt; lia)
                (String (pretty_N_char (x `mod` 10)) s))
      as (ds & E & Hd & Hv & _).
    assert (Hm : (x `mod` 10 < 10)%N) by (apply N.mod_lt; lia).
    exists (ds ++ [(48 + x `mod` 10)%N]). repeat split.
    + rewrite E. change (js (String ?a ?t)) with (N_of_ascii a :: js t).
      rewrite pretty_N_char_code by done. by rewrite <- app_assoc.
    + apply Forall_app. split; [done|]. repeat constructor.
      unfold is_digit. apply andb_true_intro. split; apply N.leb_le; clear - Hm; generalize dependent (x `mod` 10)%N; intros; lia.
    + rewrite digits_value_snoc, Hv.
      pose proof (N.div_mod x 10 ltac:(lia)). lia.
    + intros _. by destruct ds.
Qed.

(** The decimal text of a natural number: digits, and it reads back. *)
Lemma num_digits (n : Z) :
  0 <= n ->
  num n <> [] /\ Forall (fun d => is_digit d = true) (num n)
  /\ digits_value (num n) = n.
Proof.
  intros Hn. unfold num, pretty, pretty_Z.
  destruct n as [|p|p]; [by repeat constructor | | lia].
  unfold pretty, pretty_positive, pretty, pretty_N.
  rewrite decide_False by done.
  destruct (pretty_N_go_digits (N.pos p) "") as (ds & E & Hd & Hv & Hne).
  change (js "") with (@nil N) in E. rewrite app_nil_r in E. rewrite E.
  split; [by apply Hne|]. split; [done|]. by rewrite Hv.
Qed.

End Decimal.

Section RunOnText.

Context {R : Type}.
Implicit Types (k : pos -> caps -> option R) (c : caps) (t : jstr) (i : nat).
Implicit Types (st : pos).

Lemma run_Seq r1 r2 st c k :
  run (Seq r1 r2) st c k = run r1 st c (fun st1 c1 => run r2 st1 c1 k).
Proof. done. Qed.

Lemma run_Lit l : forall i t c k,
  run (Lit l) (i, l ++ t) c k = k ((i + length l)%nat, t) c.
Proof.
  induction l as [|a l IH]; intros i t c k.
  - cbn. by rewrite Nat.add_0_r.
  - change (Lit (a :: l)) with (Seq (Chr (N.eqb a)) (Lit l)).
    cbn [run app fst snd]. rewrite N.eqb_refl, IH. cbn [length].
    by replace (S i + length l)%nat with (i + S (length l))%nat by lia.
Qed.

Lemma leading_stop p ds t :
  Forall (fun d => p d = true) ds -> stops p t -> leading p (ds ++ t) = ds.
Proof.
  induction 1 as [|d ds Hd _ IH]; intros Ht; cbn [app leading].
  - destruct t as [|d t]; [done|]. cbn [leading]. cbn in Ht. by rewrite Ht.
  - by rewrite Hd, IH.
Qed.

Lemma run_Star_chr p ds t i c k x :
  Forall (fun d => p d = true) ds -> stops p t ->
  k ((i + length ds)%nat, t) c = Some x ->
  run (Star (Chr p)) (i, ds ++ t) c k = Some x.
Proof.
  intros Hds Ht Hk.
  change (run (Star (Chr p)) (i, ds ++ t) c k)
    with (star_loop (run (Chr p)) k (length (ds ++ t)) (i, ds ++ t) c).
  rewrite star_chr_greedy; rewrite ?leading_stop by done;
    rewrite ?drop_app_length; [done | lia | by rewrite Hk].
Qed.

Lemma run_Plus_chr p ds t i c k x :
  ds <> [] -> Forall (fun d => p d = true) ds -> stops p t ->
  k ((i + length ds)%nat, t) c = Some x ->
  run (Plus (Chr p)) (i, ds ++ t) c k = Some x.
Proof.
  intros Hne Hds Ht Hk. destruct ds as [|d ds]; [done|].
  apply Forall_cons in Hds as [Hd Hds].
  unfold Plus. rewrite run_Seq. cbn [run app fst snd]. rewrite Hd.
  apply run_Star_chr; [done | done |].
  cbn [length] in Hk. by replace (S i + length ds)%nat with (i + S (length ds))%nat by lia.
Qed.

Lemma run_Opt_chr_take p d t i c k x :
  p d = true -> k (S i, t) c = Some x ->
  run (Opt (Chr p)) (i, d :: t) c k = Some x.
Proof.
  intros Hd Hk. cbn [run fst snd]. rewrite Hd. unfold progress. cbn [snd length].
  rewrite (proj2 (Nat.ltb_lt _ _)) by lia. by rewrite Hk.
Qed.

Lemma run_Opt_chr_skip p t i c k x :
  stops p t -> k (i, t) c = Some x ->
  run (Opt (Chr p)) (i, t) c k = Some x.
Proof.
  intros Ht Hk. cbn [run fst snd]. destruct t as [|d t]; [done|].
  cbn in Ht. by rewrite Ht.
Qed.

End RunOnText.

Section HunkHeader.

Context {R : Type}.
Implicit Types (k : pos -> caps -> option R) (c : caps) (t : jstr) (i : nat).
Implicit Types (rest : re).

Lemma run_Lit_then l rest i t c k :
  run (Seq (Lit l) rest) (i, l ++ t) c k = run rest ((i + length l)%nat, t) c k.
Proof. by rewrite run_Seq, run_Lit. Qed.

Lemma run_digits_then ds rest i t c k x :
  ds <> [] -> Forall (fun d => is_digit d = true) ds -> stops is_digit t ->
  run rest ((i + length ds)%nat, t) c k = Some x ->
  run (Seq (Plus (Chr is_digit)) rest) (i, ds ++ t) c k = Some x.
Proof. intros Hne Hds Ht Hk. rewrite run_Seq. by apply run_Plus_chr. Qed.

(** The captured digits are the whole run. *)
Lemma run_group_then n ds rest i t c k x :
  ds <> [] -> Forall (fun d => is_digit d = true) ds -> stops is_digit t ->
  run rest ((i + length ds)%nat, t) ((n, ds) :: c) k = Some x ->
  run (Seq (Grp n (Plus (Chr is_digit))) rest) (i, ds ++ t) c k = Some x.
Proof.
  intros Hne Hds Ht Hk. rewrite run_Seq.
  change (run (Grp n (Plus (Chr is_digit))) (i, ds ++ t) c
            (fun st1 c1 => run rest st1 c1 k))
    with (run (Plus (Chr is_digit)) (i, ds ++ t) c
            (fun st1 c1 => run rest st1 ((n, take (fst st1 - i) (ds ++ t)) :: c1) k)).
  apply run_Plus_chr; [done | done | done |]. cbn [fst].
  replace (i + length ds - i)%nat with (length ds) by lia.
  by rewrite take_app_length.
Qed.

(** The optional comma and the digits of the count of a range. *)
Lemma run_count_then (count : option Z) rest i t c k x :
  (forall n, count = Some n -> 0 <= n) ->
  stops is_digit t -> stops (N.eqb 44) t ->
  run rest ((i + length (count_text count))%nat, t) c k = Some x ->
  run (Seq (Opt (Chr (N.eqb 44))) (Seq (Star (Chr is_digit)) rest))
    (i, count_text count ++ t) c k = Some x.
Proof.
  intros Hn Hd Hc Hk. rewrite run_Seq. destruct count as [n|]; cbn [count_text] in *.
  - destruct (num_digits n (Hn n eq_refl)) as (_ & Hds & _).
    change (js "," ++ num n) with (44%N :: num n) in *.
    cbn [app length] in *.
    apply run_Opt_chr_take; [done|]. rewrite run_Seq.
    apply run_Star_chr; [done | done |].
    by replace (S i + length (num n))%nat with (i + S (length (num n)))%nat by lia.
  - cbn [app length] in *. rewrite Nat.add_0_r in Hk.
    apply run_Opt_chr_skip; [done|]. rewrite run_Seq.
    apply (run_Star_chr is_digit [] t); [constructor | done |].
    cbn [length]. by rewrite Nat.add_0_r.
Qed.

End HunkHeader.

(** The new-start read from a hunk header as git prints it. *)
Lemma hunk_start_text old_start old_count new_start new_count section_text :
  0 <= old_start -> 0 <= new_start ->
  (forall n, old_count = Some n -> 0 <= n) ->
  (forall n, new_count = Some n -> 0 <= n) ->
  hunk_start (hunk_header_text old_start old_count new_start new_count section_text)
  = Some (to_number new_start).
Proof.
  intros Ha Hc Hb Hd.
  destruct (num_digits old_start Ha) as (Ha1 & Ha2 & _).
  destruct (num_digits new_start Hc) as (Hc1 & Hc2 & Hc3).
  set (tail3 := js " @@" ++ section_text).
  set (tail2 := js " +" ++ num new_start ++ count_text new_count ++ tail3).
  assert (Hrun : exists st,
            run HUNK_HEADER
              (O, hunk_header_text old_start old_count new_start new_count section_text)
              [] (fun st c => Some (st, c))
            = Some (st, [(1%nat, num new_start)])).
  { eexists. unfold HUNK_HEADER, seqs, hunk_header_text. cbn [fold_right].
    fold tail3. fold tail2.
    rewrite run_Lit_then.
    apply run_digits_then; [done | done | by destruct old_count |].
    apply (run_count_then old_count _ _ tail2); [done | done | done |].
    unfold tail2. rewrite run_Lit_then.
    apply run_group_then; [done | done | by destruct new_count |].
    apply (run_count_then new_count _ _ tail3); [done | done | done |].
    unfold tail3. rewrite run_Lit_then. reflexivity. }
  destruct Hrun as (st & Hrun).
  unfold hunk_start, exec. rewrite search_unfold, Hrun.
  unfold group. cbn [m_caps List.find fst snd Nat.eqb fmap option_fmap option_map default].
  unfold id, parseInt10. by rewrite Hc3.
Qed.

(** X11: a hunk header as git prints it, ["@@ -a,b +c,d @@"] with or without
    the counts and with any text after it, gives the Number of its new-start
    [c]: [c] itself up to [MAX_SAFE_INTEGER], a rounded value above it. *)
Theorem hunk_start_of_header old_start old_count new_start new_count section_text :
  0 <= old_start -> 0 <= new_start ->
  (forall n, old_count = Some n -> 0 <= n) ->
  (forall n, new_count = Some n -> 0 <= n) ->
  hunk_start (hunk_header_text old_start old_count new_start new_count section_text)
  = Some (to_number new_start)
  /\ (new_start <= MAX_SAFE_INTEGER ->
      hunk_start (hunk_header_text old_start old_count new_start new_count
                    section_text)
      = Some new_start).
Proof.
  intros Ha Hc Hb Hd.
  rewrite (hunk_start_text old_start old_count new_start new_count section_text)
    by done.
  split; [done|]. intros Hle. rewrite to_number_exact; [done | lia].
Qed.

Lemma hunk_start_of_header_witness :
  hunk_header_text 10 (Some 5) 12 (Some 6) (js " function f() {")
  = js "@@ -10,5 +12,6 @@ function f() {"
  /\ hunk_start (js "@@ -10,5 +12,6 @@ function f() {") = Some 12
  /\ hunk_start (hunk_header_text 1 None 9007199254740993 None [])
     = Some 9007199254740992.
Proof.
  assert (E : hunk_header_text 10 (Some 5) 12 (Some 6) (js " function f() {")
              = js "@@ -10,5 +12,6 @@ function f() {") by (vm_compute; reflexivity).
  split; [exact E|]. split.
  - rewrite <- E.
    apply hunk_start_of_header;
      [lia | lia | by intros n [= <-] | by intros n [= <-] | vm_compute; discriminate].
  - destruct (hunk_start_of_header 1 None 9007199254740993 None [])
      as [H _]; [lia | lia | done | done |].
    rewrite H. vm_compute; reflexivity.
Defined.

(** * Further properties of the branch parser *)

Section Leftmost.

Implicit Types (r : re) (s before t : jstr).

(** The search never starts before its first index. *)
Lemma search_from r : forall s i m,
  search r i s = Some m -> (i <= m_index m)%nat.
Proof.
  intros s i m Hs. apply search_sound in Hs as (before & rest & _ & -> & _). lia.
Qed.

(** The search finds the first index at which the pattern can match. *)
Lemma search_first r : forall before i t st' m,
  matches r ((i + length before)%nat, t) st' ->
  search r i (before ++ t) = Some m ->
  (m_index m <= i + length before)%nat.
Proof.
  induction before as [|x before IH]; intros i t st' m Hm Hs.
  - cbn [app length] in *. rewrite Nat.add_0_r in *.
    assert (Hr : is_Some (run r (i, t) [] (fun st c => Some (st, c))))
      by (eapply run_complete; [eassumption | by eexists]).
    destruct Hr as [[st c] Hr]. rewrite search_unfold, Hr in Hs.
    injection Hs as <-. done.
  - cbn [app length] in *. rewrite search_unfold in Hs.
    destruct (run r (i, x :: before ++ t) [] (fun st c => Some (st, c)))
      as [[st c]|].
    + injection Hs as <-. cbn [m_index]. lia.
    + replace (i + S (length before))%nat with (S i + length before)%nat in * by lia.
      by apply (IH (S i) t st' m).
Qed.

Lemma is_branch_code_length code : is_branch_code code = true -> length code = 8%nat.
Proof.
  unfold is_branch_code.
  by destruct code as [|f [|l [|y [|u [|h [|d1 [|d2 [|d3 [|? ?]]]]]]]]].
Qed.

Lemma is_branch_code_F code :
  is_branch_code code = true -> 70%N ∈ code.
Proof.
  unfold is_branch_code.
  destruct code as [|f [|l [|y [|u [|h [|d1 [|d2 [|d3 [|? ?]]]]]]]]]; try done.
  intros H. repeat (apply andb_prop in H as [H _]).
  apply N.eqb_eq in H as ->. apply elem_of_cons. by left.
Qed.

(** What a successful search for a branch code returns. *)
Lemma exec_branch_code b m :
  exec BRANCH_CODE_REGEX b = Some m ->
  exists before rest,
    b = before ++ m_text m ++ rest
    /\ m_index m = length before
    /\ is_branch_code (m_text m) = true.
Proof.
  intros E. apply search_sound in E as (before & rest & Eb & Ei & Hm).
  apply BRANCH_CODE_REGEX_shape in Hm as (code & Ec & _ & Hcode).
  cbn [snd] in Ec. apply app_inv_tail in Ec as <-.
  by exists before, rest.
Qed.

(** A name that holds a branch code is not blank. *)
Lemma code_not_blank b before code rest :
  b = before ++ code ++ rest -> is_branch_code code = true ->
  negb (truthy b) || negb (truthy (trim b)) = false.
Proof.
  intros Eb Hcode.
  assert (HF : 70%N ∈ b).
  { rewrite Eb. apply elem_of_app. right. apply elem_of_app. left.
    by apply is_branch_code_F. }
  assert (Ht : truthy b = true).
  { destruct b; [by apply elem_of_nil in HF | done]. }
  by rewrite Ht, (trim_nonblank 70%N b HF eq_refl).
Qed.

(** A text that starts with a branch code gives that code. *)
Lemma extract_prefixed code rest :
  is_branch_code code = true ->
  extractBranchCode (code ++ rest)
  = {| branchCode := Some code; isValid := true; branchName := code ++ rest;
       error := None |}.
Proof.
  intros Hc. unfold extractBranchCode.
  rewrite (code_not_blank (code ++ rest) [] code rest eq_refl Hc).
  destruct (is_branch_code_matches code O rest Hc) as [j Hm].
  destruct (search_complete BRANCH_CODE_REGEX [] O (code ++ rest) (j, rest) Hm)
    as [m E].
  cbn [app] in E. unfold exec. rewrite E.
  pose proof (search_first BRANCH_CODE_REGEX [] O (code ++ rest) (j, rest) m Hm E)
    as Hle.
  destruct (exec_branch_code (code ++ rest) m E) as (before & rest' & Eb & Ei & Hc').
  cbn [length] in Hle. destruct before as [|x before]; [|cbn [length] in Ei; lia].
  cbn [app] in Eb.
  assert (Em : m_text m = code).
  { apply (f_equal (take 8)) in Eb.
    rewrite <- (is_branch_code_length code Hc) in Eb at 1.
    rewrite <- (is_branch_code_length (m_text m) Hc') in Eb.
    by rewrite !take_app_length in Eb. }
  by rewrite Em.
Qed.

End Leftmost.

(** X12: the validator is not anchored: it accepts exactly the strings that
    hold a branch code somewhere, not only the strings that are one. *)
Theorem isValidBranchCode_contains s :
  isValidBranchCode s = true <->
  exists before code rest,
    s = before ++ code ++ rest /\ is_branch_code code = true.
Proof.
  unfold isValidBranchCode, test. split.
  - destruct (exec BRANCH_CODE_REGEX s) as [m|] eqn:E; [|done]. intros _.
    apply exec_branch_code in E as (before & rest & Es & _ & Hc).
    by exists before, (m_text m), rest.
  - intros (before & code & rest & -> & Hc).
    destruct (is_branch_code_matches code (length before) rest Hc) as [j Hm].
    unfold exec.
    by destruct (search_complete BRANCH_CODE_REGEX before O (code ++ rest) (j, rest) Hm)
      as [m ->].
Qed.

Lemma isValidBranchCode_contains_witness :
  isValidBranchCode (js "feature/FLYF-228-test-branch") = true
  /\ is_branch_code (js "feature/FLYF-228-test-branch") = false.
Proof.
  split; [|reflexivity].
  apply isValidBranchCode_contains.
  exists (js "feature/"), (js "FLYF-228"), (js "-test-branch").
  split; reflexivity.
Defined.

(** X13: the validator and the extractor agree on every string: the emptiness
    guard of the extractor never rejects a name that holds a code. *)
Theorem isValidBranchCode_agrees s :
  isValidBranchCode s = isValid (extractBranchCode s).
Proof.
  unfold isValidBranchCode, test, extractBranchCode.
  destruct (exec BRANCH_CODE_REGEX s) as [m|] eqn:E.
  - destruct (exec_branch_code s m E) as (before & rest & Es & _ & Hc).
    by rewrite (code_not_blank s before (m_text m) rest Es Hc).
  - by destruct (negb (truthy s) || negb (truthy (trim s))).
Qed.

(** X14: the extracted code is the leftmost branch code of the name. *)
Theorem extractBranchCode_leftmost b code :
  branchCode (extractBranchCode b) = Some code ->
  exists before rest,
    b = before ++ code ++ rest
    /\ is_branch_code code = true
    /\ forall before' code' rest',
         b = before' ++ code' ++ rest' -> is_branch_code code' = true ->
         (length before <= length before')%nat.
Proof.
  unfold extractBranchCode.
  destruct (negb (truthy b) || negb (truthy (trim b))); [done|].
  destruct (exec BRANCH_CODE_REGEX b) as [m|] eqn:E; [|done].
  cbn [branchCode]. intros [= <-].
  destruct (exec_branch_code b m E) as (before & rest & Eb & Ei & Hc).
  exists before, rest. split; [done|]. split; [done|].
  intros before' code' rest' Eb' Hc'.
  destruct (is_branch_code_matches code' (length before') rest' Hc') as [j Hm].
  unfold exec in E. rewrite Eb' in E.
  pose proof (search_first BRANCH_CODE_REGEX before' O (code' ++ rest') (j, rest') m Hm E).
  lia.
Qed.

Lemma extractBranchCode_leftmost_witness :
  let b := js "fix/FLYA-001-after-FLYB-002" in
  branchCode (extractBranchCode b) = Some (js "FLYA-001")
  /\ exists before rest,
       b = before ++ js "FLYA-001" ++ rest
       /\ is_branch_code (js "FLYA-001") = true
       /\ forall before' code' rest',
            b = before' ++ code' ++ rest' -> is_branch_code code' = true ->
            (length before <= length before')%nat.
Proof.
  intros b.
  assert (E : branchCode (extractBranchCode b) = Some (js "FLYA-001"))
    by (vm_compute; reflexivity).
  split; [exact E | exact (extractBranchCode_leftmost b (js "FLYA-001") E)].
Defined.

(** X15: a text that starts with a branch code, such as a commit message
    ["CODE: summary"] or the code itself, gives that code back: extraction
    is idempotent. *)
Theorem extractBranchCode_of_prefixed code rest :
  is_branch_code code = true ->
  extractBranchCode (code ++ rest)
  = {| branchCode := Some code; isValid := true; branchName := code ++ rest;
       error := None |}
  /\ branchCode (extractBranchCode code) = Some code.
Proof.
  intros Hc. split; [by apply extract_prefixed|].
  rewrite <- (app_nil_r code) at 1. by rewrite extract_prefixed.
Qed.

Lemma extractBranchCode_of_prefixed_witness :
  is_branch_code (js "FLYF-228") = true
  /\ branchCode (extractBranchCode (js "FLYF-228" ++ js ": added tests"))
     = Some (js "FLYF-228").
Proof.
  split; [reflexivity|].
  by rewrite (proj1 (extractBranchCode_of_prefixed (js "FLYF-228") (js ": added tests") eq_refl)).
Defined.

Section CommentPattern.

Implicit Types (p : N -> bool) (ws t : jstr) (st : pos).

(** What a starred class consumes: a run of characters of the class. *)
Lemma matches_star_chr p st st' :
  matches (Star (Chr p)) st st' ->
  exists ws,
    snd st = ws ++ snd st' /\ fst st' = (fst st + length ws)%nat
    /\ Forall (fun c => p c = true) ws.
Proof.
  intros Hm. remember (Star (Chr p)) as sr eqn:Esr.
  induction Hm as [| | | | | | r0 st
                  |r0 st st1 st2 Hm1 _ Hp Hm2 IH2|]; try discriminate.
  - exists []. cbn [app length]. split; [done|]. split; [lia | constructor].
  - injection Esr as ->. destruct (IH2 eq_refl) as (ws & E & F & Hws).
    inversion Hm1; subst. cbn [fst snd] in *.
    exists (x :: ws). rewrite E, F. cbn [app length].
    split; [done|]. split; [lia | by constructor].
Qed.

Lemma matches_star_chr_run p ws : forall i t,
  Forall (fun c => p c = true) ws ->
  matches (Star (Chr p)) (i, ws ++ t) ((i + length ws)%nat, t).
Proof.
  induction ws as [|x ws IH]; intros i t Hws; cbn [app length].
  - rewrite Nat.add_0_r. constructor.
  - apply Forall_cons in Hws as [Hx Hws].
    eapply m_star_cons; [by apply m_chr | |].
    + unfold progress. cbn [snd length]. apply Nat.ltb_lt. lia.
    + replace (i + S (length ws))%nat with (S i + length ws)%nat by lia.
      by apply IH.
Qed.

End CommentPattern.

(** X16: a line carries a comment for a code exactly when it holds, anywhere,
    two slashes, then any whitespace, then the code and a colon. The test is
    about the line alone: it does not ask that the comment starts the line,
    nor that it is the line above an addition. *)
Theorem hasExistingComment_shape line code :
  Forall (fun c => is_syntax_char c = false) code ->
  hasExistingComment line code = true <->
  exists before ws rest,
    line = before ++ js "//" ++ ws ++ code ++ js ":" ++ rest
    /\ Forall (fun c => is_space c = true) ws.
Proof.
  intros _. unfold hasExistingComment, test. split.
  - destruct (exec (commentPattern code) line) as [m|] eqn:E; [|done]. intros _.
    apply search_sound in E as (before & rest & El & _ & Hm).
    unfold commentPattern, seqs in Hm. cbn [fold_right] in Hm.
    inversion Hm as [| | |r1 r2 st st1 st4 H1 Hm2| | | | |]; subst. clear Hm.
    inversion Hm2 as [| | |r1 r2 st st2 st4' H2 Hm3| | | | |]; subst. clear Hm2.
    inversion Hm3 as [| | |r1 r2 st st3 st4' H3 Hm4| | | | |]; subst. clear Hm3.
    inversion Hm4 as [| | |r1 r2 st st5 st4' H4 Hm5| | | | |]; subst. clear Hm4.
    inversion Hm5; subst. clear Hm5.
    destruct st1 as [i1 t1], st2 as [i2 t2], st3 as [i3 t3].
    apply (matches_Lit_inv (js "//")) in H1 as [E1 _].
    apply matches_star_chr in H2 as (ws & E2 & _ & Hws).
    apply (matches_Lit_inv code) in H3 as [E3 _].
    apply (matches_Lit_inv (js ":")) in H4 as [E4 _].
    cbn [fst snd] in *.
    exists before, ws, rest. split; [|done].
    by rewrite E1, E2, E3, E4.
  - intros (before & ws & rest & -> & Hws).
    eapply (test_complete _ before).
    unfold commentPattern, seqs. cbn [fold_right].
    eapply m_seq; [apply (matches_Lit (js "//"))|].
    eapply m_seq; [by apply matches_star_chr_run|].
    eapply m_seq; [apply matches_Lit|].
    eapply m_seq; [|apply m_eps].
    exact (matches_Lit (js ":") _ rest).
Qed.

Lemma hasExistingComment_shape_witness :
  Forall (fun c => is_syntax_char c = false) (js "FLYF-228")
  /\ hasExistingComment (js "f(x); //  FLYF-228: done") (js "FLYF-228") = true
  /\ hasExistingComment (js "# FLYF-228: done") (js "FLYF-228") = false.
Proof.
  assert (H : Forall (fun c => is_syntax_char c = false) (js "FLYF-228"))
    by (by apply is_branch_code_literal).
  split; [exact H|]. split; [|reflexivity].
  apply (hasExistingComment_shape _ _ H).
  exists (js "f(x); "), (js "  "), (js " done").
  split; [reflexivity | by repeat constructor].
Defined.

(** * Properties of the commit message generator *)

Section CommitMessage.

Variable toLowerCase : jstr -> jstr.

Implicit Types (b code msg diff : jstr) (input : GenerateCommitInput).

(** What the extractor returns as a code. *)
Lemma extractBranchCode_code b code :
  branchCode (extractBranchCode b) = Some code ->
  isValid (extractBranchCode b) = true
  /\ is_branch_code code = true
  /\ exec BRANCH_CODE_REGEX b
     = Some {| m_index := default O (m_index <$> exec BRANCH_CODE_REGEX b);
               m_text := code;
               m_caps := default [] (m_caps <$> exec BRANCH_CODE_REGEX b) |}.
Proof.
  unfold extractBranchCode.
  destruct (negb (truthy b) || negb (truthy (trim b))); [done|].
  destruct (exec BRANCH_CODE_REGEX b) as [m|] eqn:E; [|done].
  cbn [branchCode isValid]. intros [= <-].
  destruct (exec_branch_code b m E) as (_ & _ & _ & _ & Hc).
  split; [done|]. split; [done|]. by destruct m.
Qed.

(** Without a code the extractor gives one of its two messages. *)
Lemma extractBranchCode_error b :
  isValid (extractBranchCode b) = false ->
  branchCode (extractBranchCode b) = None
  /\ (error (extractBranchCode b) = Some (js "Branch name is empty")
      \/ error (extractBranchCode b)
         = Some (js "No valid branch code found. Expected format: FLY[A-Z]-[0-9]{3}")).
Proof.
  unfold extractBranchCode.
  destruct (negb (truthy b) || negb (truthy (trim b))); [by split; [|left]|].
  destruct (exec BRANCH_CODE_REGEX b); [done|]. by split; [|right].
Qed.

Lemma generateSummary_phrase diff files :
  (length (generateSummary toLowerCase diff files) <= 25)%nat
  /\ has_nl (generateSummary toLowerCase diff files) = false.
Proof.
  unfold generateSummary. cbv zeta.
  repeat match goal with
         | |- context [if ?c then _ else _] => destruct c
         end; (split; [apply Nat.leb_le|]; vm_compute; reflexivity).
Qed.

Lemma generateSummary_in diff files :
  generateSummary toLowerCase diff files ∈ summary_phrases.
Proof.
  unfold generateSummary, summary_phrases. cbv zeta.
  repeat match goal with
         | |- context [if ?c then _ else _] => destruct c
         end; set_solver.
Qed.

Lemma bullets_head items :
  bullets items = [] \/ exists rest, bullets items = NL :: rest.
Proof. destruct items as [|i items]; [by left|]. right. by eexists. Qed.

Lemma first_line_head a rest :
  has_nl a = false -> first_line (a ++ NL :: rest) = a.
Proof.
  intros Ha. unfold first_line. rewrite split_nl_app_nl, split_nl_plain by done.
  done.
Qed.

Lemma first_line_plain a : has_nl a = false -> first_line a = a.
Proof. intros Ha. unfold first_line. by rewrite split_nl_plain. Qed.

End CommitMessage.

(** X17: the summary is one of nine fixed phrases, each on one line and of
    at most 25 characters, so the cut at 30 characters that follows it in
    [generateCommit] never applies. *)
Theorem generateSummary_short toLowerCase diff files :
  generateSummary toLowerCase diff files ∈ summary_phrases
  /\ (length (generateSummary toLowerCase diff files) <= 25)%nat
  /\ has_nl (generateSummary toLowerCase diff files) = false
  /\ (if (30 <? length (generateSummary toLowerCase diff files))%nat
      then take 27 (generateSummary toLowerCase diff files) ++ js "..."
      else generateSummary toLowerCase diff files)
     = generateSummary toLowerCase diff files.
Proof.
  destruct (generateSummary_phrase toLowerCase diff files) as [Hlen Hnl].
  split; [apply generateSummary_in|]. split; [done|]. split; [done|].
  by rewrite (proj2 (Nat.ltb_ge _ _)) by lia.
Qed.

(** X18: a generated commit message leads with the code of the branch: its
    first line is the code, a colon and the summary, uncut, and extracting
    the branch code from the message gives the code of the branch back. *)
Theorem generateCommit_leads_with_code toLowerCase input branch staged msg :
  commitMessage (generateCommit toLowerCase input branch staged) = Some msg ->
  exists b sc code,
    branch = Ok b /\ staged = Ok sc
    /\ branchCode (extractBranchCode b) = Some code
    /\ gc_branchCode (generateCommit toLowerCase input branch staged) = Some code
    /\ first_line msg
       = code ++ js ": " ++ generateSummary toLowerCase (sc_diff sc) (sc_files sc)
    /\ branchCode (extractBranchCode msg) = Some code.
Proof.
  unfold generateCommit.
  destruct branch as [b|e]; [|done].
  destruct (branchCode (extractBranchCode b)) as [code|] eqn:Ec;
    [|by destruct (isValid (extractBranchCode b))].
  destruct (extractBranchCode_code b code Ec) as (-> & Hcode & _).
  destruct (truthy code); [|done].
  destruct staged as [sc|e]; [|done].
  destruct (length (sc_files sc) =? 0)%nat; [done|].
  destruct (generateSummary_phrase toLowerCase (sc_diff sc) (sc_files sc))
    as [Hlen Hnl].
  rewrite (proj2 (Nat.ltb_ge _ _)) by lia.
  set (summary := generateSummary toLowerCase (sc_diff sc) (sc_files sc)) in *.
  cbn [commitMessage gc_branchCode].
  set (head := code ++ js ": " ++ summary).
  assert (Hhead : has_nl head = false).
  { unfold head. rewrite !has_nl_app, Hnl.
    by rewrite (is_branch_code_no_nl code Hcode). }
  assert (Hmsg : forall m, m = head \/ (exists rest, m = head ++ NL :: rest) ->
            first_line m = head
            /\ branchCode (extractBranchCode m) = Some code).
  { intros m [->|[rest ->]].
    - split; [by apply first_line_plain|].
      unfold head. by rewrite extract_prefixed.
    - split; [by apply first_line_head|].
      unfold head. rewrite <- !app_assoc.
      by rewrite extract_prefixed. }
  set (led := fun m => m = head \/ (exists rest, m = head ++ NL :: rest)).
  assert (Hgrow : forall (c : bool) m title items,
            led m ->
            led (if c then m ++ NL :: NL :: title ++ bullets items else m)).
  { intros [] m title items Hm; [|done]. right.
    destruct Hm as [->|[rest ->]]; [by eexists|].
    rewrite <- app_assoc. cbn [app]. by eexists. }
  intros [= <-]. exists b, sc, code.
  split; [done|]. split; [done|]. split; [done|]. split; [done|].
  apply Hmsg. fold (led head) in *.
  apply (Hgrow _ _ (js "Comments:")).
  apply (Hgrow _ _ (js "Limitations:")).
  apply (Hgrow _ _ (js "Issues Addressed:")).
  by left.
Qed.

Lemma generateCommit_leads_with_code_witness :
  let r := generateCommit ascii_lower CommitSamples.all_sections
             (Ok (js "feature/FLYF-228-login")) (Ok CommitSamples.staged_app) in
  exists msg,
    commitMessage r = Some msg
    /\ exists b sc code,
         Ok (js "feature/FLYF-228-login") = Ok b
         /\ Ok CommitSamples.staged_app = Ok sc
         /\ branchCode (extractBranchCode b) = Some code
         /\ gc_branchCode r = Some code
         /\ first_line msg
            = code ++ js ": " ++ generateSummary ascii_lower (sc_diff sc) (sc_files sc)
         /\ branchCode (extractBranchCode msg) = Some code.
Proof.
  intros r.
  assert (H : is_Some (commitMessage r)) by (vm_compute; by eexists).
  destruct (commitMessage r) as [msg|] eqn:E; [|by destruct H].
  exists msg. split; [done|].
  exact (generateCommit_leads_with_code ascii_lower _ _ _ msg E).
Defined.

(** X19: on a branch without a code the generator fails with the message of
    the extractor, one of its two texts and never the fallback
    ["Invalid branch code"], whatever is staged and whatever is asked for. *)
Theorem generateCommit_without_code toLowerCase input b staged :
  isValid (extractBranchCode b) = false ->
  exists e,
    error (extractBranchCode b) = Some e
    /\ generateCommit toLowerCase input (Ok b) staged = commit_failure e
    /\ (e = js "Branch name is empty"
        \/ e = js "No valid branch code found. Expected format: FLY[A-Z]-[0-9]{3}").
Proof.
  intros Hv. destruct (extractBranchCode_error b Hv) as [Hc He].
  unfold generateCommit. rewrite Hv. cbn zeta.
  destruct He as [He|He]; rewrite He; eexists; (split; [done|]); split;
    try done; [by left | by right].
Qed.

Lemma generateCommit_without_code_witness :
  isValid (extractBranchCode (js "main")) = false
  /\ exists e,
       error (extractBranchCode (js "main")) = Some e
       /\ generateCommit ascii_lower CommitSamples.all_sections (Ok (js "main"))
            (Ok CommitSamples.staged_app) = commit_failure e
       /\ (e = js "Branch name is empty"
           \/ e = js "No valid branch code found. Expected format: FLY[A-Z]-[0-9]{3}").
Proof.
  assert (H : isValid (extractBranchCode (js "main")) = false) by reflexivity.
  split; [exact H|].
  exact (generateCommit_without_code ascii_lower _ (js "main") _ H).
Defined.

(** X20: the per-file entries of the issues section come first and the
    section is cut at three: once the files give three entries, the section
    is those three, and the notes on TODO markers and on tests are never
    reported, whatever the diff holds. *)
Theorem generateIssuesAddressed_files_first diff summary :
  (3 <= length (concat (change_issues <$> summary)))%nat ->
  generateIssuesAddressed diff summary = take 3 (concat (change_issues <$> summary))
  /\ length (generateIssuesAddressed diff summary) = 3%nat.
Proof.
  intros Hlen. unfold generateIssuesAddressed. cbv zeta.
  set (issues := concat (change_issues <$> summary)) in *.
  assert (E : forall extra, take 3 (issues ++ extra) = take 3 issues).
  { intros extra. by rewrite take_app_le by lia. }
  assert (E2 : forall extra extra', take 3 ((issues ++ extra) ++ extra') = take 3 issues).
  { intros extra extra'. rewrite <- app_assoc. apply E. }
  assert (Hres :
    take 3
      (if existsb (fun line => includes line (js "test") || includes line (js "spec"))
            (List.filter is_addition (split_nl diff))
       then (if existsb (fun line => includes line (js "TODO") || includes line (js "FIXME"))
                  (List.filter is_addition (split_nl diff))
             then issues ++ [js "Added TODO/FIXME markers for future work"]
             else issues) ++ [js "Added test coverage"]
       else (if existsb (fun line => includes line (js "TODO") || includes line (js "FIXME"))
                  (List.filter is_addition (split_nl diff))
             then issues ++ [js "Added TODO/FIXME markers for future work"]
             else issues))
    = take 3 issues).
  { destruct (existsb _ _), (existsb _ _); by rewrite ?E2, ?E. }
  rewrite Hres. split; [done|]. rewrite length_take. lia.
Qed.

Lemma generateIssuesAddressed_files_first_witness :
  let diff := sc_diff CommitSamples.staged_app in
  (3 <= length (concat (change_issues <$> CommitSamples.two_changes)))%nat
  /\ generateIssuesAddressed diff CommitSamples.two_changes
     = [js "Added 4 line(s) in a.js"; js "Removed 1 line(s) from a.js";
        js "Added 2 line(s) in b.js"]
  /\ generateIssuesAddressed diff []
     = [js "Added TODO/FIXME markers for future work"].
Proof.
  intros diff.
  assert (H : (3 <= length (concat (change_issues <$> CommitSamples.two_changes)))%nat)
    by (vm_compute; lia).
  split; [exact H|]. split; [|vm_compute; reflexivity].
  rewrite (proj1 (generateIssuesAddressed_files_first diff _ H)).
  vm_compute; reflexivity.
Defined.

(** X21: the limitations and the comments sections are never empty and never
    exceed two entries, for every list of changes. *)
Theorem sections_one_or_two summary :
  (1 <= length (generateLimitations summary) <= 2)%nat
  /\ (1 <= length (generateComments summary) <= 2)%nat.
Proof.
  unfold generateLimitations, generateComments. cbv zeta.
  split.
  - destruct (existsb _ summary); destruct (existsb _ summary); cbn; lia.
  - set (totalChanges := fold_left (fun sum s => sum + changes s) summary 0).
    destruct (totalChanges >? 100), (totalChanges <? 5),
      (5 <? length summary)%nat; cbn; lia.
Qed.

(** * Properties of the work log *)

Section Categories.

Variable toLowerCase : jstr -> jstr.

Implicit Types (commit : CommitInfo) (commits : list CommitInfo)
  (acc : Categories).

(** The loop appends to each list the commits of its category, in order. *)
Lemma categorize_fold commits : forall acc,
  fold_left (categorize toLowerCase) commits acc
  = {| features := features acc ++ lines_of (is_feature toLowerCase) commits;
       fixes := fixes acc ++ lines_of (only_fix toLowerCase) commits;
       refactors := refactors acc ++ lines_of (only_refactor toLowerCase) commits;
       others := others acc ++ lines_of (other toLowerCase) commits |}.
Proof.
  induction commits as [|c commits IH]; intros acc.
  - unfold lines_of. cbn. rewrite !app_nil_r. by destruct acc.
  - cbn [fold_left]. rewrite IH. unfold lines_of, categorize.
    cbn [List.filter]. unfold only_fix, only_refactor, other.
    destruct (is_feature toLowerCase c), (is_fix toLowerCase c),
      (is_refactor toLowerCase c);
      cbn [negb andb features fixes refactors others fmap list_fmap];
      by rewrite <- ?app_assoc.
Qed.

Lemma lines_of_sublist select commits :
  sublist (lines_of select commits)
    ((fun c => first_line (ci_message c)) <$> commits).
Proof.
  induction commits as [|c commits IH]; [done|].
  unfold lines_of. cbn [List.filter fmap list_fmap].
  destruct (select c); cbn [fmap list_fmap]; by constructor.
Qed.

Lemma partition_step {A} (x : A) (fs xs rs os all : list A) :
  fs ++ xs ++ rs ++ os ≡ₚ all ->
  (x :: fs) ++ xs ++ rs ++ os ≡ₚ x :: all
  /\ fs ++ (x :: xs) ++ rs ++ os ≡ₚ x :: all
  /\ fs ++ xs ++ (x :: rs) ++ os ≡ₚ x :: all
  /\ fs ++ xs ++ rs ++ x :: os ≡ₚ x :: all.
Proof.
  intros <-. cbn [app]. repeat split; [done | ..];
    by rewrite <- !Permutation_middle.
Qed.

Lemma lines_of_partition commits :
  lines_of (is_feature toLowerCase) commits
  ++ lines_of (only_fix toLowerCase) commits
  ++ lines_of (only_refactor toLowerCase) commits
  ++ lines_of (other toLowerCase) commits
  ≡ₚ (fun c => first_line (ci_message c)) <$> commits.
Proof.
  induction commits as [|c commits IH]; [done|].
  destruct (partition_step (first_line (ci_message c)) _ _ _ _ _ IH)
    as (H1 & H2 & H3 & H4).
  unfold lines_of in *. cbn [List.filter fmap list_fmap].
  unfold only_fix, only_refactor, other in *.
  destruct (is_feature toLowerCase c), (is_fix toLowerCase c),
    (is_refactor toLowerCase c);
    cbn [negb andb fmap list_fmap]; assumption.
Qed.

End Categories.

(** X22: a commit goes to the first category one of whose words its
    lower-cased message holds, features before fixes before refactorings:
    each list holds the first lines of the commits of its category, in the
    order of the commits. *)
Theorem categorizeCommits_by_priority toLowerCase commits :
  categorizeCommits toLowerCase commits
  = {| features := lines_of (is_feature toLowerCase) commits;
       fixes := lines_of (only_fix toLowerCase) commits;
       refactors := lines_of (only_refactor toLowerCase) commits;
       others := lines_of (other toLowerCase) commits |}.
Proof. unfold categorizeCommits. by rewrite categorize_fold. Qed.

(** X23: the four lists partition the commits: together they hold the first
    line of every commit exactly once, each list in the order of the
    commits, so the sizes of the sections add up to the number of commits
    the log prints. *)
Theorem categorizeCommits_partition toLowerCase commits :
  let cats := categorizeCommits toLowerCase commits in
  let all := (fun c => first_line (ci_message c)) <$> commits in
  features cats ++ fixes cats ++ refactors cats ++ others cats ≡ₚ all
  /\ sublist (features cats) all /\ sublist (fixes cats) all
  /\ sublist (refactors cats) all /\ sublist (others cats) all
  /\ (length (features cats) + length (fixes cats) + length (refactors cats)
      + length (others cats) = length commits)%nat.
Proof.
  intros cats all. unfold cats, categorizeCommits.
  rewrite categorize_fold. cbn [features fixes refactors others app].
  pose proof (lines_of_partition toLowerCase commits) as Hp.
  split; [done|]. repeat (split; [by apply lines_of_sublist|]).
  apply Permutation_length in Hp.
  rewrite !length_app in Hp. unfold all in Hp. rewrite length_fmap in Hp. lia.
Qed.

(** X24: the work log needs no branch code and no staged-file listing: when
    the branch name and the commits are read, it succeeds on every branch,
    with the code of the branch or ["N/A"] in its place, also when listing
    the staged files fails. *)
Theorem generateWorkLog_needs_no_code toLowerCase dateStr b commits stagedFiles :
  exists code text,
    generateWorkLog toLowerCase dateStr (Ok b) (Ok commits) stagedFiles
    = {| wl_success := true; workLog := Some text; wl_date := Some dateStr;
         wl_branchCode := Some code; wl_error := None |}
    /\ (if isValid (extractBranchCode b)
        then branchCode (extractBranchCode b) = Some code
             /\ is_branch_code code = true
        else code = js "N/A").
Proof.
  unfold generateWorkLog. cbv zeta.
  destruct (branchCode (extractBranchCode b)) as [code|] eqn:Ec.
  - destruct (extractBranchCode_code b code Ec) as (-> & Hcode & _).
    assert (Ht : truthy code = true).
    { pose proof (is_branch_code_length code Hcode). by destruct code. }
    rewrite Ht. exists code.
    destruct (length commits =? 0)%nat; by eexists.
  - destruct (isValid (extractBranchCode b)) eqn:Hv.
    + exfalso. unfold extractBranchCode in Ec, Hv.
      destruct (negb (truthy b) || negb (truthy (trim b))); [done|].
      by destruct (exec BRANCH_CODE_REGEX b).
    + exists (js "N/A"). destruct (length commits =? 0)%nat; by eexists.
Qed.

(** A day of commits: the second holds a word of the features and one of the
    fixes and goes to the features; of the last only the first line is
    kept. *)
Example day_categories :
  categorizeCommits ascii_lower CommitSamples.day
  = {| features := [js "Add feature flag, fix typo"];
       fixes := [js "Fix login bug"];
       refactors := [js "Improve parser"];
       others := [js "docs"] |}.
Proof. vm_compute; reflexivity. Qed.

(** * The diff locator with the numbers of the source *)

Section Cursor.

Implicit Types (st : scan) (line : jstr) (lines body : list jstr) (f : jstr)
  (m : FileChanges).

Lemma map_get_elem m k v : map_get m k = Some v -> (k, v) ∈ m.
Proof.
  induction m as [|[k' v'] m IH]; cbn [map_get]; [done|].
  case_decide; subst.
  - intros [= ->]. apply elem_of_cons. by left.
  - intros Hg. apply elem_of_cons. right. by apply IH.
Qed.

(** Only a file header changes the current file. *)
Lemma step_current st line :
  currentFile (step st line)
  = if is_header line then Some (substring line 6) else currentFile st.
Proof.
  unfold step, is_header.
  destruct (startsWith line (js "+++ b/")); [done|].
  destruct (startsWith line (js "@@")); [by destruct (hunk_start line)|].
  destruct (file_set (currentFile st) && _ && _); [done|].
  by destruct (file_set (currentFile st) && _).
Qed.

Lemma scan_current lines : forall st,
  currentFile (scan_lines st lines)
  = match last_header lines with
    | Some p => Some p
    | None => currentFile st
    end.
Proof.
  unfold last_header.
  induction lines as [|line lines IH]; intros st; [done|].
  rewrite scan_lines_cons, IH, step_current, headers_cons.
  destruct (is_header line); [|done].
  rewrite last_cons. by destruct (last (headers lines)).
Qed.

(** A number of a path stays in its sequence until a header of the path. *)
Lemma step_keeps st line f ns x :
  map_get (fileChanges st) f = Some ns -> x ∈ ns ->
  (is_header line = true -> substring line 6 <> f) ->
  exists ns', map_get (fileChanges (step st line)) f = Some ns' /\ x ∈ ns'.
Proof.
  intros Hg Hx Hh. unfold step. unfold is_header in Hh.
  destruct (startsWith line (js "+++ b/")).
  { cbn [fileChanges]. rewrite map_get_set_ne by (by apply Hh). by exists ns. }
  destruct (startsWith line (js "@@")); [destruct (hunk_start line); by exists ns|].
  destruct (file_set (currentFile st) && _ && _).
  - cbn [fileChanges].
    destruct (decide (default [] (currentFile st) = f)) as [E|Hne].
    + rewrite E, map_get_set, Hg. cbn [default from_option id].
      eexists. split; [done|]. apply elem_of_app. by left.
    + rewrite map_get_set_ne by done. by exists ns.
  - destruct (file_set (currentFile st) && _); by exists ns.
Qed.

Lemma scan_keeps lines : forall st f ns x,
  map_get (fileChanges st) f = Some ns -> x ∈ ns ->
  Forall (fun l => is_header l = true -> substring l 6 <> f) lines ->
  exists ns', map_get (fileChanges (scan_lines st lines)) f = Some ns' /\ x ∈ ns'.
Proof.
  induction lines as [|line lines IH]; intros st f ns x Hg Hx Hall.
  - by exists ns.
  - apply Forall_cons in Hall as [Hl Hall]. rewrite scan_lines_cons.
    destruct (step_keeps st line f ns x Hg Hx Hl) as (ns1 & Hg1 & Hx1).
    by apply (IH _ f ns1).
Qed.

(** Without a current file the lines between two headers change nothing. *)
Lemma scan_without_current body : forall st,
  file_set (currentFile st) = false ->
  Forall (fun l => between_line l = true) body ->
  scan_lines st body = st.
Proof.
  induction body as [|line body IH]; intros st Hf Hall; [done|].
  apply Forall_cons in Hall as [Hl Hall]. rewrite scan_lines_cons.
  assert (E : step st line = st).
  { unfold between_line in Hl. apply andb_prop in Hl as [H1 H2].
    apply negb_true_iff in H1.
    destruct (startsWith line (js "@@")) eqn:Hh.
    - cbn [negb orb] in H2. destruct (hunk_start line) eqn:Hs; [done|].
      by apply step_bad_hunk.
    - by apply step_without_file. }
  rewrite E. by apply IH.
Qed.

Lemma body_line_between line : body_line line = true -> between_line line = true.
Proof.
  unfold body_line, between_line.
  intros Hb. apply orb_true_iff in Hb as [Hb|[H1 H2]%andb_prop];
    [apply orb_true_iff in Hb as [H|H]|].
  - rewrite (first_char line 32%N (js "+++ b/")), (first_char line 32%N (js "@@"));
      done.
  - by destruct (minus_not_header line H) as (-> & -> & _).
  - destruct (plus_not_hunk line H1) as [-> _]. by rewrite H2.
Qed.

Lemma body_line_advances line :
  body_line line = true -> advances line = new_side line.
Proof.
  unfold body_line, advances, new_side.
  intros Hb. apply orb_true_iff in Hb as [Hb|[H1 H2]%andb_prop];
    [apply orb_true_iff in Hb as [H|H]|].
  - rewrite H, (first_char line 32%N (js "-")), (first_char line 32%N (js "@@"));
      done.
  - destruct (minus_not_header line H) as (_ & _ & ->).
    rewrite H, (first_char line 45%N (js " ")); done.
  - destruct (plus_not_hunk line H1) as [-> ->]. by rewrite H1, orb_true_r.
Qed.

Lemma advance_count_body body :
  Forall (fun l => body_line l = true) body ->
  advance_count body = length (List.filter new_side body).
Proof.
  unfold advance_count. induction 1 as [|l ls Hl _ IH]; [done|].
  cbn [List.filter]. rewrite (body_line_advances l Hl).
  destruct (new_side l); cbn [length]; by rewrite IH.
Qed.

(** The recorded numbers stay increasing while the cursor is exact. *)
Lemma step_sorted st line :
  currentLineNumber st <= MAX_SAFE_INTEGER ->
  ascending_from st [line] = true -> sorted_below st -> sorted_below (step st line).
Proof.
  unfold ascending_from, is_header. rewrite andb_true_r.
  intros Hle Hasc [Hs Hb]. unfold step.
  destruct (startsWith line (js "+++ b/")) eqn:Hh.
  { split.
    - intros f ns. cbn [fileChanges].
      destruct (decide (substring line 6 = f)) as [<-|Hne].
      + rewrite map_get_set. intros [= <-]. constructor.
      + rewrite map_get_set_ne by done. apply Hs.
    - rewrite current_lines_set. constructor. }
  destruct (startsWith line (js "@@")).
  { cbn [negb andb] in Hasc. destruct (hunk_start line) as [n|]; [|by split].
    split; [exact Hs|].
    rewrite forallb_forall in Hasc. apply List.Forall_forall.
    intros x Hx. apply Z.ltb_lt. by apply Hasc. }
  unfold current_lines in Hb.
  destruct (currentFile st) as [g|] eqn:Hg; cbn [file_set andb]; [|by split; [|unfold current_lines; rewrite Hg]].
  destruct (truthy g); cbn [andb];
    [|by split; [|unfold current_lines; rewrite Hg]].
  rewrite (incr_exact _ Hle).
  destruct (startsWith line (js "+") && negb (startsWith line (js "+++"))).
  - cbn [default from_option id].
    assert (Hold : StronglySorted Z.lt (default [] (map_get (fileChanges st) g))).
    { destruct (map_get (fileChanges st) g) as [ns0|] eqn:E; [by eapply Hs | constructor]. }
    split.
    + intros f ns. cbn [fileChanges].
      destruct (decide (g = f)) as [->|Hne].
      * rewrite map_get_set. intros [= <-].
        apply StronglySorted_app_2; [|done|repeat constructor].
        intros x1 x2 H1 ->%list_elem_of_singleton.
        rewrite Forall_forall in Hb. by apply Hb.
      * rewrite map_get_set_ne by done. apply Hs.
    + rewrite current_lines_set. apply Forall_app. split.
      * eapply Forall_impl; [exact Hb|]. cbn [currentLineNumber]. intros; lia.
      * repeat constructor. cbn [currentLineNumber]. lia.
  - destruct (negb (startsWith line (js "-"))).
    + split; [exact Hs|]. unfold current_lines. cbn [currentFile fileChanges].
      eapply Forall_impl; [exact Hb|].
      cbn [currentLineNumber]. intros; lia.
    + split; [exact Hs|]. unfold current_lines. by rewrite Hg.
Qed.

(** The cursor moves by at most one per line, or to a new-start. *)
Lemma step_cursor st line :
  currentLineNumber st <= MAX_SAFE_INTEGER ->
  currentLineNumber (step st line) <= currentLineNumber st + 1
  \/ (startsWith line (js "@@") = true
      /\ hunk_start line = Some (currentLineNumber (step st line))).
Proof.
  intros Hle. unfold step.
  destruct (startsWith line (js "+++ b/")); [left; cbn; lia|].
  destruct (startsWith line (js "@@")).
  { destruct (hunk_start line); [by right | left; lia]. }
  destruct (file_set (currentFile st) && _ && _).
  { left. cbn [currentLineNumber]. rewrite incr_exact by done. lia. }
  destruct (file_set (currentFile st) && _); left; [|lia].
  cbn [currentLineNumber]. rewrite incr_exact by done. lia.
Qed.

Lemma scan_sorted lines : forall st (total : nat),
  (length lines <= total)%nat ->
  currentLineNumber st + Z.of_nat (length lines) <= MAX_SAFE_INTEGER ->
  Forall (fun l => startsWith l (js "@@") = true ->
                   forall n, hunk_start l = Some n ->
                             n + Z.of_nat total <= MAX_SAFE_INTEGER) lines ->
  ascending_from st lines = true -> sorted_below st ->
  sorted_below (scan_lines st lines).
Proof.
  induction lines as [|line lines IH]; intros st total Hlen Hc Hall Hasc Hinv;
    [done|].
  rewrite scan_lines_cons. cbn [ascending_from] in Hasc. cbn [length] in Hlen, Hc.
  apply andb_prop in Hasc as [H1 H2]. apply Forall_cons in Hall as [Hl Hall].
  assert (Hle : currentLineNumber st <= MAX_SAFE_INTEGER) by lia.
  apply (IH _ total); [lia | | done | done |].
  - destruct (step_cursor st line Hle) as [H|[Hh Hs]]; [lia|].
    specialize (Hl Hh _ Hs). lia.
  - apply step_sorted; [done | | done]. cbn [ascending_from]. by rewrite H1.
Qed.

Lemma in_exact_range_spec lines :
  in_exact_range lines = true ->
  Z.of_nat (length lines) <= MAX_SAFE_INTEGER
  /\ Forall (fun l => startsWith l (js "@@") = true ->
                      forall n, hunk_start l = Some n ->
                                n + Z.of_nat (length lines) <= MAX_SAFE_INTEGER)
       lines.
Proof.
  unfold in_exact_range. intros [H1 H2]%andb_prop.
  split; [by apply Z.leb_le|].
  rewrite forallb_forall in H2. apply List.Forall_forall.
  intros l Hl Hh n Hn. specialize (H2 l Hl). rewrite Hh, Hn in H2.
  by apply Z.leb_le.
Qed.

End Cursor.

(** C5, as stated, fails where the cursor leaves the integers that are
    exact: the new-start of the header is read as [2^53], the addition is
    recorded there and not at the declared new-start, and the cursor does
    not advance, so the next addition is recorded at the same number. *)
Lemma addition_recorded_at_rounded_cursor :
  parseDiff (js "+++ b/a.js
@@ -1 +9007199254740993 @@
-removed
+added
+more")
  = [(js "a.js", [9007199254740992; 9007199254740992])].
Proof. vm_compute. reflexivity. Qed.

(** C5 (amended): in a hunk of a file (the current file is a non-empty
    path), a line whose first character is ['-'] changes nothing: it is not
    recorded and the cursor stays; a line whose first character is ['+'] and
    that does not start with ["+++"] is recorded at the cursor, which is then
    incremented; any other line of the hunk increments the cursor and
    records nothing. The increment advances the cursor by one while the
    cursor is at most [MAX_SAFE_INTEGER]. After a hunk header a removal
    followed by an addition records, for the addition, the new-start read
    from the header, which is the new-start the header declares when that is
    at most [MAX_SAFE_INTEGER]. *)
Theorem removal_keeps_cursor st f line :
  currentFile st = Some f ->
  truthy f = true ->
  (startsWith line (js "-") = true -> step st line = st)
  /\ (startsWith line (js "+") = true -> startsWith line (js "+++") = false ->
      step st line =
      {| fileChanges :=
           map_set (fileChanges st) f
             (default [] (map_get (fileChanges st) f) ++ [currentLineNumber st]);
         currentFile := Some f;
         currentLineNumber := incr (currentLineNumber st) |})
  /\ (startsWith line (js "+++ b/") = false -> startsWith line (js "@@") = false ->
      startsWith line (js "-") = false ->
      startsWith line (js "+") = false \/ startsWith line (js "+++") = true ->
      step st line =
      {| fileChanges := fileChanges st;
         currentFile := Some f;
         currentLineNumber := incr (currentLineNumber st) |})
  /\ (currentLineNumber st <= MAX_SAFE_INTEGER ->
      incr (currentLineNumber st) = currentLineNumber st + 1)
  /\ (forall header removed added n,
        startsWith header (js "@@") = true -> hunk_start header = Some n ->
        startsWith removed (js "-") = true ->
        startsWith added (js "+") = true -> startsWith added (js "+++") = false ->
        map_get (fileChanges (scan_lines st [header; removed; added])) f
        = Some (default [] (map_get (fileChanges st) f) ++ [n]))
  /\ (forall old_start old_count new_start new_count section_text removed added,
        0 <= old_start -> 0 <= new_start <= MAX_SAFE_INTEGER ->
        (forall n, old_count = Some n -> 0 <= n) ->
        (forall n, new_count = Some n -> 0 <= n) ->
        startsWith removed (js "-") = true ->
        startsWith added (js "+") = true -> startsWith added (js "+++") = false ->
        map_get (fileChanges
                   (scan_lines st
                      [hunk_header_text old_start old_count new_start new_count
                         section_text; removed; added])) f
        = Some (default [] (map_get (fileChanges st) f) ++ [new_start])).
Proof.
  intros Hf Ht.
  assert (Hpair : forall header removed added n,
            startsWith header (js "@@") = true -> hunk_start header = Some n ->
            startsWith removed (js "-") = true ->
            startsWith added (js "+") = true -> startsWith added (js "+++") = false ->
            map_get (fileChanges (scan_lines st [header; removed; added])) f
            = Some (default [] (map_get (fileChanges st) f) ++ [n])).
  { intros header removed added n Hh Hn Hr Ha1 Ha3.
    unfold scan_lines; cbn [fold_left].
    rewrite (step_hunk st header n Hh Hn).
    rewrite (step_removal _ f removed) by done.
    rewrite (step_addition _ f added) by done.
    cbn [fileChanges currentLineNumber]. apply map_get_set. }
  split; [|split; [|split; [|split; [|split]]]].
  - by apply step_removal with f.
  - by apply step_addition.
  - by apply step_context.
  - apply incr_exact.
  - exact Hpair.
  - intros a ob c od tail removed added Ha [Hc0 Hc] Hob Hod Hr Ha1 Ha3.
    apply Hpair; [done | | done..].
    rewrite (hunk_start_text a ob c od tail) by done.
    rewrite to_number_exact; [done | lia].
Qed.

Lemma removal_keeps_cursor_witness :
  let st := step scan0 (js "+++ b/a.js") in
  (currentFile st = Some (js "a.js") /\ truthy (js "a.js") = true)
  /\ step st (js "-removed") = st
  /\ map_get (fileChanges
                (scan_lines st [js "@@ -7,1 +7,1 @@"; js "-removed"; js "+added"]))
       (js "a.js") = Some [7]
  /\ map_get (fileChanges
                (scan_lines st [hunk_header_text 7 (Some 1) 7 (Some 1) [];
                                js "-removed"; js "+added"]))
       (js "a.js") = Some [7].
Proof.
  intros st.
  assert (Hf : currentFile st = Some (js "a.js")) by reflexivity.
  assert (Ht : truthy (js "a.js") = true) by reflexivity.
  destruct (removal_keeps_cursor st (js "a.js") (js "-removed") Hf Ht)
    as (Hminus & _ & _ & _ & Hpair & Htext).
  split; [done|]. split; [by apply Hminus|]. split.
  - apply (Hpair (js "@@ -7,1 +7,1 @@") (js "-removed") (js "+added") 7);
      vm_compute; reflexivity.
  - apply (Htext 7 (Some 1) 7 (Some 1) [] (js "-removed") (js "+added"));
      try reflexivity; try (by intros n [= <-]); vm_compute; try done;
      split; discriminate.
Defined.

(** C2 (amended): a ["+++ b/<path>"] line makes [<path>] the current file
    with an empty sequence and leaves the line cursor as it is (the cursor
    has no unset state: it starts at 0); a malformed hunk header changes
    nothing. So an addition scanned after a file header with a non-empty
    path and before the next file header or valid hunk header is recorded:
    at the cursor carried over from before the header, advanced once for
    each line in between that starts neither with ['-'] nor with ["@@"]
    (carried cursor plus their number, up to [MAX_SAFE_INTEGER]). After a
    header with an empty path nothing is recorded. *)
Theorem cursor_kept_at_file_header st header body i added :
  startsWith header (js "+++ b/") = true ->
  Forall (fun l => between_line l = true) body ->
  body !! i = Some added ->
  is_addition added = true ->
  let path := substring header 6 in
  let v := advanced (currentLineNumber st) (advance_count (take i body)) in
  currentLineNumber (step st header) = currentLineNumber st
  /\ currentFile (step st header) = Some path
  /\ map_get (fileChanges (step st header)) path = Some []
  /\ (forall s l, startsWith l (js "@@") = true -> hunk_start l = None ->
                  step s l = s)
  /\ (truthy path = true ->
      (exists ns0,
         map_get (fileChanges (scan_lines st (header :: take i body ++ [added])))
           path = Some (ns0 ++ [v]))
      /\ (exists ns,
            map_get (fileChanges (scan_lines st (header :: body))) path = Some ns
            /\ v ∈ ns)
      /\ (currentLineNumber st + Z.of_nat (advance_count (take i body))
          <= MAX_SAFE_INTEGER ->
          v = currentLineNumber st + Z.of_nat (advance_count (take i body))))
  /\ (truthy path = false ->
      fileChanges (scan_lines st (header :: body))
      = map_set (fileChanges st) path []).
Proof.
  intros Hh Hall Hi Ha path v.
  rewrite !scan_lines_cons, (step_header st header Hh). fold path.
  cbn [currentLineNumber currentFile fileChanges].
  split; [done|]. split; [done|]. split; [apply map_get_set|].
  split; [intros s l; apply step_bad_hunk|].
  set (st1 := {| fileChanges := map_set (fileChanges st) path [];
                 currentFile := Some path;
                 currentLineNumber := currentLineNumber st |}).
  split.
  - intros Ht.
    destruct (recorded_between st1 path body i added eq_refl Ht Hall Hi Ha)
      as [Hrec Hin].
    cbn [st1 currentLineNumber] in Hrec, Hin. fold st1 in Hrec, Hin. fold v in Hrec, Hin.
    split; [|split].
    + destruct (in_default v (map_get (fileChanges (scan_lines st1 (take i body ++ [added]))) path))
        as (ns1 & E1 & _).
      { rewrite Hrec. apply elem_of_app. right. by apply list_elem_of_singleton. }
      rewrite E1 in Hrec. cbn [default from_option id] in Hrec.
      eexists. rewrite E1. by rewrite Hrec.
    + by apply in_default.
    + intros Hle. apply advanced_exact. lia.
  - intros Ht. by rewrite scan_without_current; [| cbn; rewrite Ht |].
Qed.

Lemma cursor_kept_at_file_header_witness :
  let st := scan_lines scan0 [js "+++ b/a.js"; js "@@ -1,1 +5,1 @@"; js "+x"] in
  let body := [js "@@ broken @@"; js "+y"; js " kept"; js "-gone"; js "+z"] in
  currentLineNumber st = 6
  /\ Forall (fun l => between_line l = true) body
  /\ map_get (fileChanges (scan_lines st (js "+++ b/b.js" :: body))) (js "b.js")
     = Some [6; 8]
  /\ exists ns,
       map_get (fileChanges (scan_lines st (js "+++ b/b.js" :: body))) (js "b.js")
       = Some ns
       /\ advanced 6 2 ∈ ns.
Proof.
  intros st body.
  assert (Hall : Forall (fun l => between_line l = true) body).
  { apply Forall_forall. intros l Hl. vm_compute in Hl.
    repeat (apply elem_of_cons in Hl as [->|Hl]; [vm_compute; reflexivity|]).
    by apply elem_of_nil in Hl. }
  split; [vm_compute; reflexivity|]. split; [exact Hall|].
  split; [vm_compute; reflexivity|].
  destruct (cursor_kept_at_file_header st (js "+++ b/b.js") body 4 (js "+z")
              eq_refl Hall eq_refl eq_refl) as (_ & _ & _ & _ & Hrec & _).
  destruct (Hrec eq_refl) as (_ & Hin & _). exact Hin.
Defined.

(** C4, as stated, fails in three ways. Two hunks of one file whose
    new-starts go down give a sequence that is not increasing; at [2^53] the
    cursor stops advancing, so two additions of one hunk get the same
    number; and the marker line that git prints after a last line without
    line break advances the cursor, so the numbers recorded after it are not
    the line numbers of the added lines (they are 1 and 2 here). *)
Lemma recorded_numbers_not_line_numbers :
  parseDiff (js "+++ b/a.js
@@ -9,0 +5,1 @@
+x
@@ -1,0 +2,1 @@
+y")
  = [(js "a.js", [5; 2])]
  /\ parseDiff (js "+++ b/a.js
@@ -1 +9007199254740992 @@
+x
+y")
     = [(js "a.js", [9007199254740992; 9007199254740992])]
  /\ parseDiff (js "+++ b/a.js
@@ -1 +1,2 @@
-old
\ No newline at end of file
+new1
+new2")
     = [(js "a.js", [2; 3])].
Proof. repeat split; vm_compute; reflexivity. Qed.

(** C4 (amended): for every diff text the keys of the map [parseDiff]
    returns are unique and in the order in which the paths first appear in
    ["+++ b/"] headers; every number in a key's sequence was recorded at an
    added line scanned while that key was the current file (never a context
    or removed line). In a hunk of a file whose body lines are context,
    added and removed lines, the number recorded for an added line is its
    1-based post-change line number, counted from the new-start of the hunk
    header, up to [MAX_SAFE_INTEGER]; it stays in the sequence of the file
    unless a later header names the file again. Each sequence is strictly
    increasing when every valid hunk header declares a new-start above the
    line numbers already recorded for the current file, as the hunks of one
    file in ascending order do, and the new-starts and the number of lines
    stay within the integers that are exact. *)
Theorem parseDiff_shape diff :
  let lines := split_nl diff in
  NoDup (parseDiff diff).*1
  /\ (parseDiff diff).*1 = first_occurrences (headers lines)
  /\ (forall f ns n,
        (f, ns) ∈ parseDiff diff -> n ∈ ns ->
        exists i line,
          lines !! i = Some line /\ is_addition line = true
          /\ currentFile (scan_lines scan0 (take i lines)) = Some f
          /\ currentLineNumber (scan_lines scan0 (take i lines)) = n)
  /\ (forall before header body after i added c f,
        lines = before ++ header :: body ++ after ->
        last_header before = Some f -> truthy f = true ->
        startsWith header (js "@@") = true -> hunk_start header = Some c ->
        Forall (fun l => body_line l = true) body ->
        body !! i = Some added -> is_addition added = true ->
        post_change_number c body i <= MAX_SAFE_INTEGER ->
        Forall (fun l => is_header l = true -> substring l 6 <> f) after ->
        exists ns,
          (f, ns) ∈ parseDiff diff /\ post_change_number c body i ∈ ns)
  /\ (hunks_ascend diff = true -> in_exact_range lines = true ->
      forall f ns, (f, ns) ∈ parseDiff diff -> StronglySorted Z.lt ns).
Proof.
  intros lines. unfold parseDiff. fold lines.
  assert (Hc0 : current_is_key scan0) by (by intros f).
  assert (Hn0 : NoDup (fileChanges scan0).*1) by constructor.
  destruct (scan_keys lines scan0 Hc0 Hn0) as [Hk Hnd].
  split; [done|]. split.
  { rewrite Hk. cbn [scan0 fileChanges fmap list_fmap app].
    apply filter_not_in_nil. }
  split; [|split].
  - intros f ns n Hin Hn. apply (map_get_entry _ _ _ Hnd) in Hin.
    destruct (scan_records lines scan0 f ns n Hin Hn) as [(ns0 & H0 & _)|H]; [done|].
    exact H.
  - intros before header body after i added c f El Hlast Ht Hh Hs Hbody Hi Ha
      Hle Hafter.
    set (st0 := scan_lines scan0 before).
    assert (Hf0 : currentFile st0 = Some f).
    { unfold st0. by rewrite scan_current, Hlast. }
    set (st1 := {| fileChanges := fileChanges st0; currentFile := currentFile st0;
                   currentLineNumber := c |}).
    assert (E : scan_lines scan0 lines
                = scan_lines (scan_lines st1 body) after).
    { rewrite El. unfold scan_lines. rewrite fold_left_app. cbn [fold_left].
      fold (scan_lines scan0 before). fold st0.
      rewrite (step_hunk st0 header c Hh Hs). fold st1.
      by rewrite fold_left_app. }
    assert (Hb : Forall (fun l => between_line l = true) body).
    { eapply Forall_impl; [exact Hbody|]. apply body_line_between. }
    destruct (recorded_between st1 f body i added Hf0 Ht Hb Hi Ha) as [_ Hin].
    cbn [st1 currentLineNumber] in Hin. fold st1 in Hin.
    rewrite (advance_count_body (take i body)) in Hin
      by (by apply Forall_take).
    unfold post_change_number in *.
    rewrite advanced_exact in Hin by lia.
    apply in_default in Hin as (ns1 & Hg1 & Hx1).
    destruct (scan_keeps after _ f ns1 _ Hg1 Hx1 Hafter) as (ns2 & Hg2 & Hx2).
    exists ns2. rewrite E. split; [by apply map_get_elem | done].
  - intros Hasc Hex f ns Hin. apply (map_get_entry _ _ _ Hnd) in Hin.
    assert (Hs0 : sorted_below scan0) by (split; [done | constructor]).
    destruct (in_exact_range_spec lines Hex) as [Hlen Hall].
    destruct (scan_sorted lines scan0 (length lines)) as [Hs _];
      [done | cbn; lia | done | done | done |].
    by eapply Hs.
Qed.

Lemma parseDiff_shape_witness :
  let diff := js "+++ b/a.js
@@ -1,2 +1,3 @@
 unchanged
+added line
 trailing
@@ -8,2 +9,4 @@
+more
+still more
+++ b/b.js
@@ -1,1 +1,2 @@
 first
+second" in
  (hunks_ascend diff = true /\ in_exact_range (split_nl diff) = true)
  /\ parseDiff diff = [(js "a.js", [2; 9; 10]); (js "b.js", [2])]
  /\ StronglySorted Z.lt [2; 9; 10]
  /\ post_change_number 1 [js " unchanged"; js "+added line"; js " trailing"] 1 = 2.
Proof.
  intros diff.
  assert (Hasc : hunks_ascend diff = true) by (vm_compute; reflexivity).
  assert (Hex : in_exact_range (split_nl diff) = true) by (vm_compute; reflexivity).
  assert (Hp : parseDiff diff = [(js "a.js", [2; 9; 10]); (js "b.js", [2])])
    by (vm_compute; reflexivity).
  split; [done|]. split; [exact Hp|].
  destruct (parseDiff_shape diff) as (_ & _ & _ & _ & Hs).
  split; [|vm_compute; reflexivity].
  apply (Hs Hasc Hex (js "a.js")). rewrite Hp. apply elem_of_cons. by left.
Defined.
